(** * nestjs-pubsub-lib: dispatch core, infrastructure provisioning,
      publisher and module configuration

    A shallow embedding of the TypeScript sources

    - [error.utils.ts]          ([normalizeError]),
    - [pubsub-base.listener.ts] (the base-class listener variant),
    - [pubsub-explorer.service.ts] (the decorator / discovery variant),
    - [pubsub-publisher.service.ts] ([dispatchEvent], [getTopic]),
    - the two [pubsub.module.ts] variants ([register], [mergeDefaultOptions],
      [createClient]).

    JavaScript objects that the code spreads ([{...a, ...b}]) are finite maps
    from property names to values; the Pub/Sub client, the logger and the
    message handle are external collaborators whose calls are recorded, in
    program order, as a list of events. *)

From stdpp Require Import gmap strings list fin_maps pretty.
From Stdlib Require Import ZArith Ascii DecimalString DecimalN DecimalPos.
From Stdlib Require DecimalFacts.

Set Warnings "-register-all".

Local Open Scope Z_scope.

(* ===================================================================== *)
(** ** JavaScript values                                                  *)
(* ===================================================================== *)

(** The values that flow through option objects.  Numbers are the integers
    (ports, seconds); [JRef] is an opaque host object such as a logger. *)
Inductive jsv :=
  | JUndefined
  | JNull
  | JBool (b : bool)
  | JNum (n : Z)
  | JStr (s : string)
  | JRef (name : string)
  | JObj (fields : gmap string jsv).

Abbreviation obj := (gmap string jsv).

(** [ToBoolean]: what [if (v)], [!v] and [v || d] test. *)
Definition truthy (v : jsv) : bool :=
  match v with
  | JUndefined | JNull => false
  | JBool b => b
  | JNum n => negb (n =? 0)
  | JStr s => negb (String.eqb s "")
  | JRef _ | JObj _ => true
  end.

(** [v === undefined || v === null]: what [??] and [?.] test. *)
Definition nullish (v : jsv) : bool :=
  match v with
  | JUndefined | JNull => true
  | _ => false
  end.

(** Property read [o.k]: a missing property reads as [undefined]. *)
Definition get (o : obj) (k : string) : jsv := default JUndefined (o !! k).

(** ['k' in o]. *)
Definition has (o : obj) (k : string) : bool := bool_decide (is_Some (o !! k)).

(** [a || b] and [a ?? b]. *)
Definition js_or (a b : jsv) : jsv := if truthy a then a else b.
Definition js_coalesce (a b : jsv) : jsv := if nullish a then b else a.

(** Own enumerable properties of a string: its characters by index. *)
Fixpoint spread_chars (i : nat) (s : string) : obj :=
  match s with
  | EmptyString => ∅
  | String c r => <[pretty i := JStr (String c EmptyString)]> (spread_chars (S i) r)
  end.

(** The properties an object spread [...v] copies: those of an object, the
    indexed characters of a string, nothing for other primitives. *)
Definition spread (v : jsv) : obj :=
  match v with
  | JObj m => m
  | JStr s => spread_chars 0 s
  | _ => ∅
  end.

(** [{...a, ...b}]: later spreads overwrite earlier ones, property by
    property ([∪] is left-biased). *)
Definition spread2 (a b : obj) : obj := b ∪ a.

(** An optional object argument ([x?: {...}]): absent reads as [undefined]. *)
Definition opt_obj (o : option obj) : jsv :=
  match o with
  | Some m => JObj m
  | None => JUndefined
  end.

(** [o?.k]. *)
Definition opt_get (o : jsv) (k : string) : jsv :=
  match o with
  | JObj m => get m k
  | _ => JUndefined
  end.

(* ===================================================================== *)
(** ** Thrown values and completions                                      *)
(* ===================================================================== *)

(** Anything can be thrown: an [Error] instance (with its message and
    stack) or an arbitrary value. *)
Inductive thrown :=
  | Thrown_Error (message : string) (stack : option string)
  | Thrown_value (v : jsv).

Inductive completion (A : Type) :=
  | Normal (a : A)
  | Throw (e : thrown).
Arguments Normal {A} a.
Arguments Throw {A} e.

Abbreviation Buffer := (list Byte.byte).

(** The host runtime, for a payload type [T] (the generic parameter of
    [PubsubBaseListener<T>] and [dispatchEvent<T>]). *)
Class Runtime (T : Type) := {
  (** [JSON.parse(text)] *)
  JSON_parse : string → completion T;
  (** [JSON.stringify(data)] on a payload *)
  JSON_stringify : T → completion string;
  (** [JSON.stringify(options)] on a plain options object *)
  JSON_stringify_object : obj → string;
  (** [Buffer.from(text)] *)
  Buffer_from : string → Buffer;
  (** [buffer.toString("utf-8")] *)
  Buffer_toString : Buffer → string;
  (** [String(o)] on a host object, which may itself throw *)
  host_toString : string → completion string;
  (** the [stack] captured by [new Error(message)] *)
  Error_stack : string → string;
}.

(** [String(v)] and the conversion of [v] inside a template literal. *)
Definition String_of `{Runtime T} (v : jsv) : completion string :=
  match v with
  | JUndefined => Normal "undefined"
  | JNull => Normal "null"
  | JBool b => Normal (if b then "true" else "false")
  | JNum n => Normal (pretty n)
  | JStr s => Normal s
  | JRef name => host_toString name
  | JObj _ => Normal "[object Object]"
  end.

(* ===================================================================== *)
(** ** error.utils.ts                                                     *)
(* ===================================================================== *)

Record NormalizedError := {
  message : string;
  stack : option string;
}.

Definition normalizeError `{Runtime T} (error : thrown) : NormalizedError :=
  let fallback (v : jsv) :=
    match String_of v with
    | Normal s => {| message := s; stack := None |}
    | Throw _ => {| message := "An unstringifiable error occurred"; stack := None |}
    end in
  match error with
  | Thrown_Error m st => {| message := m; stack := st |}
  | Thrown_value (JObj o) =>
      match o !! "message" with
      | Some (JStr m) =>
          {| message := m;
             stack := match o !! "stack" with
                      | Some (JStr st) => Some st
                      | _ => None
                      end |}
      | _ => fallback (JObj o)
      end
  | Thrown_value v => fallback v
  end.

Definition new_Error `{Runtime T} (msg : string) : thrown :=
  Thrown_Error msg (Some (Error_stack msg)).

(* ===================================================================== *)
(** ** External collaborators: backend, logger, message handle            *)
(* ===================================================================== *)

(** An inbound message ([Message] of the client library). *)
Record Message := {
  message_id : string;
  data : Buffer;
  msg_attributes : gmap string string;
}.

(** A subscription handle [topic.subscription(name)]. *)
Record Subscription := {
  sub_topic : string;
  sub_name : string;
}.

(** Who issued an [ack()] / [nack()] on the message handle: the library
    or the user's handler. *)
Inductive origin := ByCore | ByHandler.

Inductive LogLevel := Log | Warn | Error.

(** What the user's handler does when invoked: the [ack()] / [nack()] calls
    it makes on the raw message, in order, and how it completes (returns /
    resolves, or throws / rejects). *)
Inductive AckOp := Ack | Nack.

Record HandlerRun := {
  ops : list AckOp;
  outcome : completion unit;
}.

Section Effects.
Context {T : Type}.

(** The structured metadata object the publisher logs. *)
Record LogMeta := {
  lm_topicName : string;
  lm_attributes : gmap string string;
  lm_payloadSize : nat;
  lm_payload : option T;
  lm_messageId : option string;
}.

(** Arguments after the message in [logger.log / warn / error]. *)
Inductive LogArg :=
  | Arg_string (s : string)
  | Arg_undefined
  | Arg_meta (m : LogMeta)
  | Arg_thrown (e : thrown).

Definition Arg_stack (st : option string) : LogArg :=
  match st with
  | Some s => Arg_string s
  | None => Arg_undefined
  end.

(** Every call the library makes on a collaborator, and every call the
    user's handler makes on the message handle.  The collaborators are used
    as given: a call on the logger or on the message handle completes
    normally, an existence check always answers, and only creating what
    exists and publishing can fail. *)
Inductive Event :=
  | Call_topic_exists (topic : string)
  | Call_topic_create (topic : string)
  | Call_subscription_exists (s : Subscription)
  | Call_subscription_create (s : Subscription) (options : obj)
  | Call_subscription_on (s : Subscription) (event : string)
  | Call_subscription_close (s : Subscription)
  | Call_publishMessage (topic : string) (body : Buffer)
                        (attrs : gmap string string)
  | Call_logger (level : LogLevel) (msg : string) (params : list LogArg)
  | Call_ack (by_ : origin) (m : Message)
  | Call_nack (by_ : origin) (m : Message)
  | Call_handler (payload : T) (m : Message).

(** The messaging backend: which topics and subscriptions exist (a
    subscription with the options it was created with), what has been
    published, and how it answers a publish request. *)
Record Backend := {
  topics : gset string;
  subscriptions : gmap (string * string) obj;
  published : list (string * Buffer * gmap string string);
  publish_reply : string → Buffer → gmap string string → completion string;
}.

(** Computations: read and update the backend, emit events, and either
    return or throw. *)
Definition M (A : Type) : Type := Backend → completion A * Backend * list Event.

Definition ret {A} (a : A) : M A := λ b, (Normal a, b, []).

Definition bind {A B} (m : M A) (k : A → M B) : M B :=
  λ b, match m b with
       | (Normal a, b1, ev1) =>
           let '(r, b2, ev2) := k a b1 in (r, b2, ev1 ++ ev2)
       | (Throw e, b1, ev1) => (Throw e, b1, ev1)
       end.

Definition throw {A} (e : thrown) : M A := λ b, (Throw e, b, []).

(** [try { body } catch (e) { handler e }] *)
Definition try_catch {A} (body : M A) (handler : thrown → M A) : M A :=
  λ b, match body b with
       | (Normal a, b1, ev1) => (Normal a, b1, ev1)
       | (Throw e, b1, ev1) =>
           let '(r, b2, ev2) := handler e b1 in (r, b2, ev1 ++ ev2)
       end.

Definition emit (e : Event) : M unit := λ b, (Normal tt, b, [e]).

#[global] Instance M_ret : MRet M := @ret.
#[global] Instance M_bind : MBind M := λ A B k m, bind m k.

(** *** The client library *)

Definition topic_exists (t : string) : M bool :=
  λ b, (Normal (bool_decide (t ∈ topics b)), b, [Call_topic_exists t]).

Definition already_exists : thrown :=
  Thrown_Error "6 ALREADY_EXISTS" None.

Definition add_topic (t : string) (b : Backend) : Backend :=
  {| topics := {[t]} ∪ topics b;
     subscriptions := subscriptions b;
     published := published b;
     publish_reply := publish_reply b |}.

Definition topic_create (t : string) : M unit :=
  λ b, if bool_decide (t ∈ topics b)
       then (Throw already_exists, b, [Call_topic_create t])
       else (Normal tt, add_topic t b, [Call_topic_create t]).

Definition sub_key (s : Subscription) : string * string :=
  (sub_topic s, sub_name s).

Definition subscription_exists (s : Subscription) : M bool :=
  λ b, (Normal (bool_decide (is_Some (subscriptions b !! sub_key s))), b,
        [Call_subscription_exists s]).

Definition add_subscription (s : Subscription) (options : obj) (b : Backend)
    : Backend :=
  {| topics := topics b;
     subscriptions := <[sub_key s := options]> (subscriptions b);
     published := published b;
     publish_reply := publish_reply b |}.

Definition subscription_create (s : Subscription) (options : obj) : M unit :=
  λ b, if bool_decide (is_Some (subscriptions b !! sub_key s))
       then (Throw already_exists, b, [Call_subscription_create s options])
       else (Normal tt, add_subscription s options b,
             [Call_subscription_create s options]).

Definition subscription_on (s : Subscription) (event : string) : M unit :=
  emit (Call_subscription_on s event).

Definition subscription_close (s : Subscription) : M unit :=
  emit (Call_subscription_close s).

Definition add_published (t : string) (body : Buffer)
    (attrs : gmap string string) (b : Backend) : Backend :=
  {| topics := topics b;
     subscriptions := subscriptions b;
     published := published b ++ [(t, body, attrs)];
     publish_reply := publish_reply b |}.

Definition topic_publishMessage (t : string) (body : Buffer)
    (attrs : gmap string string) : M string :=
  λ b, match publish_reply b t body attrs with
       | Normal mid =>
           (Normal mid, add_published t body attrs b,
            [Call_publishMessage t body attrs])
       | Throw e => (Throw e, b, [Call_publishMessage t body attrs])
       end.

(** *** The logger and the message handle *)

Definition logger_log (msg : string) (params : list LogArg) : M unit :=
  emit (Call_logger Log msg params).
Definition logger_warn (msg : string) (params : list LogArg) : M unit :=
  emit (Call_logger Warn msg params).
Definition logger_error (msg : string) (params : list LogArg) : M unit :=
  emit (Call_logger Error msg params).

(** [message.nack()]; the library has no call of [message.ack()]. *)
Definition message_nack (by_ : origin) (m : Message) : M unit :=
  emit (Call_nack by_ m).

(** *** Running user code *)

Definition ack_event (m : Message) (o : AckOp) : Event :=
  match o with
  | Ack => Call_ack ByHandler m
  | Nack => Call_nack ByHandler m
  end.

(** [await handler(payload, message)]: the invocation is recorded, the
    handler's own calls on the message follow, and its completion is the
    completion of the [await]. *)
Definition invoke (h : T → Message → HandlerRun) (payload : T) (m : Message)
    : M unit :=
  λ b, (outcome (h payload m), b,
        Call_handler payload m :: map (ack_event m) (ops (h payload m))).

(** *** Observations on event lists *)

Definition is_core_ack (e : Event) : bool :=
  match e with Call_ack ByCore _ => true | _ => false end.
Definition is_core_nack (e : Event) : bool :=
  match e with Call_nack ByCore _ => true | _ => false end.
Definition is_topic_exists (e : Event) : bool :=
  match e with Call_topic_exists _ => true | _ => false end.
Definition is_topic_create (e : Event) : bool :=
  match e with Call_topic_create _ => true | _ => false end.
Definition is_subscription_create (e : Event) : bool :=
  match e with Call_subscription_create _ _ => true | _ => false end.
Definition is_publish (e : Event) : bool :=
  match e with Call_publishMessage _ _ _ => true | _ => false end.

Definition count (p : Event → bool) (evs : list Event) : nat :=
  length (filter (λ e, p e = true) evs).

(** The arguments of the handler invocations among the events. *)
Definition handler_calls (evs : list Event) : list (T * Message) :=
  omap (λ e, match e with
             | Call_handler p m => Some (p, m)
             | _ => None
             end) evs.

(** The [ack()] / [nack()] calls among the events, with their origin. *)
Definition ack_calls (evs : list Event) : list (origin * AckOp) :=
  omap (λ e, match e with
             | Call_ack o _ => Some (o, Ack)
             | Call_nack o _ => Some (o, Nack)
             | _ => None
             end) evs.

(** The publish requests among the events. *)
Definition publish_calls (evs : list Event)
    : list (string * Buffer * gmap string string) :=
  omap (λ e, match e with
             | Call_publishMessage t body attrs => Some (t, body, attrs)
             | _ => None
             end) evs.

Definition result_of {A} (r : completion A * Backend * list Event) : completion A :=
  r.1.1.
Definition backend_of {A} (r : completion A * Backend * list Event) : Backend :=
  r.1.2.
Definition events_of {A} (r : completion A * Backend * list Event) : list Event :=
  r.2.
End Effects.

Arguments LogMeta : clear implicits.
Arguments LogArg : clear implicits.
Arguments Event : clear implicits.
Arguments M : clear implicits.

(** A completion computed without effects, used inside a computation. *)
Definition lift {T A} (c : completion A) : M T A := λ b, (c, b, []).

(** The default subscription options: the [defaultOptions] constant of the
    base listener and the [defaultSubscriptionOptions] field of the
    explorer are the same object literal. *)
Definition default_subscription_options : obj :=
  {[ "ackDeadlineSeconds" := JNum 60;
     "retryPolicy" :=
       JObj {[ "minimumBackoff" := JObj {[ "seconds" := JNum 10 ]};
               "maximumBackoff" := JObj {[ "seconds" := JNum 600 ]} ]};
     "messageRetentionDuration" := JObj {[ "seconds" := JNum (86400 * 7) ]} ]}.

(* ===================================================================== *)
(** ** pubsub-base.listener.ts                                            *)
(* ===================================================================== *)

Module PubsubBaseListener.
Section Listener.
Context {T : Type} `{!Runtime T}.

(** A concrete subclass of [PubsubBaseListener<T>]. *)
Record Listener := {
  topicName : string;
  subscriptionName : string;
  subscriptionOptions : option obj;
  constructor_name : string;
  handlePayload : T → Message → HandlerRun;
}.

(** [this.options], the injected [PUBSUB_MERGED_OPTIONS]. *)
Variable this_options : obj.
Variable this : Listener.

Definition getMergedSubscriptionOptions : obj :=
  let defaultOptions := default_subscription_options in
  let subscriptionOptions := opt_obj (subscriptionOptions this) in
  <["retryPolicy" :=
      JObj (spread2 (spread (get defaultOptions "retryPolicy"))
              (spread (js_coalesce (opt_get subscriptionOptions "retryPolicy")
                         (JObj ∅))))]>
    (spread2 defaultOptions (spread (js_coalesce subscriptionOptions (JObj ∅)))).

Definition parsePayload (data : Buffer) : completion T :=
  JSON_parse (Buffer_toString data).

Definition onMessage (msg : Message) : M T unit :=
  parsed ← try_catch
    (parsedPayload ← lift (parsePayload (data msg));
     mret (Some parsedPayload))
    (λ error,
       let normalizedError := normalizeError error in
       logger_error "Failed to parse Pub/Sub message data. Message will be nacked."
         [Arg_stack (stack normalizedError); Arg_string (constructor_name this)];;
       message_nack ByCore msg;;
       mret None);
  match parsed with
  | None => mret tt
  | Some parsedPayload =>
      try_catch
        (invoke (handlePayload this) parsedPayload msg)
        (λ error,
           let normalizedError := normalizeError error in
           logger_error ("Error handling message: " +:+ message normalizedError)
             [Arg_stack (stack normalizedError); Arg_string (constructor_name this)];;
           message_nack ByCore msg)
  end.

(** The closure registered for the ["message"] event. *)
Definition message_callback (msg : Message) : M T unit :=
  try_catch
    (onMessage msg)
    (λ error,
       logger_error ("Error handling message " +:+ message_id msg +:+ ":")
         [Arg_thrown error];;
       message_nack ByCore msg).

(** The closure registered for the ["error"] event. *)
Definition error_callback (error : thrown) : M T unit :=
  logger_error
    ("Subscription " +:+ subscriptionName this +:+ " encountered an error:")
    [Arg_thrown error].

Definition listenForMessages (subscription : Subscription) : M T unit :=
  subscription_on subscription "message";;
  subscription_on subscription "error";;
  logger_log ("Listener started for subscription: " +:+ subscriptionName this) [].

Definition onModuleInit : M T unit :=
  try_catch
    (logger_log ("Setting up subscription '" +:+ subscriptionName this
                 +:+ "' for topic '" +:+ topicName this +:+ "'") [];;
     let topic := topicName this in
     topicExists ← topic_exists topic;
     (if negb topicExists then
        if truthy (get this_options "autoCreateTopics") then
          logger_warn ("Topic '" +:+ topicName this
                       +:+ "' does not exist. Auto-creating...")
            [Arg_string (constructor_name this)];;
          topic_create topic;;
          logger_log ("Topic '" +:+ topicName this +:+ "' created.")
            [Arg_string (constructor_name this)]
        else
          throw (new_Error ("Topic '" +:+ topicName this
            +:+ "' does not exist and auto-creation is disabled. Cannot start listener."))
      else mret tt);;
     let subscription :=
       {| sub_topic := topic; sub_name := subscriptionName this |} in
     subscriptionExists ← subscription_exists subscription;
     (if negb subscriptionExists then
        let options := getMergedSubscriptionOptions in
        subscription_create subscription options;;
        logger_log ("Subscription " +:+ subscriptionName this
                    +:+ " created with options: " +:+ JSON_stringify_object options) []
      else mret tt);;
     listenForMessages subscription)
    (λ error,
       let normalizedError := normalizeError error in
       logger_error ("Fatal error during listener setup for topic '"
                     +:+ topicName this +:+ "'")
         [Arg_stack (stack normalizedError); Arg_string (constructor_name this)];;
       throw error).

End Listener.

Arguments Listener : clear implicits.
End PubsubBaseListener.

(* ===================================================================== *)
(** ** pubsub-explorer.service.ts                                         *)
(* ===================================================================== *)

Module PubSubExplorer.
Section Explorer.
Context {T : Type} `{!Runtime T}.

(** The metadata attached by the [@PubSubListener] decorator. *)
Record PubSubListenerOptions := {
  topicName : string;
  subscriptionName : string;
  subscriptionOptions : option obj;
}.

(** A provider instance: the name of its class and its [handle] method,
    if it has one. *)
Record Instance := {
  constructor_name : string;
  handle : option (T → Message → HandlerRun);
}.

(** What the discovery service yields for a provider: its instance, if
    any, and what the reflector finds on the instance's class. *)
Record InstanceWrapper := {
  instance : option Instance;
  metadata : option PubSubListenerOptions;
}.

(** [this.options], the injected [PUBSUB_MERGED_OPTIONS]. *)
Variable this_options : obj.

Definition defaultSubscriptionOptions : obj := default_subscription_options.

Definition getOrCreateTopic (meta : PubSubListenerOptions) : M T string :=
  let topic := topicName meta in
  topicExists ← topic_exists topic;
  (if negb topicExists then
     if truthy (get this_options "autoCreateTopics") then
       logger_warn ("Topic '" +:+ topicName meta
                    +:+ "' does not exist. Auto-creating...")
         [Arg_string "PubSubExplorer"];;
       topic_create topic;;
       logger_log ("Topic '" +:+ topicName meta +:+ "' created.")
         [Arg_string "PubSubExplorer"]
     else
       throw (new_Error ("Topic '" +:+ topicName meta
         +:+ "' does not exist and auto-creation is disabled. Cannot start listener."))
   else mret tt);;
  mret topic.

(** The [mergedOptions] object built when the subscription is missing. *)
Definition mergedOptions (meta : PubSubListenerOptions) : obj :=
  let subscriptionOptions := opt_obj (subscriptionOptions meta) in
  <["retryPolicy" :=
      JObj (spread2 (spread (get defaultSubscriptionOptions "retryPolicy"))
              (spread (js_or (opt_get subscriptionOptions "retryPolicy")
                         (JObj ∅))))]>
    (spread2 defaultSubscriptionOptions (spread subscriptionOptions)).

Definition getOrCreateSubscription (topic : string) (meta : PubSubListenerOptions)
    : M T Subscription :=
  let subscription := {| sub_topic := topic; sub_name := subscriptionName meta |} in
  subscriptionExists ← subscription_exists subscription;
  (if negb subscriptionExists then
     logger_log ("Creating subscription " +:+ subscriptionName meta
                 +:+ " with merged options...") [];;
     subscription_create subscription (mergedOptions meta)
   else mret tt);;
  mret subscription.

(** [instance.handle(payload, message)]: calling a method the instance
    does not have throws a [TypeError]. *)
Definition call_handle (inst : Instance) (payload : T) (msg : Message) : M T unit :=
  match handle inst with
  | Some h => invoke h payload msg
  | None => throw (new_Error "instance.handle is not a function")
  end.

(** The closure registered for the ["message"] event. *)
Definition message_callback (inst : Instance) (msg : Message) : M T unit :=
  try_catch
    (payload ← lift (JSON_parse (Buffer_toString (data msg)));
     call_handle inst payload msg)
    (λ err,
       let normalizedError := normalizeError err in
       logger_error ("Handler " +:+ constructor_name inst +:+ " failed: "
                     +:+ message normalizedError)
         [Arg_stack (stack normalizedError); Arg_string "PubSubExplorer"];;
       message_nack ByCore msg).

(** [this.subscriptions] is passed in and the updated array returned. *)
Definition setupHandler (inst : Instance) (meta : PubSubListenerOptions)
    (subscriptions : list Subscription) : M T (list Subscription) :=
  try_catch
    (logger_log ("Setting up subscription '" +:+ subscriptionName meta
                 +:+ "' for topic '" +:+ topicName meta +:+ "'") [];;
     topic ← getOrCreateTopic meta;
     subscription ← getOrCreateSubscription topic meta;
     subscription_on subscription "message";;
     let subscriptions := subscriptions ++ [subscription] in
     logger_log ("Mapped handler " +:+ constructor_name inst +:+ " to "
                 +:+ subscriptionName meta) [];;
     mret subscriptions)
    (λ error,
       let normalizedError := normalizeError error in
       logger_error ("Fatal error during listener setup for topic '"
                     +:+ topicName meta +:+ "'")
         [Arg_stack (stack normalizedError); Arg_string "PubSubExplorer"];;
       throw error).

Fixpoint onModuleInit (providers : list InstanceWrapper)
    (subscriptions : list Subscription) : M T (list Subscription) :=
  match providers with
  | [] => mret subscriptions
  | wrapper :: providers =>
      match instance wrapper, metadata wrapper with
      | Some inst, Some meta =>
          subscriptions ← setupHandler inst meta subscriptions;
          onModuleInit providers subscriptions
      | _, _ => onModuleInit providers subscriptions
      end
  end.

Fixpoint onModuleDestroy (subscriptions : list Subscription) : M T unit :=
  match subscriptions with
  | [] => mret tt
  | sub :: subscriptions =>
      subscription_close sub;; onModuleDestroy subscriptions
  end.

End Explorer.

Arguments Instance : clear implicits.
Arguments InstanceWrapper : clear implicits.
End PubSubExplorer.

(* ===================================================================== *)
(** ** pubsub-publisher.service.ts                                        *)
(* ===================================================================== *)

Module PubsubPublisher.
Section Publisher.
Context {T : Type} `{!Runtime T}.

(** The optional third argument of [dispatchEvent]. *)
Record DispatchOptions := {
  attributes : option (gmap string string);
  logPayload : option bool;
}.

(** [this.options], the injected [PUBSUB_MERGED_OPTIONS]. *)
Variable this_options : obj.

Definition getTopic (topicName : string) : M T string :=
  let topic := topicName in
  exists_ ← topic_exists topic;
  (if negb exists_ then
     if truthy (get this_options "autoCreateTopics") then
       logger_warn ("Topic '" +:+ topicName +:+ "' does not exist. Auto-creating...")
         [Arg_string "PubsubPublisher"];;
       topic_create topic;;
       logger_log ("Topic '" +:+ topicName +:+ "' created successfully.")
         [Arg_string "PubsubPublisher"]
     else
       throw (new_Error ("Topic '" +:+ topicName
         +:+ "' does not exist and auto-creation is disabled."))
   else mret tt);;
  mret topic.

(** [Buffer.from(JSON.stringify(data))]; the [Throw] of [JSON_stringify]
    stands for a serializer that throws and for one that yields [undefined],
    on which [Buffer.from] throws. *)
Definition encode (data : T) : completion Buffer :=
  match JSON_stringify data with
  | Normal text => Normal (Buffer_from text)
  | Throw e => Throw e
  end.

Definition dispatchEvent (topicName : string) (data : T)
    (options : option DispatchOptions) : M T string :=
  dataBuffer ← lift (encode data);
  let attributes := default ∅ (options ≫= attributes) in
  let logMetadata :=
    {| lm_topicName := topicName;
       lm_attributes := attributes;
       lm_payloadSize := length dataBuffer;
       lm_payload := None;
       lm_messageId := None |} in
  let logObject :=
    match options ≫= logPayload with
    | Some true =>
        {| lm_topicName := lm_topicName logMetadata;
           lm_attributes := lm_attributes logMetadata;
           lm_payloadSize := lm_payloadSize logMetadata;
           lm_payload := Some data;
           lm_messageId := lm_messageId logMetadata |}
    | _ => logMetadata
    end in
  logger_log "Dispatching event..." [Arg_string "PubsubPublisher"; Arg_meta logObject];;
  try_catch
    (topic ← getTopic topicName;
     messageId ← topic_publishMessage topic dataBuffer attributes;
     logger_log "Event dispatched successfully"
       [Arg_string "PubsubPublisher";
        Arg_meta {| lm_topicName := lm_topicName logObject;
                    lm_attributes := lm_attributes logObject;
                    lm_payloadSize := lm_payloadSize logObject;
                    lm_payload := lm_payload logObject;
                    lm_messageId := Some messageId |}];;
     mret messageId)
    (λ error,
       let normalizedError := normalizeError error in
       logger_error "Failed to dispatch event"
         [Arg_stack (stack normalizedError); Arg_string "PubsubPublisher";
          Arg_meta logObject];;
       throw error).

End Publisher.
End PubsubPublisher.

(* ===================================================================== *)
(** ** The two pubsub.module.ts variants                                  *)
(* ===================================================================== *)

(** [new PubSub(config)]: the client remembers the configuration it was
    constructed with. *)
Inductive PubSub := new_PubSub (config : obj).

(** [new Logger("PubsubModule")] *)
Definition new_Logger (context : string) : jsv := JRef ("Logger(" +:+ context +:+ ")").

(** What [register] hands to the container: the value bound to each
    injection token; the client is built by a factory, which may throw. *)
Record DynamicModule := {
  PUBSUB_MERGED_OPTIONS : obj;
  PUBSUB_LOGGER : jsv;
  PUBSUB_CLIENT : completion PubSub;
}.

(** *** src/pubsub.module.ts (the module of the base-class listeners) *)
Module PubsubModule_base.

(** The [mergedOptions] object of [register]. *)
Definition mergedOptions (options : obj) : obj :=
  <["logger" := js_or (get options "logger") (new_Logger "PubsubModule")]>
    (spread2 {[ "emulatorMode" := JBool false;
                "autoCreateTopics" := JBool false ]}
             options).

(** The [useFactory] of the client provider. *)
Definition pubSubClientProvider (mergedOptions : obj) : completion PubSub :=
  if truthy (get mergedOptions "emulatorMode") then
    Normal (new_PubSub {[ "emulatorMode" := JBool true;
                          "port" := get mergedOptions "port";
                          "projectId" := get mergedOptions "projectId" ]})
  else
    let cloudOptions : obj := {[ "projectId" := get mergedOptions "projectId" ]} in
    let cloudOptions :=
      if has mergedOptions "keyFilename" && truthy (get mergedOptions "keyFilename") then
        <["keyFilename" := get mergedOptions "keyFilename"]> cloudOptions
      else if has mergedOptions "credentials" && truthy (get mergedOptions "credentials") then
        <["credentials" := get mergedOptions "credentials"]> cloudOptions
      else cloudOptions in
    Normal (new_PubSub cloudOptions).

Definition register (options : obj) : DynamicModule :=
  let mergedOptions := mergedOptions options in
  {| PUBSUB_CLIENT := pubSubClientProvider mergedOptions;
     PUBSUB_LOGGER := get mergedOptions "logger";
     PUBSUB_MERGED_OPTIONS := mergedOptions |}.

End PubsubModule_base.

(** *** The pubsub.module.ts of the discovery variant *)
Module PubsubModule_explorer.
Section Module_.
Context {T : Type} `{!Runtime T}.

Definition mergeDefaultOptions (options : obj) : obj :=
  spread2 {[ "emulatorMode" := JBool false;
             "autoCreateTopics" := JBool false ]}
          options.

Definition createClient (options : obj) : completion PubSub :=
  if truthy (get options "emulatorMode") then
    if negb (truthy (get options "port")) then
      Throw (new_Error "PubsubModule: Emulator mode requires a port.")
    else
      match String_of (get options "port") with
      | Normal port =>
          Normal (new_PubSub {[ "projectId" := get options "projectId";
                                "apiEndpoint" := JStr ("localhost:" +:+ port) ]})
      | Throw e => Throw e
      end
  else
    Normal (new_PubSub {[ "projectId" := get options "projectId";
                          "keyFilename" := get options "keyFilename";
                          "credentials" := get options "credentials" ]}).

Definition createLoggerProvider (options : obj) : jsv :=
  js_or (get options "logger") (new_Logger "PubsubModule").

Definition register (options : obj) : DynamicModule :=
  let mergedOptions := mergeDefaultOptions options in
  {| PUBSUB_MERGED_OPTIONS := mergedOptions;
     PUBSUB_LOGGER := createLoggerProvider mergedOptions;
     PUBSUB_CLIENT := createClient mergedOptions |}.

End Module_.
End PubsubModule_explorer.

(** *** registerAsync of the discovery variant *)
Module PubsubModule_async.
Section Async.
Context {T : Type} `{!Runtime T}.

(** What the container hands to a factory for an injection token: some
    service, or a [PubsubOptionsFactory] with the completion of its
    [createPubsubOptions()]. *)
Inductive Injected :=
  | Service (v : jsv)
  | OptionsFactory (createPubsubOptions : completion obj).

Record PubsubModuleAsyncOptions := {
  imports : option (list string);
  useExisting : option string;
  useClass : option string;
  useFactory : option (list Injected → completion obj);
  inject : option (list string);
}.

(** The provider objects [registerAsync] builds: the one bound to
    [PUBSUB_MERGED_OPTIONS] (a factory and its inject list), a class
    provider, the logger and client providers (factories of the merged
    options, which they inject), and the two core services. *)
Inductive Provider :=
  | Options_provider (factory : list Injected → completion obj) (inject : list string)
  | Class_provider (provide : string) (cls : string)
  | Logger_provider (factory : obj → jsv)
  | Client_provider (factory : obj → completion PubSub)
  | Core_provider (cls : string).

Record AsyncModule := {
  module_imports : list string;
  providers : list Provider;
}.

Definition coreProviders : list Provider :=
  [Core_provider "PubsubPublisher"; Core_provider "PubSubExplorer"].

(** [createLoggerProvider()] called without options. *)
Definition createLoggerProvider : Provider :=
  Logger_provider
    (λ config, js_or (get config "logger") (new_Logger "PubsubModule")).

(** [await c], then the rest. *)
Definition await {A B} (c : completion A) (k : A → completion B) : completion B :=
  match c with
  | Normal a => k a
  | Throw e => Throw e
  end.

Definition createAsyncProviders (options : PubsubModuleAsyncOptions)
    : completion (list Provider) :=
  match useFactory options with
  | Some useFactory =>
      Normal
        [Options_provider
           (λ args,
              await (useFactory args) (λ config,
              Normal (PubsubModule_explorer.mergeDefaultOptions config)))
           (default [] (inject options))]
  | None =>
      let injectToken :=
        match useClass options with
        | Some c => Some c
        | None => useExisting options
        end in
      match injectToken with
      | None =>
          Throw (new_Error
            "PubsubModule: Invalid configuration. Provide useFactory, useClass, or useExisting")
      | Some injectToken =>
          let providers :=
            [Options_provider
               (λ args,
                  match args with
                  | OptionsFactory createPubsubOptions :: _ =>
                      await createPubsubOptions (λ config,
                      Normal (PubsubModule_explorer.mergeDefaultOptions config))
                  | _ =>
                      Throw (new_Error "factory.createPubsubOptions is not a function")
                  end)
               [injectToken]] in
          let providers :=
            match useClass options with
            | Some c => providers ++ [Class_provider c c]
            | None => providers
            end in
          Normal providers
      end
  end.

Definition registerAsync (options : PubsubModuleAsyncOptions)
    : completion AsyncModule :=
  await (createAsyncProviders options) (λ asyncProviders,
  Normal
    {| module_imports := default [] (imports options);
       providers :=
         asyncProviders
         ++ [createLoggerProvider;
             Client_provider (λ config, PubsubModule_explorer.createClient config)]
         ++ coreProviders |}).

End Async.
End PubsubModule_async.

(* ===================================================================== *)
(** ** Vocabulary of the properties                                       *)
(* ===================================================================== *)

(** The handler's own [ack()] / [nack()] calls, as they show among the events. *)
Definition by_handler (run : HandlerRun) : list (origin * AckOp) :=
  map (λ o, (ByHandler, o)) (ops run).

(** A payload the serializer accepts and the codec carries unchanged:
    [JSON.stringify] yields a text, the text survives the encoding to bytes
    and back, and [JSON.parse] maps it back to the payload. *)
Definition JSON_representable `{Runtime T} (P : T) : Prop :=
  ∃ text, JSON_stringify P = Normal text ∧
          Buffer_toString (Buffer_from text) = text ∧
          JSON_parse text = Normal P.

(** The thrown value is an [Error] whose message contains the topic name. *)
Definition names_topic (e : thrown) (t : string) : Prop :=
  ∃ pre post st, e = Thrown_Error (pre +:+ t +:+ post) st.

Definition is_throw {A} (c : completion A) : bool :=
  match c with
  | Throw _ => true
  | Normal _ => false
  end.

(** The errors thrown for a missing topic when auto-creation is disabled,
    by the listeners and by the publisher. *)
Definition listener_missing_topic `{Runtime T} (t : string) : thrown :=
  new_Error ("Topic '" +:+ t
    +:+ "' does not exist and auto-creation is disabled. Cannot start listener.").

Definition publisher_missing_topic `{Runtime T} (t : string) : thrown :=
  new_Error ("Topic '" +:+ t +:+ "' does not exist and auto-creation is disabled.").

(** What [dispatchEvent] logs before it resolves the topic. *)
Definition dispatch_logObject {T} (t : string) (data : T) (body : Buffer)
    (options : option PubsubPublisher.DispatchOptions) : LogMeta T :=
  {| lm_topicName := t;
     lm_attributes := default ∅ (options ≫= PubsubPublisher.attributes);
     lm_payloadSize := length body;
     lm_payload := match options ≫= PubsubPublisher.logPayload with
                   | Some true => Some data
                   | _ => None
                   end;
     lm_messageId := None |}.

(** A run that created topic [t] with one create call and returned [a]. *)
Definition topic_created {T A} (r : completion A * Backend * list (Event T))
    (t : string) (a : A) : Prop :=
  result_of r = Normal a ∧
  count is_topic_create (events_of r) = 1%nat ∧
  Call_topic_create t ∈ events_of r ∧
  t ∈ topics (backend_of r).

(** A run that threw [err] to its caller after a single existence check,
    with no create or publish call and the backend as it was. *)
Definition fatal_unretried {T A} (r : completion A * Backend * list (Event T))
    (err : thrown) (b : Backend) : Prop :=
  result_of r = Throw err ∧
  backend_of r = b ∧
  count is_topic_exists (events_of r) = 1%nat ∧
  count is_topic_create (events_of r) = 0%nat ∧
  count is_publish (events_of r) = 0%nat.

(** [options.retryPolicy.minimumBackoff] and [options.retryPolicy.maximumBackoff] *)
Definition retry_min (options : obj) : jsv :=
  opt_get (get options "retryPolicy") "minimumBackoff".
Definition retry_max (options : obj) : jsv :=
  opt_get (get options "retryPolicy") "maximumBackoff".

(** The caller left out [projectId]. *)
Definition projectId_absent (options : obj) : bool :=
  negb (has options "projectId").

(** The configuration is rejected: building the client throws. *)
Definition rejected (m : DynamicModule) : bool := is_throw (PUBSUB_CLIENT m).

(* ===================================================================== *)
(** ** Vocabulary of the further properties                               *)
(* ===================================================================== *)

(** A normalized error as the object it is: [{ message, stack }], the
    [stack] property holding [undefined] when there is none. *)
Definition NormalizedError_object (n : NormalizedError) : jsv :=
  JObj {[ "message" := JStr (message n);
          "stack" := match stack n with
                     | Some st => JStr st
                     | None => JUndefined
                     end ]}.

Section Observations.
Context {T : Type}.

(** A listener registered for the event [name]. *)
Definition is_listen (name : string) (e : Event T) : bool :=
  match e with
  | Call_subscription_on _ n => String.eqb n name
  | _ => false
  end.

Definition is_subscription_exists (e : Event T) : bool :=
  match e with Call_subscription_exists _ => true | _ => false end.

Definition is_error_log (e : Event T) : bool :=
  match e with Call_logger Error _ _ => true | _ => false end.

(** The payloads that logger calls carry in their metadata. *)
Definition logged_payloads (evs : list (Event T)) : list T :=
  evs ≫= λ e,
    match e with
    | Call_logger _ _ params =>
        omap (λ a, match a with
                   | Arg_meta m => lm_payload m
                   | _ => None
                   end) params
    | _ => []
    end.

(** The subscriptions closed among the events, in order. *)
Definition closed (evs : list (Event T)) : list Subscription :=
  omap (λ e, match e with
             | Call_subscription_close s => Some s
             | _ => None
             end) evs.

(** The subscription a listener's metadata names. *)
Definition handle_of (meta : PubSubExplorer.PubSubListenerOptions) : Subscription :=
  {| sub_topic := PubSubExplorer.topicName meta;
     sub_name := PubSubExplorer.subscriptionName meta |}.

(** A provider the explorer sets up: it has an instance and metadata. *)
Definition decorated (w : PubSubExplorer.InstanceWrapper T)
    : option PubSubExplorer.PubSubListenerOptions :=
  match PubSubExplorer.instance w, PubSubExplorer.metadata w with
  | Some _, Some meta => Some meta
  | _, _ => None
  end.

(** The subscriptions of the decorated providers, in discovery order. *)
Definition decorated_handles (providers : list (PubSubExplorer.InstanceWrapper T))
    : list Subscription :=
  omap (λ w, handle_of <$> decorated w) providers.

(** The subscription exists in the backend. *)
Definition subscription_live (s : Subscription) (b : Backend) : Prop :=
  is_Some (subscriptions b !! sub_key s).

(** The topic and subscription of a listener both exist. *)
Definition provisioned_for (s : Subscription) (b : Backend) : Prop :=
  sub_topic s ∈ topics b ∧ subscription_live s b.

End Observations.

(** The subscription-options merge as one expression of the override
    [so]: the override ([{}] when absent) laid over the defaults, and under
    [retryPolicy] the override's retry policy laid over the default one. *)
Definition override_of (so : option obj) : obj := default ∅ so.

Definition retry_override_of (so : option obj) : obj :=
  spread (js_or (opt_get (opt_obj so) "retryPolicy") (JObj ∅)).

Definition default_retry : obj :=
  {[ "minimumBackoff" := JObj {[ "seconds" := JNum 10 ]};
     "maximumBackoff" := JObj {[ "seconds" := JNum 600 ]} ]}.

Definition merged_of (so : option obj) : obj :=
  <["retryPolicy" := JObj (retry_override_of so ∪ default_retry)]>
    (override_of so ∪ default_subscription_options).

(** The backend once topic [t] and subscription [s] are ensured: what is
    missing is added, the subscription with [options]. *)
Definition ensured (s : Subscription) (options : obj) (b : Backend) : Backend :=
  let b1 := if bool_decide (sub_topic s ∈ topics b) then b
            else add_topic (sub_topic s) b in
  if bool_decide (is_Some (subscriptions b1 !! sub_key s)) then b1
  else add_subscription s options b1.

(** The subscription of a base listener. *)
Definition base_handle {T} (this : PubsubBaseListener.Listener T) : Subscription :=
  {| sub_topic := PubsubBaseListener.topicName this;
     sub_name := PubsubBaseListener.subscriptionName this |}.

(** [m] is what either variant merges for the override [so]. *)
Definition merged_by (T : Type) (so : option obj) (m : obj) : Prop :=
  (∃ this : PubsubBaseListener.Listener T,
     PubsubBaseListener.subscriptionOptions this = so ∧
     m = PubsubBaseListener.getMergedSubscriptionOptions this) ∨
  (∃ meta : PubSubExplorer.PubSubListenerOptions,
     PubSubExplorer.subscriptionOptions meta = so ∧
     m = PubSubExplorer.mergedOptions meta).

(** A callback run that is contained: it completes normally and leaves the
    backend as it is; the library never acknowledges, rejects at most once,
    logs an error exactly when it rejects, and the handler runs at most
    once. *)
Definition contained {T} (b : Backend)
    (r : completion unit * Backend * list (Event T)) : Prop :=
  result_of r = Normal tt ∧
  backend_of r = b ∧
  count is_core_ack (events_of r) = 0%nat ∧
  (count is_core_nack (events_of r) ≤ 1)%nat ∧
  count is_error_log (events_of r) = count is_core_nack (events_of r) ∧
  (length (handler_calls (events_of r)) ≤ 1)%nat.

(** What the container binds to the three injection tokens when it resolves
    the providers of an asynchronously registered module: the options
    factory is called with [args], what the container injects for its
    [inject] list, and the merged options it returns are handed to the
    logger and client factories. *)
Definition options_factory (ps : list PubsubModule_async.Provider)
    : option (list PubsubModule_async.Injected → completion obj) :=
  head (omap (λ p, match p with
                   | PubsubModule_async.Options_provider f _ => Some f
                   | _ => None
                   end) ps).

Definition logger_factory (ps : list PubsubModule_async.Provider)
    : option (obj → jsv) :=
  head (omap (λ p, match p with
                   | PubsubModule_async.Logger_provider f => Some f
                   | _ => None
                   end) ps).

Definition client_factory (ps : list PubsubModule_async.Provider)
    : option (obj → completion PubSub) :=
  head (omap (λ p, match p with
                   | PubsubModule_async.Client_provider f => Some f
                   | _ => None
                   end) ps).

Definition resolved (m : PubsubModule_async.AsyncModule)
    (args : list PubsubModule_async.Injected) : option (completion DynamicModule) :=
  f ← options_factory (PubsubModule_async.providers m);
  lg ← logger_factory (PubsubModule_async.providers m);
  cl ← client_factory (PubsubModule_async.providers m);
  Some (PubsubModule_async.await (f args) (λ merged,
        Normal {| PUBSUB_MERGED_OPTIONS := merged;
                  PUBSUB_LOGGER := lg merged;
                  PUBSUB_CLIENT := cl merged |})).

(** What the configured source of an asynchronous registration yields
    when the container calls it with [args]: the [useFactory] function
    applied to them, or else (with [useClass] or [useExisting]) the
    [createPubsubOptions()] of the options factory injected first. *)
Definition source_of (async : PubsubModule_async.PubsubModuleAsyncOptions)
    (args : list PubsubModule_async.Injected) : option (completion obj) :=
  match PubsubModule_async.useFactory async with
  | Some f => Some (f args)
  | None =>
      match PubsubModule_async.useClass async, PubsubModule_async.useExisting async,
            args with
      | None, None, _ => None
      | _, _, PubsubModule_async.OptionsFactory created :: _ => Some created
      | _, _, _ => None
      end
  end.

(** The class providers among the providers. *)
Definition class_providers (ps : list PubsubModule_async.Provider) : list string :=
  omap (λ p, match p with
             | PubsubModule_async.Class_provider c _ => Some c
             | _ => None
             end) ps.

(** The tokens the options factory asks the container to inject. *)
Definition options_inject (ps : list PubsubModule_async.Provider)
    : option (list string) :=
  head (omap (λ p, match p with
                   | PubsubModule_async.Options_provider _ i => Some i
                   | _ => None
                   end) ps).

(** The configuration a client was constructed with. *)
Definition client_config (c : PubSub) : obj :=
  match c with new_PubSub config => config end.

(** The listener with another override of the subscription options. *)
Definition with_subscriptionOptions {T} (this : PubsubBaseListener.Listener T)
    (o : option obj) : PubsubBaseListener.Listener T :=
  {| PubsubBaseListener.topicName := PubsubBaseListener.topicName this;
     PubsubBaseListener.subscriptionName := PubsubBaseListener.subscriptionName this;
     PubsubBaseListener.subscriptionOptions := o;
     PubsubBaseListener.constructor_name := PubsubBaseListener.constructor_name this;
     PubsubBaseListener.handlePayload := PubsubBaseListener.handlePayload this |}.

(* ===================================================================== *)
(** ** A runtime instance: a JSON codec over integers and 8-bit text      *)
(* ===================================================================== *)

(** An instance of the runtime interface on which the model can be run:
    JSON values whose numbers are integers and whose text is 8-bit, the
    serializer writing the compact form and the parser accepting
    insignificant white space. *)
Module MiniJSON.

Inductive json :=
  | J_null
  | J_bool (b : bool)
  | J_number (n : Z)
  | J_string (s : string)
  | J_array (items : list json)
  | J_object (members : list (string * json)).

Definition dquote : ascii := "034"%char.
Definition backslash : ascii := "092"%char.

(** *** Serializer *)

Definition hex_digit (n : N) : ascii :=
  ascii_of_N (if (n <? 10)%N then 48 + n else 87 + n)%N.

Definition escape_char (c : ascii) : string :=
  let n := N_of_ascii c in
  if Ascii.eqb c dquote then String backslash (String dquote "")
  else if Ascii.eqb c backslash then String backslash (String backslash "")
  else if (n =? 8)%N then String backslash "b"
  else if (n =? 12)%N then String backslash "f"
  else if (n =? 10)%N then String backslash "n"
  else if (n =? 13)%N then String backslash "r"
  else if (n =? 9)%N then String backslash "t"
  else if (n <? 32)%N then
    String backslash ("u00" +:+ String (hex_digit (n / 16)) (String (hex_digit (n mod 16)) ""))
  else String c "".

Fixpoint escape (s : string) : string :=
  match s with
  | EmptyString => ""
  | String c r => escape_char c +:+ escape r
  end.

Definition quote (s : string) : string :=
  String dquote (escape s +:+ String dquote "").

Definition print_number (n : Z) : string :=
  match n with
  | Z0 => "0"
  | Zpos p => NilEmpty.string_of_uint (Pos.to_uint p)
  | Zneg p => String "-" (NilEmpty.string_of_uint (Pos.to_uint p))
  end.

Fixpoint join (sep : string) (l : list string) : string :=
  match l with
  | [] => ""
  | [x] => x
  | x :: r => x +:+ sep +:+ join sep r
  end.

Fixpoint stringify (j : json) : string :=
  match j with
  | J_null => "null"
  | J_bool b => if b then "true" else "false"
  | J_number n => print_number n
  | J_string s => quote s
  | J_array items => "[" +:+ join "," (map stringify items) +:+ "]"
  | J_object members =>
      "{" +:+ join "," (map (λ kv, quote kv.1 +:+ ":" +:+ stringify kv.2) members) +:+ "}"
  end.

(** *** Parser *)

Definition is_ws (c : ascii) : bool :=
  let n := N_of_ascii c in
  (n =? 32)%N || (n =? 9)%N || (n =? 10)%N || (n =? 13)%N.

Fixpoint skip_ws (s : string) : string :=
  match s with
  | String c r => if is_ws c then skip_ws r else s
  | EmptyString => s
  end.

Definition is_digit (c : ascii) : bool :=
  let n := N_of_ascii c in (48 <=? n)%N && (n <=? 57)%N.

Fixpoint span_digits (s : string) : string * string :=
  match s with
  | String c r =>
      if is_digit c then let '(d, rest) := span_digits r in (String c d, rest)
      else ("", s)
  | EmptyString => ("", s)
  end.

Definition starts_fraction (s : string) : bool :=
  match s with
  | String c _ => Ascii.eqb c "." || Ascii.eqb c "e" || Ascii.eqb c "E"
  | EmptyString => false
  end.

(** An unsigned integer literal: no leading zero, no fraction or exponent. *)
Definition parse_nat (s : string) : option (N * string) :=
  let '(d, rest) := span_digits s in
  match d with
  | EmptyString => None
  | String c d' =>
      if Ascii.eqb c "0" && negb (String.eqb d' "") then None
      else if starts_fraction rest then None
      else u ← NilEmpty.uint_of_string d; Some (N.of_uint u, rest)
  end.

Definition parse_number (s : string) : option (Z * string) :=
  match s with
  | String "-" r => '(n, rest) ← parse_nat r; Some (- Z.of_N n, rest)
  | _ => '(n, rest) ← parse_nat s; Some (Z.of_N n, rest)
  end.

Definition hex_value (c : ascii) : option N :=
  let n := N_of_ascii c in
  if (48 <=? n)%N && (n <=? 57)%N then Some (n - 48)%N
  else if (97 <=? n)%N && (n <=? 102)%N then Some (n - 87)%N
  else if (65 <=? n)%N && (n <=? 70)%N then Some (n - 55)%N
  else None.

Definition unescape (c : ascii) : option ascii :=
  if Ascii.eqb c dquote then Some dquote
  else if Ascii.eqb c backslash then Some backslash
  else if Ascii.eqb c "/" then Some "/"%char
  else if Ascii.eqb c "b" then Some (ascii_of_N 8)
  else if Ascii.eqb c "f" then Some (ascii_of_N 12)
  else if Ascii.eqb c "n" then Some (ascii_of_N 10)
  else if Ascii.eqb c "r" then Some (ascii_of_N 13)
  else if Ascii.eqb c "t" then Some (ascii_of_N 9)
  else None.

(** The characters of a string literal, after its opening quote. *)
Fixpoint parse_chars (s : string) : option (string * string) :=
  match s with
  | EmptyString => None
  | String c r =>
      if Ascii.eqb c dquote then Some ("", r)
      else if Ascii.eqb c backslash then
        match r with
        | String "u" (String h1 (String h2 (String h3 (String h4 r')))) =>
            a ← hex_value h1; b ← hex_value h2; c ← hex_value h3; d ← hex_value h4;
            if ((a =? 0) && (b =? 0))%N then
              '(str, rest) ← parse_chars r';
              Some (String (ascii_of_N (16 * c + d)) str, rest)
            else None
        | String e r' =>
            x ← unescape e;
            '(str, rest) ← parse_chars r';
            Some (String x str, rest)
        | EmptyString => None
        end
      else if (N_of_ascii c <? 32)%N then None
      else '(str, rest) ← parse_chars r; Some (String c str, rest)
  end.

(** [expect word s]: [s] without its prefix [word]. *)
Fixpoint expect (word : string) (s : string) : option string :=
  match word, s with
  | EmptyString, _ => Some s
  | String w word, String c r => if Ascii.eqb w c then expect word r else None
  | String _ _, EmptyString => None
  end.

(** [peek_is c s]: what follows [c] when [c] is the first character of [s]
    after white space. *)
Definition peek_is (c : ascii) (s : string) : option string :=
  match skip_ws s with
  | String c' r => if Ascii.eqb c' c then Some r else None
  | EmptyString => None
  end.

Fixpoint parse_value (fuel : nat) (s : string) : option (json * string) :=
  match fuel with
  | O => None
  | S fuel =>
      match skip_ws s with
      | EmptyString => None
      | String c r =>
          if Ascii.eqb c "n" then rest ← expect "ull" r; Some (J_null, rest)
          else if Ascii.eqb c "t" then rest ← expect "rue" r; Some (J_bool true, rest)
          else if Ascii.eqb c "f" then rest ← expect "alse" r; Some (J_bool false, rest)
          else if Ascii.eqb c "[" then
            match peek_is "]" r with
            | Some rest => Some (J_array [], rest)
            | None => '(items, rest) ← parse_items fuel r; Some (J_array items, rest)
            end
          else if Ascii.eqb c "{" then
            match peek_is "}" r with
            | Some rest => Some (J_object [], rest)
            | None =>
                '(members, rest) ← parse_members fuel r; Some (J_object members, rest)
            end
          else if Ascii.eqb c dquote then
            '(str, rest) ← parse_chars r; Some (J_string str, rest)
          else '(n, rest) ← parse_number (String c r); Some (J_number n, rest)
      end
  end
with parse_items (fuel : nat) (s : string) : option (list json * string) :=
  match fuel with
  | O => None
  | S fuel =>
      '(v, rest) ← parse_value fuel s;
      match peek_is "," rest with
      | Some rest => '(items, rest) ← parse_items fuel rest; Some (v :: items, rest)
      | None => rest ← peek_is "]" rest; Some ([v], rest)
      end
  end
with parse_members (fuel : nat) (s : string) : option (list (string * json) * string) :=
  match fuel with
  | O => None
  | S fuel =>
      r ← peek_is dquote s;
      '(key, rest) ← parse_chars r;
      rest ← peek_is ":" rest;
      '(v, rest) ← parse_value fuel rest;
      match peek_is "," rest with
      | Some rest =>
          '(members, rest) ← parse_members fuel rest; Some ((key, v) :: members, rest)
      | None => rest ← peek_is "}" rest; Some ([(key, v)], rest)
      end
  end.

Definition parse (text : string) : option json :=
  '(v, rest) ← parse_value (S (String.length text)) text;
  match skip_ws rest with
  | EmptyString => Some v
  | _ => None
  end.

(** *** Vocabulary of the round trip *)

(** What may follow a value in a serialized text: nothing, or one of the
    three delimiters. *)
Definition delimiter (c : ascii) : bool :=
  Ascii.eqb c "," || Ascii.eqb c "]" || Ascii.eqb c "}".

Definition delimited (rest : string) : Prop :=
  match rest with
  | EmptyString => True
  | String c _ => delimiter c = true
  end.

(** The fuel a value needs: one unit per value and per element. *)
Fixpoint size (v : json) : nat :=
  match v with
  | J_array items => S (list_sum (map (λ x, S (size x)) items))
  | J_object members => S (list_sum (map (λ kv, S (size kv.2)) members))
  | _ => 1
  end.

(** Induction on JSON values, with the hypothesis on every element. *)
Fixpoint json_induction (P : json → Prop)
    (Hnull : P J_null) (Hbool : ∀ b, P (J_bool b)) (Hnumber : ∀ n, P (J_number n))
    (Hstring : ∀ s, P (J_string s))
    (Harray : ∀ items, Forall P items → P (J_array items))
    (Hobject : ∀ members, Forall (λ kv, P kv.2) members → P (J_object members))
    (v : json) : P v :=
  let IH := json_induction P Hnull Hbool Hnumber Hstring Harray Hobject in
  match v with
  | J_null => Hnull
  | J_bool b => Hbool b
  | J_number n => Hnumber n
  | J_string s => Hstring s
  | J_array items =>
      Harray items
        ((fix go (l : list json) : Forall P l :=
            match l return Forall P l with
            | [] => List.Forall_nil P
            | x :: r => List.Forall_cons P x r (IH x) (go r)
            end) items)
  | J_object members =>
      Hobject members
        ((fix go (l : list (string * json)) : Forall (λ kv, P kv.2) l :=
            match l return Forall (λ kv, P kv.2) l with
            | [] => List.Forall_nil _
            | kv :: r => List.Forall_cons (λ kv, P kv.2) kv r (IH kv.2) (go r)
            end) members)
  end.

(** The first character of a serialized value starts a value: it is not
    white space and closes neither an array nor an object. *)
Definition opens_value (s : string) : Prop :=
  ∃ c r, s = String c r ∧ is_ws c = false ∧
         Ascii.eqb c "]" = false ∧ Ascii.eqb c "}" = false.

Definition items_size (items : list json) : nat :=
  list_sum (map (λ x, S (size x)) items).
Definition members_size (members : list (string * json)) : nat :=
  list_sum (map (λ kv, S (size kv.2)) members).

(** A value is parsed back from its serialization, whatever delimiter
    follows, given fuel for its size. *)
Definition parses_back (v : json) : Prop :=
  ∀ fuel rest, (size v ≤ fuel)%nat → delimited rest →
    parse_value fuel (stringify v +:+ rest) = Some (v, rest).

Definition member_text (kv : string * json) : string :=
  quote kv.1 +:+ ":" +:+ stringify kv.2.

(** An options object as a JSON value (properties holding [undefined]
    are omitted, as the serializer does), down to a nesting depth. *)
Fixpoint of_jsv (depth : nat) (v : jsv) : json :=
  match depth with
  | O => J_null
  | S depth =>
      match v with
      | JUndefined | JNull => J_null
      | JBool b => J_bool b
      | JNum n => J_number n
      | JStr s => J_string s
      | JRef _ => J_object []
      | JObj m =>
          J_object
            (omap (λ kv, match kv.2 with
                         | JUndefined => None
                         | v => Some (kv.1, of_jsv depth v)
                         end)
                  (map_to_list m))
      end
  end.

Definition syntax_error (text : string) : thrown :=
  Thrown_Error "Unexpected token in JSON"
    (Some ("SyntaxError: Unexpected token in JSON" +:+ text)).

#[global] Instance runtime : Runtime json := {|
  JSON_parse text :=
    match parse text with
    | Some v => Normal v
    | None => Throw (syntax_error text)
    end;
  JSON_stringify v := Normal (stringify v);
  JSON_stringify_object o := stringify (of_jsv 8 (JObj o));
  Buffer_from := String.list_byte_of_string;
  Buffer_toString := String.string_of_list_byte;
  host_toString name := Normal ("[object " +:+ name +:+ "]");
  Error_stack msg := "Error: " +:+ msg;
|}.

End MiniJSON.

(* ===================================================================== *)
(** ** Fixtures: the inputs of the repository's tests and of the spec's
       scenarios, over the JSON instance                                  *)
(* ===================================================================== *)

Module Fixtures.
Import MiniJSON.

Definition in_quotes (s : string) : string :=
  String dquote (s +:+ String dquote EmptyString).

Definition message_of (mid text : string) : Message :=
  {| message_id := mid; data := Buffer_from text; msg_attributes := ∅ |}.

(** [Buffer.from('{ "this is not valid json" }')] *)
Definition malformed : Message :=
  message_of "msg-2" ("{ " +:+ in_quotes "this is not valid json" +:+ " }").

(** [{ hello: 'world' }] and the message carrying it *)
Definition hello_world : json := J_object [("hello", J_string "world")].
Definition hello : Message := message_of "msg-1" (stringify hello_world).

(** A handler that acknowledges and resolves. *)
Definition acking (payload : json) (m : Message) : HandlerRun :=
  {| ops := [Ack]; outcome := Normal tt |}.

(** A handler that rejects with a business error. *)
Definition businessError : thrown :=
  new_Error "Something went wrong in the business logic".
Definition rejecting (payload : json) (m : Message) : HandlerRun :=
  {| ops := []; outcome := Throw businessError |}.

Definition TestListener (h : json → Message → HandlerRun)
    (subscriptionOptions : option obj) : PubsubBaseListener.Listener json :=
  {| PubsubBaseListener.topicName := "test-topic";
     PubsubBaseListener.subscriptionName := "test-sub";
     PubsubBaseListener.subscriptionOptions := subscriptionOptions;
     PubsubBaseListener.constructor_name := "TestListener";
     PubsubBaseListener.handlePayload := h |}.

Definition test_instance (h : json → Message → HandlerRun)
    : PubSubExplorer.Instance json :=
  {| PubSubExplorer.constructor_name := "TestListener";
     PubSubExplorer.handle := Some h |}.

Definition test_meta (topic : string) (subscriptionOptions : option obj)
    : PubSubExplorer.PubSubListenerOptions :=
  {| PubSubExplorer.topicName := topic;
     PubSubExplorer.subscriptionName := "test-sub";
     PubSubExplorer.subscriptionOptions := subscriptionOptions |}.

(** A backend that answers every publish request with the same id. *)
Definition backend (topics : gset string)
    (subscriptions : gmap (string * string) obj) : Backend :=
  {| topics := topics;
     subscriptions := subscriptions;
     published := [];
     publish_reply := λ _ _ _, Normal "message-123" |}.

(** A backend on which every publish request fails. *)
Definition publishing_failed : thrown := new_Error "Publishing failed".
Definition failing_backend (topics : gset string) : Backend :=
  {| topics := topics;
     subscriptions := ∅;
     published := [];
     publish_reply := λ _ _ _, Throw publishing_failed |}.

(** The subscription ["test-sub"] exists with an ack deadline of 30 seconds,
    and the listener asks for 300. *)
Definition live_options : obj := {[ "ackDeadlineSeconds" := JNum 30 ]}.
Definition wanted_options : obj := {[ "ackDeadlineSeconds" := JNum 300 ]}.
Definition provisioned : Backend :=
  backend {[ "test-topic" ]} {[ ("test-topic", "test-sub") := live_options ]}.

(** [{ retryPolicy: { minimumBackoff: { seconds: 5 } } }] *)
Definition min_backoff_5 : obj :=
  {[ "retryPolicy" := JObj {[ "minimumBackoff" := JObj {[ "seconds" := JNum 5 ]} ]} ]}.

(** [{ id: 1 }] *)
Definition order : json := J_object [("id", J_number 1)].

(** The listener of the readme, on topic ["user.created"]. *)
Definition UserCreatedListener : PubsubBaseListener.Listener json :=
  {| PubsubBaseListener.topicName := "user.created";
     PubsubBaseListener.subscriptionName := "notification-service.user.created";
     PubsubBaseListener.subscriptionOptions := None;
     PubsubBaseListener.constructor_name := "UserCreatedListener";
     PubsubBaseListener.handlePayload := acking |}.

Definition auto_create (flag : bool) : obj :=
  {[ "projectId" := JStr "test-project"; "autoCreateTopics" := JBool flag ]}.

(** Module options: none at all; emulator mode without a port; a project
    id and nothing else. *)
Definition no_options : obj := ∅.
Definition emulator_only : obj :=
  {[ "projectId" := JStr "my-project-id"; "emulatorMode" := JBool true ]}.
Definition project_only : obj := {[ "projectId" := JStr "my-project-id" ]}.

End Fixtures.

(** Further inputs: payloads that may be cyclic, providers as the discovery
    service yields them, and module configurations. *)
Module Scenarios.
Import MiniJSON Fixtures.

(** A payload is a JSON value or an object that refers to itself, which
    [JSON.stringify] refuses. *)
Inductive payload :=
  | Plain (v : json)
  | Circular.

Definition circular_structure : thrown :=
  Thrown_Error "Converting circular structure to JSON"
    (Some "TypeError: Converting circular structure to JSON").

#[global] Instance cyclic_runtime : Runtime payload := {|
  JSON_parse text :=
    match parse text with
    | Some v => Normal (Plain v)
    | None => Throw (syntax_error text)
    end;
  JSON_stringify p :=
    match p with
    | Plain v => Normal (stringify v)
    | Circular => Throw circular_structure
    end;
  JSON_stringify_object o := stringify (of_jsv 8 (JObj o));
  Buffer_from := String.list_byte_of_string;
  Buffer_toString := String.string_of_list_byte;
  host_toString name := Normal ("[object " +:+ name +:+ "]");
  Error_stack msg := "Error: " +:+ msg;
|}.

(** A decorated class without a [handle] method. *)
Definition bare_instance : PubSubExplorer.Instance json :=
  {| PubSubExplorer.constructor_name := "BareListener";
     PubSubExplorer.handle := None |}.

(** Providers: a service without listener metadata, a decorated provider
    that is not instantiated, and a listener on [topic]. *)
Definition plain_service : PubSubExplorer.InstanceWrapper json :=
  {| PubSubExplorer.instance := Some (test_instance acking);
     PubSubExplorer.metadata := None |}.
Definition pending_provider : PubSubExplorer.InstanceWrapper json :=
  {| PubSubExplorer.instance := None;
     PubSubExplorer.metadata := Some (test_meta "orders" None) |}.
Definition listener_on (topic : string) : PubSubExplorer.InstanceWrapper json :=
  {| PubSubExplorer.instance := Some (test_instance acking);
     PubSubExplorer.metadata := Some (test_meta topic None) |}.

(** Module options: the emulator on port 8085 with a key file configured,
    and a cloud configuration with a key file and credentials. *)
Definition emulator_with_key : obj :=
  {[ "projectId" := JStr "my-project-id"; "emulatorMode" := JBool true;
     "port" := JNum 8085; "keyFilename" := JStr "key.json" ]}.
Definition cloud_with_both : obj :=
  {[ "projectId" := JStr "my-project-id"; "keyFilename" := JStr "key.json";
     "credentials" := JObj {[ "client_email" := JStr "svc@my-project-id" ]} ]}.

(** [registerAsync] with a factory (and a class that is then ignored), and
    with an options factory class. *)
Definition factory_options : PubsubModule_async.PubsubModuleAsyncOptions :=
  {| PubsubModule_async.imports := Some ["ConfigModule"];
     PubsubModule_async.useExisting := None;
     PubsubModule_async.useClass := Some "PubsubConfigService";
     PubsubModule_async.useFactory := Some (λ _, Normal project_only);
     PubsubModule_async.inject := Some ["ConfigService"] |}.
Definition class_options : PubsubModule_async.PubsubModuleAsyncOptions :=
  {| PubsubModule_async.imports := None;
     PubsubModule_async.useExisting := None;
     PubsubModule_async.useClass := Some "PubsubConfigService";
     PubsubModule_async.useFactory := None;
     PubsubModule_async.inject := None |}.

End Scenarios.

(* ===================================================================== *)
(** * Properties                                                          *)
(* ===================================================================== *)

(** Unfolds the sequencing operators of [M]. *)
Ltac unfold_M :=
  unfold mbind, M_bind, mret, M_ret, bind, ret, try_catch, lift, throw,
    logger_log, logger_warn, logger_error, message_nack,
    subscription_on, subscription_close, emit, invoke in *.

Section Dispatch.
Context {T : Type} `{!Runtime T}.

Implicit Types (msg : Message) (b : Backend) (payload : T) (e : thrown).

Lemma ack_calls_ack_event msg (l : list AckOp) :
  ack_calls (T := T) (map (ack_event msg) l) = map (λ o, (ByHandler, o)) l.
Proof.
  induction l as [|o l IH]; [done|].
  destruct o; simpl; unfold ack_calls in *; simpl; by rewrite IH.
Qed.

Lemma handler_calls_ack_event msg (l : list AckOp) :
  handler_calls (T := T) (map (ack_event msg) l) = [].
Proof.
  induction l as [|o l IH]; [done|].
  destruct o; simpl; unfold handler_calls in *; simpl; by rewrite IH.
Qed.

Lemma ack_calls_app (l1 l2 : list (Event T)) :
  ack_calls (l1 ++ l2) = ack_calls l1 ++ ack_calls l2.
Proof. unfold ack_calls. apply omap_app. Qed.

Lemma handler_calls_app (l1 l2 : list (Event T)) :
  handler_calls (l1 ++ l2) = handler_calls l1 ++ handler_calls l2.
Proof. unfold handler_calls. apply omap_app. Qed.

(** *** The base-class listener *)

(** [onMessage] with a payload that does not parse. *)
Lemma base_onMessage_parse_failure this msg e b :
  PubsubBaseListener.parsePayload (data msg) = Throw e →
  PubsubBaseListener.onMessage this msg b =
    (Normal tt, b,
     [Call_logger Error
        "Failed to parse Pub/Sub message data. Message will be nacked."
        [Arg_stack (stack (normalizeError e));
         Arg_string (PubsubBaseListener.constructor_name this)];
      Call_nack ByCore msg]).
Proof.
  intros Hparse. unfold PubsubBaseListener.onMessage. unfold_M.
  by rewrite Hparse.
Qed.

(** [onMessage] with a payload that parses: the handler runs, and a
    failure of the handler is answered by one [nack()]. *)
Lemma base_onMessage_parsed this msg payload b :
  PubsubBaseListener.parsePayload (data msg) = Normal payload →
  let run := PubsubBaseListener.handlePayload this payload msg in
  PubsubBaseListener.onMessage this msg b =
    (Normal tt, b,
     Call_handler payload msg :: map (ack_event msg) (ops run) ++
     match outcome run with
     | Normal _ => []
     | Throw e =>
         [Call_logger Error
            ("Error handling message: " +:+ message (normalizeError e))
            [Arg_stack (stack (normalizeError e));
             Arg_string (PubsubBaseListener.constructor_name this)];
          Call_nack ByCore msg]
     end).
Proof.
  intros Hparse run. unfold PubsubBaseListener.onMessage. unfold_M.
  rewrite Hparse. simpl. fold run.
  destruct (outcome run) as [[]|e]; simpl; by rewrite ?app_nil_r.
Qed.

(** [onMessage] never throws, so the [catch] of the registered closure is
    never entered and cannot add a second [nack()]. *)
Lemma base_onMessage_never_throws this msg b :
  result_of (PubsubBaseListener.onMessage this msg b) = Normal tt.
Proof.
  destruct (PubsubBaseListener.parsePayload (data msg)) as [payload|e] eqn:Hparse.
  - by rewrite (base_onMessage_parsed _ _ _ _ Hparse).
  - by rewrite (base_onMessage_parse_failure _ _ _ _ Hparse).
Qed.

Lemma base_message_callback_onMessage this msg b :
  PubsubBaseListener.message_callback this msg b =
  PubsubBaseListener.onMessage this msg b.
Proof.
  pose proof (base_onMessage_never_throws this msg b) as Hok.
  unfold PubsubBaseListener.message_callback, try_catch.
  destruct (PubsubBaseListener.onMessage this msg b) as [[[[]|e] b'] evs];
    simpl in *; [done | discriminate].
Qed.

(** *** The discovery listener *)

Lemma explorer_callback_parse_failure inst msg e b :
  JSON_parse (Buffer_toString (data msg)) = Throw e →
  PubSubExplorer.message_callback inst msg b =
    (Normal tt, b,
     [Call_logger Error
        ("Handler " +:+ PubSubExplorer.constructor_name inst +:+ " failed: "
         +:+ message (normalizeError e))
        [Arg_stack (stack (normalizeError e)); Arg_string "PubSubExplorer"];
      Call_nack ByCore msg]).
Proof.
  intros Hparse. unfold PubSubExplorer.message_callback. unfold_M.
  by rewrite Hparse.
Qed.

Lemma explorer_callback_parsed inst h msg payload b :
  JSON_parse (Buffer_toString (data msg)) = Normal payload →
  PubSubExplorer.handle inst = Some h →
  let run := h payload msg in
  PubSubExplorer.message_callback inst msg b =
    (Normal tt, b,
     Call_handler payload msg :: map (ack_event msg) (ops run) ++
     match outcome run with
     | Normal _ => []
     | Throw e =>
         [Call_logger Error
            ("Handler " +:+ PubSubExplorer.constructor_name inst +:+ " failed: "
             +:+ message (normalizeError e))
            [Arg_stack (stack (normalizeError e)); Arg_string "PubSubExplorer"];
          Call_nack ByCore msg]
     end).
Proof.
  intros Hparse Hh run.
  unfold PubSubExplorer.message_callback, PubSubExplorer.call_handle. unfold_M.
  rewrite Hparse, Hh. simpl. fold run.
  destruct (outcome run) as [[]|e]; simpl; by rewrite ?app_nil_r.
Qed.

(** An instance without a [handle] method: the call throws a [TypeError]
    before any user code runs, and the message is nacked. *)
Lemma explorer_callback_no_handle inst msg payload b :
  JSON_parse (Buffer_toString (data msg)) = Normal payload →
  PubSubExplorer.handle inst = None →
  result_of (PubSubExplorer.message_callback inst msg b) = Normal tt ∧
  handler_calls (events_of (PubSubExplorer.message_callback inst msg b)) = [] ∧
  ack_calls (events_of (PubSubExplorer.message_callback inst msg b)) = [(ByCore, Nack)].
Proof.
  intros Hparse Hh.
  unfold PubSubExplorer.message_callback, PubSubExplorer.call_handle. unfold_M.
  by rewrite Hparse, Hh.
Qed.

(** C1. A message whose body does not parse: in both listener variants the
    callback completes normally, the handler is not invoked, and the only
    call on the message handle is one [nack()] (so no [ack()]). *)
Theorem malformed_payload_is_nacked_once
    (this : PubsubBaseListener.Listener T) (inst : PubSubExplorer.Instance T)
    msg e b :
  JSON_parse (Buffer_toString (data msg)) = Throw e →
  let base := PubsubBaseListener.message_callback this msg b in
  let explorer := PubSubExplorer.message_callback inst msg b in
  (result_of base = Normal tt ∧
   handler_calls (events_of base) = [] ∧
   ack_calls (events_of base) = [(ByCore, Nack)]) ∧
  (result_of explorer = Normal tt ∧
   handler_calls (events_of explorer) = [] ∧
   ack_calls (events_of explorer) = [(ByCore, Nack)]).
Proof.
  intros Hparse base explorer. subst base explorer. split.
  - rewrite base_message_callback_onMessage.
    by rewrite (base_onMessage_parse_failure this msg e b Hparse).
  - by rewrite (explorer_callback_parse_failure inst msg e b Hparse).
Qed.

Lemma count_app (p : Event T → bool) (l1 l2 : list (Event T)) :
  count p (l1 ++ l2) = (count p l1 + count p l2)%nat.
Proof. unfold count. by rewrite filter_app, length_app. Qed.

Lemma count_core_ack_handler_events msg (l : list AckOp) :
  count (T := T) is_core_ack (map (ack_event msg) l) = 0%nat.
Proof.
  induction l as [|o l IH]; [done|].
  destruct o; unfold count in *; simpl;
    rewrite filter_cons_False; simpl; auto; discriminate.
Qed.

Lemma count_core_nack_handler_events msg (l : list AckOp) :
  count (T := T) is_core_nack (map (ack_event msg) l) = 0%nat.
Proof.
  induction l as [|o l IH]; [done|].
  destruct o; unfold count in *; simpl;
    rewrite filter_cons_False; simpl; auto; discriminate.
Qed.

(** What the callback does after a successful parse, read off its events:
    the handler is invoked once, and the library adds one [nack()] exactly
    when the handler fails. *)
Lemma dispatch_shape msg payload (run : HandlerRun) (tail : list (Event T)) :
  ack_calls tail = match outcome run with
                   | Normal _ => []
                   | Throw _ => [(ByCore, Nack)]
                   end →
  handler_calls tail = [] →
  count is_core_ack tail = 0%nat →
  count is_core_nack tail = match outcome run with
                            | Normal _ => 0%nat
                            | Throw _ => 1%nat
                            end →
  let evs := Call_handler payload msg :: map (ack_event msg) (ops run) ++ tail in
  handler_calls evs = [(payload, msg)] ∧
  ack_calls evs = by_handler run ++ match outcome run with
                                    | Normal _ => []
                                    | Throw _ => [(ByCore, Nack)]
                                    end ∧
  count is_core_ack evs = 0%nat ∧
  count is_core_nack evs = match outcome run with
                           | Normal _ => 0%nat
                           | Throw _ => 1%nat
                           end.
Proof.
  intros Hack Hcalls Hcore_ack Hcore_nack evs. subst evs.
  change (Call_handler payload msg :: ?l) with ([Call_handler payload msg] ++ l).
  rewrite !handler_calls_app, !ack_calls_app, !count_app.
  rewrite handler_calls_ack_event, ack_calls_ack_event.
  rewrite count_core_ack_handler_events, count_core_nack_handler_events.
  rewrite Hack, Hcalls, Hcore_ack, Hcore_nack. done.
Qed.

(** The events of either callback after a successful parse. *)
Lemma dispatch_after_parse
    (this : PubsubBaseListener.Listener T) (inst : PubSubExplorer.Instance T)
    (h : T → Message → HandlerRun) msg payload b :
  JSON_parse (Buffer_toString (data msg)) = Normal payload →
  PubsubBaseListener.handlePayload this = h →
  PubSubExplorer.handle inst = Some h →
  ∀ r, r = PubsubBaseListener.message_callback this msg b ∨
       r = PubSubExplorer.message_callback inst msg b →
  result_of r = Normal tt ∧
  backend_of r = b ∧
  handler_calls (events_of r) = [(payload, msg)] ∧
  ack_calls (events_of r) =
    by_handler (h payload msg) ++ match outcome (h payload msg) with
                                  | Normal _ => []
                                  | Throw _ => [(ByCore, Nack)]
                                  end ∧
  count is_core_ack (events_of r) = 0%nat ∧
  count is_core_nack (events_of r) = match outcome (h payload msg) with
                                     | Normal _ => 0%nat
                                     | Throw _ => 1%nat
                                     end.
Proof.
  intros Hparse Hbase Hexp r [-> | ->].
  - rewrite base_message_callback_onMessage.
    rewrite (base_onMessage_parsed this msg payload b Hparse). rewrite Hbase.
    unfold result_of, backend_of, events_of; simpl. do 2 (split; [done|]).
    apply dispatch_shape; by destruct (outcome (h payload msg)).
  - rewrite (explorer_callback_parsed inst h msg payload b Hparse Hexp).
    unfold result_of, backend_of, events_of; simpl. do 2 (split; [done|]).
    apply dispatch_shape; by destruct (outcome (h payload msg)).
Qed.

(** C2. A message whose body parses and whose handler throws or rejects:
    in both variants the callback completes normally (the failure is not
    propagated), the handler was invoked once with the parsed payload, and
    the calls on the message handle are the handler's own followed by
    exactly one [nack()] of the library, which never calls [ack()]. *)
Theorem handler_failure_is_nacked_once
    (this : PubsubBaseListener.Listener T) (inst : PubSubExplorer.Instance T)
    (h : T → Message → HandlerRun) msg payload e b :
  JSON_parse (Buffer_toString (data msg)) = Normal payload →
  PubsubBaseListener.handlePayload this = h →
  PubSubExplorer.handle inst = Some h →
  outcome (h payload msg) = Throw e →
  ∀ r, r = PubsubBaseListener.message_callback this msg b ∨
       r = PubSubExplorer.message_callback inst msg b →
  result_of r = Normal tt ∧
  handler_calls (events_of r) = [(payload, msg)] ∧
  ack_calls (events_of r) = by_handler (h payload msg) ++ [(ByCore, Nack)] ∧
  count is_core_nack (events_of r) = 1%nat ∧
  count is_core_ack (events_of r) = 0%nat.
Proof.
  intros Hparse Hbase Hexp Hthrow r Hr.
  destruct (dispatch_after_parse this inst h msg payload b Hparse Hbase Hexp r Hr)
    as (Hres & _ & Hcalls & Hacks & Hcore_ack & Hcore_nack).
  rewrite Hthrow in Hacks, Hcore_nack. done.
Qed.

(** C3. A message whose body parses and whose handler completes without
    raising: in both variants the library itself calls neither [ack()] nor
    [nack()]; the calls on the message handle are exactly the handler's
    own. *)
Theorem handler_success_no_implicit_ack
    (this : PubsubBaseListener.Listener T) (inst : PubSubExplorer.Instance T)
    (h : T → Message → HandlerRun) msg payload b :
  JSON_parse (Buffer_toString (data msg)) = Normal payload →
  PubsubBaseListener.handlePayload this = h →
  PubSubExplorer.handle inst = Some h →
  outcome (h payload msg) = Normal tt →
  ∀ r, r = PubsubBaseListener.message_callback this msg b ∨
       r = PubSubExplorer.message_callback inst msg b →
  result_of r = Normal tt ∧
  events_of r = Call_handler payload msg :: map (ack_event msg) (ops (h payload msg)) ∧
  ack_calls (events_of r) = by_handler (h payload msg) ∧
  count is_core_ack (events_of r) = 0%nat ∧
  count is_core_nack (events_of r) = 0%nat.
Proof.
  intros Hparse Hbase Hexp Hok r Hr.
  destruct (dispatch_after_parse this inst h msg payload b Hparse Hbase Hexp r Hr)
    as (Hres & _ & Hcalls & Hacks & Hcore_ack & Hcore_nack).
  rewrite Hok in Hacks, Hcore_nack. rewrite app_nil_r in Hacks.
  repeat split; try done.
  destruct Hr as [-> | ->].
  - rewrite base_message_callback_onMessage.
    rewrite (base_onMessage_parsed this msg payload b Hparse), Hbase, Hok.
    unfold events_of; simpl. by rewrite app_nil_r.
  - rewrite (explorer_callback_parsed inst h msg payload b Hparse Hexp), Hok.
    unfold events_of; simpl. by rewrite app_nil_r.
Qed.

(** The listener's decoding undoes the publisher's encoding. *)
Lemma decode_encode (P : T) (body : Buffer) :
  JSON_representable P →
  PubsubPublisher.encode P = Normal body →
  PubsubBaseListener.parsePayload body = Normal P.
Proof.
  intros (text & Hs & Hbuf & Hp) Henc.
  unfold PubsubPublisher.encode in Henc. rewrite Hs in Henc.
  injection Henc as <-.
  unfold PubsubBaseListener.parsePayload. by rewrite Hbuf.
Qed.

(** C4. For a JSON-representable payload [P], a message whose body is the
    publisher's encoding of [P] makes the callback of either variant invoke
    the handler exactly once, with [P] as first argument and the raw
    message as second. *)
Theorem published_payload_reaches_handler
    (this : PubsubBaseListener.Listener T) (inst : PubSubExplorer.Instance T)
    (h : T → Message → HandlerRun) (P : T) msg b :
  JSON_representable P →
  PubsubPublisher.encode P = Normal (data msg) →
  PubsubBaseListener.handlePayload this = h →
  PubSubExplorer.handle inst = Some h →
  handler_calls (events_of (PubsubBaseListener.message_callback this msg b))
    = [(P, msg)] ∧
  handler_calls (events_of (PubSubExplorer.message_callback inst msg b))
    = [(P, msg)].
Proof.
  intros Hrep Henc Hbase Hexp.
  pose proof (decode_encode P (data msg) Hrep Henc) as Hparse.
  unfold PubsubBaseListener.parsePayload in Hparse.
  split.
  - by apply (dispatch_after_parse this inst h msg P b Hparse Hbase Hexp); left.
  - by apply (dispatch_after_parse this inst h msg P b Hparse Hbase Hexp); right.
Qed.

End Dispatch.

Section Provisioning.
Context {T : Type} `{!Runtime T}.

Implicit Types (b : Backend) (t name : string) (this_options : obj).

Ltac unfold_backend :=
  unfold topic_exists, topic_create, subscription_exists, subscription_create,
    topic_publishMessage in *.

(** *** Subscriptions that already exist *)

Lemma explorer_existing_subscription t (meta : PubSubExplorer.PubSubListenerOptions)
    b (live : obj) :
  subscriptions b !! (t, PubSubExplorer.subscriptionName meta) = Some live →
  PubSubExplorer.getOrCreateSubscription (T := T) t meta b =
    (Normal {| sub_topic := t; sub_name := PubSubExplorer.subscriptionName meta |},
     b,
     [Call_subscription_exists
        {| sub_topic := t; sub_name := PubSubExplorer.subscriptionName meta |}]).
Proof.
  intros Hlive. unfold PubSubExplorer.getOrCreateSubscription.
  unfold_M. unfold_backend. unfold sub_key. simpl.
  rewrite Hlive. rewrite bool_decide_eq_true_2 by eauto. done.
Qed.

(** The three ways [onModuleInit] of the base listener can go when the
    subscription exists, by the state of the topic. *)
Lemma base_existing_subscription this_options (this : PubsubBaseListener.Listener T)
    b (live : obj) :
  let t := PubsubBaseListener.topicName this in
  let s := {| sub_topic := t; sub_name := PubsubBaseListener.subscriptionName this |} in
  subscriptions b !! sub_key s = Some live →
  let r := PubsubBaseListener.onModuleInit this_options this b in
  count is_subscription_create (events_of r) = 0%nat ∧
  subscriptions (backend_of r) = subscriptions b ∧
  (t ∈ topics b → result_of r = Normal tt ∧ backend_of r = b) ∧
  (result_of r = Normal tt → Call_subscription_on s "message" ∈ events_of r).
Proof.
  intros t s Hlive r. subst r.
  unfold PubsubBaseListener.onModuleInit, PubsubBaseListener.listenForMessages.
  unfold_M. unfold_backend. simpl. fold t.
  destruct (decide (t ∈ topics b)) as [Hin | Hout].
  - rewrite (bool_decide_eq_true_2 _ Hin). simpl. fold s.
    rewrite Hlive. rewrite bool_decide_eq_true_2 by eauto. simpl.
    unfold count, result_of, backend_of, events_of; simpl.
    repeat split; try done. intros _. set_solver.
  - rewrite (bool_decide_eq_false_2 _ Hout). simpl.
    destruct (truthy (get this_options "autoCreateTopics")); simpl.
    + rewrite (bool_decide_eq_false_2 _ Hout). simpl. fold s.
      rewrite Hlive. rewrite bool_decide_eq_true_2 by eauto. simpl.
      unfold count, result_of, backend_of, events_of; simpl.
      repeat split; try done. intros _. set_solver.
    + unfold count, result_of, backend_of, events_of; simpl.
      repeat split; try done.
Qed.

(** C5. When the subscription already exists, provisioning performs no
    creation call, yields the handle of that subscription, and leaves the
    backend (so the options of the live subscription) as it was, whatever
    the listener's subscription options are; running it again does the
    same.  For the base listener, whose [onModuleInit] provisions topic and
    subscription in one method, the handle is the one the message callback
    is attached to. *)
Theorem existing_subscription_is_never_recreated
    this_options t name b (live : obj)
    (meta : PubSubExplorer.PubSubListenerOptions)
    (this : PubsubBaseListener.Listener T) :
  let s := {| sub_topic := t; sub_name := name |} in
  subscriptions b !! (t, name) = Some live →
  PubSubExplorer.subscriptionName meta = name →
  PubsubBaseListener.topicName this = t →
  PubsubBaseListener.subscriptionName this = name →
  let explorer := PubSubExplorer.getOrCreateSubscription (T := T) t meta b in
  let base := PubsubBaseListener.onModuleInit this_options this b in
  (result_of explorer = Normal s ∧
   count is_subscription_create (events_of explorer) = 0%nat ∧
   backend_of explorer = b ∧
   PubSubExplorer.getOrCreateSubscription t meta (backend_of explorer) = explorer) ∧
  (count is_subscription_create (events_of base) = 0%nat ∧
   subscriptions (backend_of base) !! (t, name) = Some live ∧
   (result_of base = Normal tt → Call_subscription_on s "message" ∈ events_of base) ∧
   count is_subscription_create
     (events_of (PubsubBaseListener.onModuleInit this_options this (backend_of base)))
     = 0%nat).
Proof.
  intros s Hlive Hmeta Htopic Hname explorer base. subst explorer base s.
  subst name t. split.
  - rewrite (explorer_existing_subscription _ meta b live Hlive).
    unfold result_of, backend_of, events_of; simpl.
    by rewrite (explorer_existing_subscription _ meta b live Hlive).
  - destruct (base_existing_subscription this_options this b live) as (Hc & Hs & _ & Hon).
    { unfold sub_key; simpl. by rewrite Hname. }
    rewrite Hname in Hon. split; [done|]. split; [by rewrite Hs|]. split; [done|].
    apply (base_existing_subscription this_options this _ live).
    unfold sub_key; simpl. by rewrite Hs, Hname.
Qed.

(** *** Missing topics *)

Lemma lift_Normal_bind {A B} (a : A) (k : A → M T B) b :
  (lift (Normal a) ≫= k) b = k a b.
Proof. unfold_M. by destruct (k a b) as [[? ?] ?]. Qed.

Lemma explorer_missing_topic_created this_options
    (meta : PubSubExplorer.PubSubListenerOptions) b :
  let t := PubSubExplorer.topicName meta in
  t ∉ topics b →
  truthy (get this_options "autoCreateTopics") = true →
  PubSubExplorer.getOrCreateTopic (T := T) this_options meta b =
    (Normal t, add_topic t b,
     [Call_topic_exists t;
      Call_logger Warn ("Topic '" +:+ t +:+ "' does not exist. Auto-creating...")
        [Arg_string "PubSubExplorer"];
      Call_topic_create t;
      Call_logger Log ("Topic '" +:+ t +:+ "' created.") [Arg_string "PubSubExplorer"]]).
Proof.
  intros t Hout Hauto. unfold PubSubExplorer.getOrCreateTopic.
  unfold_M. unfold_backend. fold t.
  rewrite (bool_decide_eq_false_2 _ Hout). simpl. rewrite Hauto.
  by rewrite (bool_decide_eq_false_2 _ Hout).
Qed.

Lemma listener_missing_topic_names t : names_topic (listener_missing_topic t) t.
Proof. unfold names_topic, listener_missing_topic, new_Error. eauto. Qed.

Lemma publisher_missing_topic_names t : names_topic (publisher_missing_topic t) t.
Proof. unfold names_topic, publisher_missing_topic, new_Error. eauto. Qed.

Lemma explorer_missing_topic_fatal this_options
    (meta : PubSubExplorer.PubSubListenerOptions) b :
  let t := PubSubExplorer.topicName meta in
  t ∉ topics b →
  truthy (get this_options "autoCreateTopics") = false →
  PubSubExplorer.getOrCreateTopic (T := T) this_options meta b =
    (Throw (listener_missing_topic t), b, [Call_topic_exists t]).
Proof.
  intros t Hout Hauto. unfold PubSubExplorer.getOrCreateTopic.
  unfold_M. unfold_backend. fold t.
  rewrite (bool_decide_eq_false_2 _ Hout). simpl. by rewrite Hauto.
Qed.

(** The failure leaves [setupHandler] as it was thrown, after one log line. *)
Lemma explorer_setup_missing_topic_fatal this_options
    (inst : PubSubExplorer.Instance T) (meta : PubSubExplorer.PubSubListenerOptions)
    (subs : list Subscription) b :
  let t := PubSubExplorer.topicName meta in
  t ∉ topics b →
  truthy (get this_options "autoCreateTopics") = false →
  PubSubExplorer.setupHandler this_options inst meta subs b =
    (Throw (listener_missing_topic t), b,
     [Call_logger Log
        ("Setting up subscription '" +:+ PubSubExplorer.subscriptionName meta
         +:+ "' for topic '" +:+ t +:+ "'") [];
      Call_topic_exists t;
      Call_logger Error ("Fatal error during listener setup for topic '" +:+ t +:+ "'")
        [Arg_stack (stack (normalizeError (listener_missing_topic t)));
         Arg_string "PubSubExplorer"]]).
Proof.
  intros t Hout Hauto. unfold PubSubExplorer.setupHandler.
  unfold mbind at 1, M_bind at 1, bind at 1, try_catch.
  unfold mbind at 1, M_bind at 1, bind at 1, logger_log at 1, emit at 1.
  unfold mbind at 1, M_bind at 1, bind at 1.
  rewrite (explorer_missing_topic_fatal this_options meta b Hout Hauto).
  fold t. by unfold_M.
Qed.

Lemma publisher_missing_topic_created this_options t b :
  t ∉ topics b →
  truthy (get this_options "autoCreateTopics") = true →
  PubsubPublisher.getTopic (T := T) this_options t b =
    (Normal t, add_topic t b,
     [Call_topic_exists t;
      Call_logger Warn ("Topic '" +:+ t +:+ "' does not exist. Auto-creating...")
        [Arg_string "PubsubPublisher"];
      Call_topic_create t;
      Call_logger Log ("Topic '" +:+ t +:+ "' created successfully.")
        [Arg_string "PubsubPublisher"]]).
Proof.
  intros Hout Hauto. unfold PubsubPublisher.getTopic.
  unfold_M. unfold_backend.
  rewrite (bool_decide_eq_false_2 _ Hout). simpl. rewrite Hauto.
  by rewrite (bool_decide_eq_false_2 _ Hout).
Qed.

Lemma publisher_missing_topic_fatal this_options t b :
  t ∉ topics b →
  truthy (get this_options "autoCreateTopics") = false →
  PubsubPublisher.getTopic (T := T) this_options t b =
    (Throw (publisher_missing_topic t), b, [Call_topic_exists t]).
Proof.
  intros Hout Hauto. unfold PubsubPublisher.getTopic.
  unfold_M. unfold_backend.
  rewrite (bool_decide_eq_false_2 _ Hout). simpl. by rewrite Hauto.
Qed.

(** [dispatchEvent], once the payload is encoded: the pre-publish log line,
    then the guarded block. *)
Lemma dispatchEvent_encoded this_options t (data : T) body
    (options : option PubsubPublisher.DispatchOptions) b :
  PubsubPublisher.encode data = Normal body →
  let attrs := default ∅ (options ≫= PubsubPublisher.attributes) in
  let logObject := dispatch_logObject t data body options in
  PubsubPublisher.dispatchEvent this_options t data options b =
  (logger_log "Dispatching event..." [Arg_string "PubsubPublisher"; Arg_meta logObject];;
   try_catch
     (topic ← PubsubPublisher.getTopic this_options t;
      messageId ← topic_publishMessage topic body attrs;
      logger_log "Event dispatched successfully"
        [Arg_string "PubsubPublisher";
         Arg_meta {| lm_topicName := lm_topicName logObject;
                     lm_attributes := lm_attributes logObject;
                     lm_payloadSize := lm_payloadSize logObject;
                     lm_payload := lm_payload logObject;
                     lm_messageId := Some messageId |}];;
      mret messageId)
     (λ error,
        logger_error "Failed to dispatch event"
          [Arg_stack (stack (normalizeError error)); Arg_string "PubsubPublisher";
           Arg_meta logObject];;
        throw error)) b.
Proof.
  intros Henc attrs logObject. unfold PubsubPublisher.dispatchEvent.
  rewrite Henc, lift_Normal_bind.
  subst logObject attrs. unfold dispatch_logObject.
  by destruct (options ≫= PubsubPublisher.logPayload) as [[]|].
Qed.

Lemma publisher_dispatch_missing_topic_fatal this_options t (data : T) body
    (options : option PubsubPublisher.DispatchOptions) b :
  PubsubPublisher.encode data = Normal body →
  t ∉ topics b →
  truthy (get this_options "autoCreateTopics") = false →
  PubsubPublisher.dispatchEvent this_options t data options b =
    (Throw (publisher_missing_topic t), b,
     [Call_logger Log "Dispatching event..."
        [Arg_string "PubsubPublisher";
         Arg_meta (dispatch_logObject t data body options)];
      Call_topic_exists t;
      Call_logger Error "Failed to dispatch event"
        [Arg_stack (stack (normalizeError (publisher_missing_topic t)));
         Arg_string "PubsubPublisher";
         Arg_meta (dispatch_logObject t data body options)]]).
Proof.
  intros Henc Hout Hauto.
  rewrite (dispatchEvent_encoded this_options t data body options b Henc).
  unfold mbind at 1, M_bind at 1, bind at 1, logger_log at 1, emit at 1.
  unfold try_catch. unfold mbind at 1, M_bind at 1, bind at 1.
  rewrite (publisher_missing_topic_fatal this_options t b Hout Hauto).
  by unfold_M.
Qed.

(** The base listener provisions the topic inside [onModuleInit]. *)
Lemma base_missing_topic_created this_options (this : PubsubBaseListener.Listener T) b :
  let t := PubsubBaseListener.topicName this in
  t ∉ topics b →
  truthy (get this_options "autoCreateTopics") = true →
  let r := PubsubBaseListener.onModuleInit this_options this b in
  result_of r = Normal tt ∧
  count is_topic_create (events_of r) = 1%nat ∧
  Call_topic_create t ∈ events_of r ∧
  t ∈ topics (backend_of r).
Proof.
  intros t Hout Hauto r. subst r.
  unfold PubsubBaseListener.onModuleInit, PubsubBaseListener.listenForMessages.
  unfold_M. unfold_backend. simpl. fold t.
  rewrite (bool_decide_eq_false_2 _ Hout). simpl. rewrite Hauto.
  rewrite (bool_decide_eq_false_2 _ Hout). simpl.
  destruct (subscriptions b !! sub_key
              {| sub_topic := t;
                 sub_name := PubsubBaseListener.subscriptionName this |})
    as [live|] eqn:Hsub.
  - rewrite bool_decide_eq_true_2 by eauto. simpl.
    unfold count, result_of, backend_of, events_of; simpl.
    repeat split; try done; set_solver.
  - rewrite bool_decide_eq_false_2 by (intros [? ?]; done). simpl.
    rewrite Hsub. rewrite bool_decide_eq_false_2 by (intros [? ?]; done). simpl.
    unfold count, result_of, backend_of, events_of; simpl.
    repeat split; try done; set_solver.
Qed.

Lemma base_missing_topic_fatal this_options (this : PubsubBaseListener.Listener T) b :
  let t := PubsubBaseListener.topicName this in
  t ∉ topics b →
  truthy (get this_options "autoCreateTopics") = false →
  PubsubBaseListener.onModuleInit this_options this b =
    (Throw (listener_missing_topic t), b,
     [Call_logger Log
        ("Setting up subscription '" +:+ PubsubBaseListener.subscriptionName this
         +:+ "' for topic '" +:+ t +:+ "'") [];
      Call_topic_exists t;
      Call_logger Error ("Fatal error during listener setup for topic '" +:+ t +:+ "'")
        [Arg_stack (stack (normalizeError (listener_missing_topic t)));
         Arg_string (PubsubBaseListener.constructor_name this)]]).
Proof.
  intros t Hout Hauto.
  unfold PubsubBaseListener.onModuleInit, PubsubBaseListener.listenForMessages.
  unfold_M. unfold_backend. simpl. fold t.
  rewrite (bool_decide_eq_false_2 _ Hout). simpl. by rewrite Hauto.
Qed.

(** C6. A topic that does not exist.  With [autoCreateTopics] truthy, each
    of the three paths that resolve a topic (the discovery listener's
    [getOrCreateTopic], the publisher's [getTopic], the base listener's
    [onModuleInit]) issues one create call and ends with the topic existing
    and its handle in hand.  With [autoCreateTopics] falsy, each path issues
    no create call and throws an [Error] whose message contains the topic
    name; the listener setup ([setupHandler], [onModuleInit]) and
    [dispatchEvent] hand that same error to their caller after a single
    existence check, with the backend untouched. *)
Theorem missing_topic_is_created_or_fatal
    this_options t b
    (meta : PubSubExplorer.PubSubListenerOptions)
    (inst : PubSubExplorer.Instance T) (subs : list Subscription)
    (this : PubsubBaseListener.Listener T)
    (data : T) (body : Buffer) (options : option PubsubPublisher.DispatchOptions) :
  t ∉ topics b →
  PubSubExplorer.topicName meta = t →
  PubsubBaseListener.topicName this = t →
  PubsubPublisher.encode data = Normal body →
  (truthy (get this_options "autoCreateTopics") = true →
   topic_created (PubSubExplorer.getOrCreateTopic (T := T) this_options meta b) t t ∧
   topic_created (PubsubPublisher.getTopic (T := T) this_options t b) t t ∧
   topic_created (PubsubBaseListener.onModuleInit this_options this b) t tt) ∧
  (truthy (get this_options "autoCreateTopics") = false →
   (∃ err, names_topic err t ∧
      PubSubExplorer.getOrCreateTopic (T := T) this_options meta b =
        (Throw err, b, [Call_topic_exists t]) ∧
      fatal_unretried (PubSubExplorer.setupHandler this_options inst meta subs b) err b ∧
      fatal_unretried (PubsubBaseListener.onModuleInit this_options this b) err b) ∧
   (∃ err, names_topic err t ∧
      PubsubPublisher.getTopic (T := T) this_options t b =
        (Throw err, b, [Call_topic_exists t]) ∧
      fatal_unretried (PubsubPublisher.dispatchEvent this_options t data options b)
        err b)).
Proof.
  intros Hout Hmeta Hthis Henc. subst t. split; intros Hauto.
  - split; [|split].
    + rewrite (explorer_missing_topic_created this_options meta b Hout Hauto).
      unfold topic_created, count, result_of, backend_of, events_of; simpl.
      repeat split; try done; set_solver.
    + rewrite (publisher_missing_topic_created this_options _ b Hout Hauto).
      unfold topic_created, count, result_of, backend_of, events_of; simpl.
      repeat split; try done; set_solver.
    + rewrite <- Hthis in *.
      apply (base_missing_topic_created this_options this b Hout Hauto).
  - split.
    + exists (listener_missing_topic (PubSubExplorer.topicName meta)).
      split; [apply listener_missing_topic_names|].
      split; [by apply explorer_missing_topic_fatal|]. split.
      * by rewrite (explorer_setup_missing_topic_fatal this_options inst meta subs b
                      Hout Hauto).
      * rewrite <- Hthis in *.
        by rewrite (base_missing_topic_fatal this_options this b Hout Hauto).
    + exists (publisher_missing_topic (PubSubExplorer.topicName meta)).
      split; [apply publisher_missing_topic_names|].
      split; [by apply publisher_missing_topic_fatal|].
      by rewrite (publisher_dispatch_missing_topic_fatal this_options _ data body
                    options b Henc Hout Hauto).
Qed.

(** *** Publishing *)

Lemma publisher_existing_topic this_options t b :
  t ∈ topics b →
  PubsubPublisher.getTopic (T := T) this_options t b =
    (Normal t, b, [Call_topic_exists t]).
Proof.
  intros Hin. unfold PubsubPublisher.getTopic. unfold_M. unfold_backend.
  by rewrite (bool_decide_eq_true_2 _ Hin).
Qed.

Lemma dispatchEvent_published this_options t (data : T) body
    (options : option PubsubPublisher.DispatchOptions) b mid :
  let attrs := default ∅ (options ≫= PubsubPublisher.attributes) in
  let logObject := dispatch_logObject t data body options in
  PubsubPublisher.encode data = Normal body →
  t ∈ topics b →
  publish_reply b t body attrs = Normal mid →
  PubsubPublisher.dispatchEvent this_options t data options b =
    (Normal mid, add_published t body attrs b,
     [Call_logger Log "Dispatching event..."
        [Arg_string "PubsubPublisher"; Arg_meta logObject];
      Call_topic_exists t;
      Call_publishMessage t body attrs;
      Call_logger Log "Event dispatched successfully"
        [Arg_string "PubsubPublisher";
         Arg_meta {| lm_topicName := lm_topicName logObject;
                     lm_attributes := lm_attributes logObject;
                     lm_payloadSize := lm_payloadSize logObject;
                     lm_payload := lm_payload logObject;
                     lm_messageId := Some mid |}]]).
Proof.
  intros attrs logObject Henc Hin Hreply.
  rewrite (dispatchEvent_encoded this_options t data body options b Henc).
  unfold mbind at 1, M_bind at 1, bind at 1, logger_log at 1, emit at 1.
  unfold try_catch. unfold mbind at 1, M_bind at 1, bind at 1.
  rewrite (publisher_existing_topic this_options t b Hin).
  unfold_M. unfold_backend. fold attrs. by rewrite Hreply.
Qed.

Lemma dispatchEvent_publish_failure this_options t (data : T) body
    (options : option PubsubPublisher.DispatchOptions) b err :
  let attrs := default ∅ (options ≫= PubsubPublisher.attributes) in
  let logObject := dispatch_logObject t data body options in
  PubsubPublisher.encode data = Normal body →
  t ∈ topics b →
  publish_reply b t body attrs = Throw err →
  PubsubPublisher.dispatchEvent this_options t data options b =
    (Throw err, b,
     [Call_logger Log "Dispatching event..."
        [Arg_string "PubsubPublisher"; Arg_meta logObject];
      Call_topic_exists t;
      Call_publishMessage t body attrs;
      Call_logger Error "Failed to dispatch event"
        [Arg_stack (stack (normalizeError err)); Arg_string "PubsubPublisher";
         Arg_meta logObject]]).
Proof.
  intros attrs logObject Henc Hin Hreply.
  rewrite (dispatchEvent_encoded this_options t data body options b Henc).
  unfold mbind at 1, M_bind at 1, bind at 1, logger_log at 1, emit at 1.
  unfold try_catch. unfold mbind at 1, M_bind at 1, bind at 1.
  rewrite (publisher_existing_topic this_options t b Hin).
  unfold_M. unfold_backend. fold attrs. by rewrite Hreply.
Qed.

(** C9. [dispatchEvent] on a topic that exists, for a payload the
    serializer turns into [text].  It sends the backend exactly one publish
    request, whose data is [Buffer.from(text)] and whose attributes are the
    given ones, the empty map when none are given.  If the backend answers
    with a message id, that id is returned; if the request fails, an error
    line carrying the stack of the normalized error is logged and the
    original error is thrown to the caller. *)
Theorem dispatchEvent_publishes_once
    this_options t (data : T) (text : string)
    (options : option PubsubPublisher.DispatchOptions) b :
  t ∈ topics b →
  JSON_stringify data = Normal text →
  let body := Buffer_from text in
  let attrs := default ∅ (options ≫= PubsubPublisher.attributes) in
  let r := PubsubPublisher.dispatchEvent this_options t data options b in
  publish_calls (events_of r) = [(t, body, attrs)] ∧
  (options ≫= PubsubPublisher.attributes = None →
     publish_calls (events_of r) = [(t, body, ∅)]) ∧
  (∀ mid, publish_reply b t body attrs = Normal mid →
     result_of r = Normal mid ∧
     published (backend_of r) = published b ++ [(t, body, attrs)]) ∧
  (∀ err, publish_reply b t body attrs = Throw err →
     result_of r = Throw err ∧
     Call_logger Error "Failed to dispatch event"
       [Arg_stack (stack (normalizeError err)); Arg_string "PubsubPublisher";
        Arg_meta (dispatch_logObject t data body options)] ∈ events_of r ∧
     published (backend_of r) = published b).
Proof.
  intros Hin Htext body attrs r.
  assert (PubsubPublisher.encode data = Normal body) as Henc.
  { unfold PubsubPublisher.encode. by rewrite Htext. }
  assert (publish_calls (events_of r) = [(t, body, attrs)]) as Hcalls.
  { subst r. destruct (publish_reply b t body attrs) as [mid|err] eqn:Hreply.
    - by rewrite (dispatchEvent_published this_options t data body options b mid
                    Henc Hin Hreply).
    - by rewrite (dispatchEvent_publish_failure this_options t data body options b err
                    Henc Hin Hreply). }
  split; [done|]. split.
  { intros Hnone. rewrite Hcalls. subst attrs. by rewrite Hnone. }
  split.
  - intros mid Hreply. subst r.
    by rewrite (dispatchEvent_published this_options t data body options b mid
                  Henc Hin Hreply).
  - intros err Hreply. subst r.
    rewrite (dispatchEvent_publish_failure this_options t data body options b err
               Henc Hin Hreply).
    unfold result_of, backend_of, events_of; simpl. repeat split; try done.
    set_solver.
Qed.

End Provisioning.

Section Merging.
Context {T : Type} `{!Runtime T}.

Implicit Types (options o rp : obj).

(** *** Subscription options *)

Lemma get_Some o (k : string) (v : jsv) : o !! k = Some v → get o k = v.
Proof. intros Hk. unfold get. by rewrite Hk. Qed.

Lemma get_None o (k : string) : o !! k = None → get o k = JUndefined.
Proof. intros Hk. unfold get. by rewrite Hk. Qed.

(** Spreading nothing over an object leaves it as it is. *)
Lemma spread2_empty o : spread2 o ∅ = o.
Proof. unfold spread2. apply (left_id_L ∅ (∪)). Qed.

Lemma default_retryPolicy :
  get default_subscription_options "retryPolicy" =
  JObj {[ "minimumBackoff" := JObj {[ "seconds" := JNum 10 ]};
          "maximumBackoff" := JObj {[ "seconds" := JNum 600 ]} ]}.
Proof. reflexivity. Qed.

(** Writing back the default retry policy changes nothing. *)
Lemma default_retryPolicy_insert :
  <["retryPolicy" := get default_subscription_options "retryPolicy"]>
    default_subscription_options = default_subscription_options.
Proof. apply insert_id. reflexivity. Qed.

(** The merge of the base listener, as a function of the override. *)
Lemma base_merge_unfold (this : PubsubBaseListener.Listener T) :
  PubsubBaseListener.getMergedSubscriptionOptions this =
  let so := opt_obj (PubsubBaseListener.subscriptionOptions this) in
  <["retryPolicy" :=
      JObj (spread2 (spread (get default_subscription_options "retryPolicy"))
              (spread (js_coalesce (opt_get so "retryPolicy") (JObj ∅))))]>
    (spread2 default_subscription_options (spread (js_coalesce so (JObj ∅)))).
Proof. reflexivity. Qed.

Lemma base_merge_absent_or_empty (this : PubsubBaseListener.Listener T) :
  PubsubBaseListener.subscriptionOptions this = None ∨
  PubsubBaseListener.subscriptionOptions this = Some ∅ →
  PubsubBaseListener.getMergedSubscriptionOptions this = default_subscription_options.
Proof.
  intros Hso. rewrite base_merge_unfold.
  destruct Hso as [-> | ->]; simpl; unfold get; simpl;
    rewrite ?lookup_empty; simpl;
    rewrite !spread2_empty; apply default_retryPolicy_insert.
Qed.

Lemma explorer_merge_absent_or_empty (meta : PubSubExplorer.PubSubListenerOptions) :
  PubSubExplorer.subscriptionOptions meta = None ∨
  PubSubExplorer.subscriptionOptions meta = Some ∅ →
  PubSubExplorer.mergedOptions meta = default_subscription_options.
Proof.
  intros Hso. unfold PubSubExplorer.mergedOptions, PubSubExplorer.defaultSubscriptionOptions.
  destruct Hso as [-> | ->]; simpl; unfold get; simpl;
    rewrite ?lookup_empty; simpl;
    rewrite !spread2_empty; apply default_retryPolicy_insert.
Qed.

(** The retry policy of the merged options is the override's retry policy
    laid over the default one, key by key. *)
Lemma base_merge_retryPolicy (this : PubsubBaseListener.Listener T) o rp :
  PubsubBaseListener.subscriptionOptions this = Some o →
  o !! "retryPolicy" = Some (JObj rp) →
  get (PubsubBaseListener.getMergedSubscriptionOptions this) "retryPolicy" =
  JObj (rp ∪ spread (get default_subscription_options "retryPolicy")).
Proof.
  intros Hso Hrp. rewrite base_merge_unfold, Hso. simpl.
  unfold get at 1. rewrite lookup_insert_eq. simpl.
  by rewrite (get_Some o _ _ Hrp).
Qed.

Lemma explorer_merge_retryPolicy (meta : PubSubExplorer.PubSubListenerOptions) o rp :
  PubSubExplorer.subscriptionOptions meta = Some o →
  o !! "retryPolicy" = Some (JObj rp) →
  get (PubSubExplorer.mergedOptions meta) "retryPolicy" =
  JObj (rp ∪ spread (get default_subscription_options "retryPolicy")).
Proof.
  intros Hso Hrp.
  unfold PubSubExplorer.mergedOptions, PubSubExplorer.defaultSubscriptionOptions.
  rewrite Hso. simpl.
  unfold get at 1. rewrite lookup_insert_eq. simpl.
  by rewrite (get_Some o _ _ Hrp).
Qed.

Lemma laid_over_default_max rp :
  rp !! "maximumBackoff" = None →
  opt_get (JObj (rp ∪ spread (get default_subscription_options "retryPolicy")))
    "maximumBackoff" = retry_max default_subscription_options.
Proof.
  intros Hmax. simpl. unfold get at 1.
  by rewrite (lookup_union_r _ _ _ Hmax).
Qed.

Lemma laid_over_default_min rp (v : jsv) :
  rp !! "minimumBackoff" = Some v →
  opt_get (JObj (rp ∪ spread (get default_subscription_options "retryPolicy")))
    "minimumBackoff" = v.
Proof.
  intros Hmin. simpl. unfold get at 1.
  by rewrite (lookup_union_Some_l _ _ _ _ Hmin).
Qed.

(** C7. The subscription-options merge of both listener variants: with an
    empty override (or none) the result is the fixed defaults; with an
    override whose retry policy sets the minimum backoff and no maximum,
    the merged retry policy has the override's minimum and still the
    default maximum. *)
Theorem subscription_options_merge_laws
    (this : PubsubBaseListener.Listener T)
    (meta : PubSubExplorer.PubSubListenerOptions) :
  let base := PubsubBaseListener.getMergedSubscriptionOptions this in
  let explorer := PubSubExplorer.mergedOptions meta in
  (PubsubBaseListener.subscriptionOptions this = Some ∅ →
     base = default_subscription_options) ∧
  (PubSubExplorer.subscriptionOptions meta = Some ∅ →
     explorer = default_subscription_options) ∧
  (∀ o rp v,
     o !! "retryPolicy" = Some (JObj rp) →
     rp !! "minimumBackoff" = Some v →
     rp !! "maximumBackoff" = None →
     (PubsubBaseListener.subscriptionOptions this = Some o →
        retry_min base = v ∧
        retry_max base = retry_max default_subscription_options ∧
        retry_max base = JObj {[ "seconds" := JNum 600 ]}) ∧
     (PubSubExplorer.subscriptionOptions meta = Some o →
        retry_min explorer = v ∧
        retry_max explorer = retry_max default_subscription_options ∧
        retry_max explorer = JObj {[ "seconds" := JNum 600 ]})).
Proof.
  intros base explorer. subst base explorer.
  split; [intros; apply base_merge_absent_or_empty; by right|].
  split; [intros; apply explorer_merge_absent_or_empty; by right|].
  intros o rp v Hrp Hmin Hmax. split; intros Hso; unfold retry_min, retry_max at 1 3.
  - rewrite (base_merge_retryPolicy this o rp Hso Hrp).
    rewrite (laid_over_default_min rp v Hmin), (laid_over_default_max rp Hmax).
    done.
  - rewrite (explorer_merge_retryPolicy meta o rp Hso Hrp).
    rewrite (laid_over_default_min rp v Hmin), (laid_over_default_max rp Hmax).
    done.
Qed.

(** *** Module options *)

(** A property the caller omits resolves to the default; one the caller
    gives, to what the caller gave. *)
Lemma mergeDefaultOptions_lookup options (k : string) :
  PubsubModule_explorer.mergeDefaultOptions options !! k =
  match options !! k with
  | Some v => Some v
  | None =>
      ({[ "emulatorMode" := JBool false; "autoCreateTopics" := JBool false ]} : obj) !! k
  end.
Proof.
  unfold PubsubModule_explorer.mergeDefaultOptions, spread2.
  destruct (options !! k) as [v|] eqn:Hk.
  - by apply lookup_union_Some_l.
  - by rewrite (lookup_union_r _ _ _ Hk).
Qed.

Lemma base_mergedOptions_lookup options (k : string) :
  k ≠ "logger" →
  PubsubModule_base.mergedOptions options !! k =
  PubsubModule_explorer.mergeDefaultOptions options !! k.
Proof.
  intros Hk. unfold PubsubModule_base.mergedOptions.
  by rewrite lookup_insert_ne.
Qed.

Lemma mergeDefaultOptions_emulatorMode options :
  truthy (get (PubsubModule_explorer.mergeDefaultOptions options) "emulatorMode") =
  truthy (get options "emulatorMode").
Proof.
  unfold get. rewrite mergeDefaultOptions_lookup.
  by destruct (options !! "emulatorMode").
Qed.

Lemma mergeDefaultOptions_port options :
  get (PubsubModule_explorer.mergeDefaultOptions options) "port" = get options "port".
Proof.
  unfold get. rewrite mergeDefaultOptions_lookup.
  by destruct (options !! "port").
Qed.

(** [createClient] throws exactly in emulator mode with a falsy port, or
    with a port whose conversion to text throws. *)
Lemma createClient_throws options :
  is_throw (PubsubModule_explorer.createClient options) =
  truthy (get options "emulatorMode") &&
  (negb (truthy (get options "port")) || is_throw (String_of (get options "port"))).
Proof.
  unfold PubsubModule_explorer.createClient.
  destruct (truthy (get options "emulatorMode")); [|done].
  destruct (truthy (get options "port")); [|done].
  by destruct (String_of (get options "port")).
Qed.

(** The client factory of the base-class module never throws. *)
Lemma pubSubClientProvider_total options :
  is_throw (PubsubModule_base.pubSubClientProvider options) = false.
Proof.
  unfold PubsubModule_base.pubSubClientProvider.
  by destruct (truthy (get options "emulatorMode")).
Qed.

(** C8, as the code has it.  Merging the defaults is a total function of
    the caller's options.  In the discovery variant the resolved
    configuration is rejected exactly when [emulatorMode] is truthy and
    [port] is falsy (absent, or [0]) or cannot be converted to text; with a
    falsy port the error says that emulator mode requires a port, and for a
    numeric or absent port the condition is: emulator mode without a truthy
    port.  In neither variant is anything rejected outside emulator mode
    with a falsy port, and in neither does an absent [projectId] matter. *)
Theorem configuration_rejected_only_for_emulator_port options :
  let explorer := PubsubModule_explorer.register options in
  let base := PubsubModule_base.register options in
  rejected explorer =
    truthy (get options "emulatorMode") &&
    (negb (truthy (get options "port")) || is_throw (String_of (get options "port"))) ∧
  (truthy (get options "emulatorMode") = true →
   truthy (get options "port") = false →
   PUBSUB_CLIENT explorer =
     Throw (new_Error "PubsubModule: Emulator mode requires a port.")) ∧
  ((∃ n, get options "port" = JNum n) ∨ get options "port" = JUndefined →
   rejected explorer =
     truthy (get options "emulatorMode") && negb (truthy (get options "port"))) ∧
  (rejected base = true →
   truthy (get options "emulatorMode") = true ∧ truthy (get options "port") = false) ∧
  rejected (PubsubModule_explorer.register (delete "projectId" options)) =
    rejected explorer ∧
  rejected (PubsubModule_base.register (delete "projectId" options)) = rejected base.
Proof.
  intros explorer base. subst explorer base.
  unfold rejected, PubsubModule_explorer.register, PubsubModule_base.register. simpl.
  assert (∀ o, is_throw (PubsubModule_explorer.createClient
                           (PubsubModule_explorer.mergeDefaultOptions o)) =
               truthy (get o "emulatorMode") &&
               (negb (truthy (get o "port")) || is_throw (String_of (get o "port"))))
    as Hexplorer.
  { intros o. rewrite createClient_throws.
    by rewrite mergeDefaultOptions_emulatorMode, mergeDefaultOptions_port. }
  split; [apply Hexplorer|]. split.
  { intros Hemu Hport. unfold PubsubModule_explorer.createClient.
    rewrite mergeDefaultOptions_emulatorMode, mergeDefaultOptions_port.
    by rewrite Hemu, Hport. }
  split.
  { intros Hport. rewrite Hexplorer.
    destruct Hport as [[n ->] | ->]; simpl; by rewrite ?orb_false_r. }
  split.
  { by rewrite pubSubClientProvider_total. }
  split.
  - rewrite !Hexplorer. unfold get. by rewrite !lookup_delete_ne.
  - by rewrite !pubSubClientProvider_total.
Qed.

(** C10, as the code has it.  When the caller omits [autoCreateTopics],
    both option mergers resolve it to [false]; the two merged objects agree
    on every property but [logger], which only the base-class module
    fills in. *)
Theorem autoCreateTopics_defaults_agree options :
  options !! "autoCreateTopics" = None →
  get (PubsubModule_base.mergedOptions options) "autoCreateTopics" = JBool false ∧
  get (PubsubModule_explorer.mergeDefaultOptions options) "autoCreateTopics"
    = JBool false ∧
  (∀ k : string, k ≠ "logger" →
     PubsubModule_base.mergedOptions options !! k =
     PubsubModule_explorer.mergeDefaultOptions options !! k) ∧
  is_Some (PubsubModule_base.mergedOptions options !! "logger") ∧
  PubsubModule_explorer.mergeDefaultOptions options !! "logger" = options !! "logger".
Proof.
  intros Homitted.
  assert (get (PubsubModule_explorer.mergeDefaultOptions options) "autoCreateTopics"
          = JBool false) as Hexplorer.
  { unfold get. by rewrite mergeDefaultOptions_lookup, Homitted. }
  split.
  { unfold get in *. by rewrite base_mergedOptions_lookup. }
  split; [done|]. split; [apply base_mergedOptions_lookup|]. split.
  - unfold PubsubModule_base.mergedOptions. rewrite lookup_insert_eq. eauto.
  - rewrite mergeDefaultOptions_lookup. by destruct (options !! "logger").
Qed.

End Merging.

(* ===================================================================== *)
(** * Further properties                                                  *)
(* ===================================================================== *)

Section Normalization.
Context {T : Type} `{!Runtime T}.

Lemma normalized_object_message (n : NormalizedError) :
  ({[ "message" := JStr (message n);
      "stack" := match stack n with
                 | Some st => JStr st
                 | None => JUndefined
                 end ]} : obj) !! "message" = Some (JStr (message n)).
Proof. apply lookup_insert_eq. Qed.

Lemma normalized_object_stack (n : NormalizedError) :
  ({[ "message" := JStr (message n);
      "stack" := match stack n with
                 | Some st => JStr st
                 | None => JUndefined
                 end ]} : obj) !! "stack" =
  Some (match stack n with Some st => JStr st | None => JUndefined end).
Proof. rewrite lookup_insert_ne by done. apply lookup_singleton_eq. Qed.

(** X1. Normalizing an error that already has the normalized shape changes
    nothing: thrown as an object, the result of [normalizeError] normalizes
    to itself, whatever was thrown in the first place. *)
Theorem normalizeError_idempotent (error : thrown) :
  normalizeError (Thrown_value (NormalizedError_object (normalizeError error)))
  = normalizeError error.
Proof.
  destruct (normalizeError error) as [m st] eqn:Hn.
  unfold NormalizedError_object, normalizeError.
  rewrite normalized_object_message, normalized_object_stack. simpl.
  by destruct st.
Qed.

(** X2. Where a stack comes from: [normalizeError] reports a stack exactly
    when an [Error] instance with a stack was thrown, or an object whose
    [message] and [stack] are both strings; a thrown string, number or
    other value never yields one. *)
Theorem normalizeError_stack_origin (error : thrown) (st : string) :
  stack (normalizeError error) = Some st ↔
  (∃ m, error = Thrown_Error m (Some st)) ∨
  (∃ o m, error = Thrown_value (JObj o) ∧
          o !! "message" = Some (JStr m) ∧ o !! "stack" = Some (JStr st)).
Proof.
  split.
  - destruct error as [m st'|v]; simpl.
    + intros ->. left. eauto.
    + intros Hst. right.
      destruct v as [| | | | |name|o]; simpl in Hst;
        try (by destruct (String_of _); discriminate);
        try discriminate.
      { by destruct (host_toString name). }
      destruct (o !! "message") as [[| | | |m| |]|] eqn:Hm; simpl in Hst;
        try discriminate.
      destruct (o !! "stack") as [[| | | |s| |]|] eqn:Hs; simpl in Hst;
        try discriminate.
      injection Hst as <-. eauto.
  - intros [(m & ->) | (o & m & -> & Hm & Hs)]; simpl; [done|].
    by rewrite Hm, Hs.
Qed.

End Normalization.

Section MergingFurther.
Context {T : Type}.

Implicit Types (o rp : obj) (v : jsv).

(** [v ?? {}] and [v || {}] spread the same properties. *)
Lemma spread_coalesce_or v :
  spread (js_coalesce v (JObj ∅)) = spread (js_or v (JObj ∅)).
Proof.
  destruct v as [| |[]|n|s| |]; try done.
  - unfold js_or, js_coalesce. simpl. by destruct (n =? 0).
  - unfold js_or, js_coalesce. simpl. by destruct s.
Qed.

Lemma explorer_merged_of (meta : PubSubExplorer.PubSubListenerOptions) :
  PubSubExplorer.mergedOptions meta =
  merged_of (PubSubExplorer.subscriptionOptions meta).
Proof.
  unfold PubSubExplorer.mergedOptions, merged_of, retry_override_of, override_of,
    spread2, PubSubExplorer.defaultSubscriptionOptions.
  by destruct (PubSubExplorer.subscriptionOptions meta).
Qed.

Lemma base_merged_of (this : PubsubBaseListener.Listener T) :
  PubsubBaseListener.getMergedSubscriptionOptions this =
  merged_of (PubsubBaseListener.subscriptionOptions this).
Proof.
  unfold PubsubBaseListener.getMergedSubscriptionOptions, merged_of,
    retry_override_of, override_of, spread2.
  rewrite spread_coalesce_or.
  by destruct (PubsubBaseListener.subscriptionOptions this).
Qed.

(** X3. The two listener variants merge subscription options to the same
    object: the base listener's [??] and the explorer's [||] differ on no
    override. *)
Theorem merge_variants_agree (this : PubsubBaseListener.Listener T)
    (meta : PubSubExplorer.PubSubListenerOptions) :
  PubsubBaseListener.subscriptionOptions this = PubSubExplorer.subscriptionOptions meta →
  PubsubBaseListener.getMergedSubscriptionOptions this = PubSubExplorer.mergedOptions meta.
Proof. intros Hso. by rewrite base_merged_of, explorer_merged_of, Hso. Qed.

Lemma merged_of_lookup (so : option obj) (k : string) :
  k ≠ "retryPolicy" →
  merged_of so !! k =
  match override_of so !! k with
  | Some v => Some v
  | None => default_subscription_options !! k
  end.
Proof.
  intros Hk. unfold merged_of. rewrite lookup_insert_ne by done.
  destruct (override_of so !! k) as [v|] eqn:Ho.
  - by apply lookup_union_Some_l.
  - by rewrite (lookup_union_r _ _ _ Ho).
Qed.

Lemma merged_of_retryPolicy (so : option obj) :
  merged_of so !! "retryPolicy" = Some (JObj (retry_override_of so ∪ default_retry)).
Proof. unfold merged_of. apply lookup_insert_eq. Qed.


Lemma merged_by_merged_of (so : option obj) (m : obj) :
  merged_by T so m → m = merged_of so.
Proof.
  intros [(this & <- & ->) | (meta & <- & ->)].
  - apply base_merged_of.
  - apply explorer_merged_of.
Qed.


(** X5. An override cannot switch the retry policy off: when its
    [retryPolicy] is absent, [undefined] or [null], the merged retry policy
    of either variant is the default one, whatever else the override
    sets. *)
Theorem merge_nullish_retryPolicy_keeps_default (so : option obj) (m : obj) :
  merged_by T so m →
  nullish (opt_get (opt_obj so) "retryPolicy") = true →
  get m "retryPolicy" = get default_subscription_options "retryPolicy".
Proof.
  intros ->%merged_by_merged_of Hnull.
  unfold get at 1. rewrite merged_of_retryPolicy. simpl.
  unfold retry_override_of, js_or.
  destruct (opt_get (opt_obj so) "retryPolicy"); try discriminate Hnull; simpl;
    by rewrite (left_id_L ∅ (∪)).
Qed.

Lemma merged_of_absorbs_defaults (so : option obj) :
  merged_of so ∪ default_subscription_options = merged_of so.
Proof.
  apply map_eq. intros k.
  destruct (merged_of so !! k) as [v|] eqn:Hm.
  - by apply lookup_union_Some_l.
  - rewrite (lookup_union_r _ _ _ Hm).
    destruct (decide (k = "retryPolicy")) as [-> | Hk].
    + by rewrite merged_of_retryPolicy in Hm.
    + rewrite merged_of_lookup in Hm by done.
      by destruct (override_of so !! k).
Qed.

Lemma merged_of_idempotent (so : option obj) :
  merged_of (Some (merged_of so)) = merged_of so.
Proof.
  unfold merged_of at 1. unfold override_of at 1. simpl default.
  rewrite merged_of_absorbs_defaults.
  assert (retry_override_of (Some (merged_of so))
          = retry_override_of so ∪ default_retry) as ->.
  { unfold retry_override_of at 1. simpl. unfold get.
    rewrite merged_of_retryPolicy. done. }
  rewrite <- (assoc_L (∪)), (idemp_L (∪) default_retry).
  apply insert_id, merged_of_retryPolicy.
Qed.

(** X6. Merging is idempotent in either variant: a listener whose override
    is the merged options of another gets those same options. *)
Theorem merge_idempotent (so : option obj) (m m' : obj) :
  merged_by T so m → merged_by T (Some m) m' → m' = m.
Proof.
  intros ->%merged_by_merged_of ->%merged_by_merged_of.
  apply merged_of_idempotent.
Qed.

End MergingFurther.

Section ProvisioningFurther.
Context {T : Type} `{!Runtime T}.

Implicit Types (b : Backend) (t name : string) (this_options : obj).

Ltac unfold_backend :=
  unfold topic_exists, topic_create, subscription_exists, subscription_create,
    topic_publishMessage in *.

Ltac observe :=
  unfold count, result_of, backend_of, events_of, provisioned_for, subscription_live,
    ensured, sub_key; simpl.

(** How [setupHandler] ends, by what exists: it throws when the topic is
    missing and auto-creation is off, and otherwise ensures topic and
    subscription and attaches the message listener. *)
Lemma setupHandler_outcome this_options (inst : PubSubExplorer.Instance T)
    (meta : PubSubExplorer.PubSubListenerOptions) (subs : list Subscription) b :
  let s := handle_of meta in
  let r := PubSubExplorer.setupHandler this_options inst meta subs b in
  if bool_decide (sub_topic s ∈ topics b) || truthy (get this_options "autoCreateTopics")
  then
    result_of r = Normal (subs ++ [s]) ∧
    backend_of r = ensured s (PubSubExplorer.mergedOptions meta) b ∧
    count (is_listen "message") (events_of r) = 1%nat ∧
    count (is_listen "error") (events_of r) = 0%nat ∧
    count is_topic_exists (events_of r) = 1%nat ∧
    count is_subscription_exists (events_of r) = 1%nat ∧
    count is_topic_create (events_of r) =
      (if bool_decide (sub_topic s ∈ topics b) then 0 else 1)%nat ∧
    count is_subscription_create (events_of r) =
      (if bool_decide (is_Some (subscriptions b !! sub_key s)) then 0 else 1)%nat
  else
    result_of r = Throw (listener_missing_topic (sub_topic s)) ∧
    backend_of r = b ∧
    count (is_listen "message") (events_of r) = 0%nat ∧
    count (is_listen "error") (events_of r) = 0%nat ∧
    count is_topic_create (events_of r) = 0%nat ∧
    count is_subscription_create (events_of r) = 0%nat.
Proof.
  intros s r. subst s r. unfold handle_of. simpl sub_topic.
  unfold PubSubExplorer.setupHandler, PubSubExplorer.getOrCreateTopic,
    PubSubExplorer.getOrCreateSubscription.
  unfold_M. unfold_backend. unfold sub_key, ensured. simpl.
  destruct (bool_decide (PubSubExplorer.topicName meta ∈ topics b)) eqn:Htopic; simpl.
  - destruct (bool_decide (is_Some (subscriptions b !! _))) eqn:Hsub; simpl;
      rewrite ?Hsub; simpl; observe; by rewrite ?Htopic, ?Hsub.
  - destruct (truthy (get this_options "autoCreateTopics")); simpl.
    + rewrite Htopic. simpl.
      destruct (bool_decide (is_Some (subscriptions b !! _))) eqn:Hsub; simpl;
        rewrite ?Hsub; simpl; observe; by rewrite ?Htopic, ?Hsub.
    + by observe.
Qed.

(** How [onModuleInit] of the base listener ends, by what exists. *)
Lemma base_onModuleInit_outcome this_options (this : PubsubBaseListener.Listener T) b :
  let s := base_handle this in
  let r := PubsubBaseListener.onModuleInit this_options this b in
  if bool_decide (sub_topic s ∈ topics b) || truthy (get this_options "autoCreateTopics")
  then
    result_of r = Normal tt ∧
    backend_of r = ensured s (PubsubBaseListener.getMergedSubscriptionOptions this) b ∧
    count (is_listen "message") (events_of r) = 1%nat ∧
    count (is_listen "error") (events_of r) = 1%nat ∧
    count is_topic_exists (events_of r) = 1%nat ∧
    count is_subscription_exists (events_of r) = 1%nat ∧
    count is_topic_create (events_of r) =
      (if bool_decide (sub_topic s ∈ topics b) then 0 else 1)%nat ∧
    count is_subscription_create (events_of r) =
      (if bool_decide (is_Some (subscriptions b !! sub_key s)) then 0 else 1)%nat
  else
    result_of r = Throw (listener_missing_topic (sub_topic s)) ∧
    backend_of r = b ∧
    count (is_listen "message") (events_of r) = 0%nat ∧
    count (is_listen "error") (events_of r) = 0%nat ∧
    count is_topic_create (events_of r) = 0%nat ∧
    count is_subscription_create (events_of r) = 0%nat.
Proof.
  intros s r. subst s r. unfold base_handle. simpl sub_topic.
  unfold PubsubBaseListener.onModuleInit, PubsubBaseListener.listenForMessages.
  unfold_M. unfold_backend. unfold sub_key, ensured. simpl.
  destruct (bool_decide (PubsubBaseListener.topicName this ∈ topics b)) eqn:Htopic; simpl.
  - destruct (bool_decide (is_Some (subscriptions b !! _))) eqn:Hsub; simpl;
      rewrite ?Hsub; simpl; observe; by rewrite ?Htopic, ?Hsub.
  - destruct (truthy (get this_options "autoCreateTopics")); simpl.
    + rewrite Htopic. simpl.
      destruct (bool_decide (is_Some (subscriptions b !! _))) eqn:Hsub; simpl;
        rewrite ?Hsub; simpl; observe; by rewrite ?Htopic, ?Hsub.
    + by observe.
Qed.

(** Ensuring what is missing leaves topic and subscription in place. *)
Lemma ensured_provisioned (s : Subscription) (options : obj) b :
  provisioned_for s (ensured s options b).
Proof.
  unfold provisioned_for, subscription_live, ensured.
  destruct (bool_decide_reflect (sub_topic s ∈ topics b)) as [Hin | Hout].
  - destruct (bool_decide_reflect (is_Some (subscriptions b !! sub_key s)));
      simpl; [done|]. rewrite lookup_insert_eq. eauto.
  - simpl.
    destruct (bool_decide_reflect (is_Some (subscriptions b !! sub_key s)));
      simpl; (split; [set_solver|]); [done|]. rewrite lookup_insert_eq. eauto.
Qed.

(** Ensuring again changes nothing. *)
Lemma ensured_fixpoint (s : Subscription) (options options' : obj) b :
  provisioned_for s b → ensured s options' b = b.
Proof.
  intros [Hin Hlive]. unfold ensured, subscription_live in *.
  rewrite (bool_decide_eq_true_2 _ Hin). by rewrite (bool_decide_eq_true_2 _ Hlive).
Qed.

(** The options a missing subscription is created with. *)
Lemma ensured_options (s : Subscription) (options : obj) b :
  subscriptions b !! sub_key s = None →
  subscriptions (ensured s options b) !! sub_key s = Some options.
Proof.
  intros Hnone. unfold ensured.
  destruct (bool_decide (sub_topic s ∈ topics b)); simpl;
    rewrite Hnone; rewrite bool_decide_eq_false_2 by (by intros [? ?]);
    simpl; apply lookup_insert_eq.
Qed.

(** The options of a subscription that exists are left alone. *)
Lemma ensured_keeps_live (s : Subscription) (options live : obj) b :
  subscriptions b !! sub_key s = Some live →
  subscriptions (ensured s options b) !! sub_key s = Some live.
Proof.
  intros Hlive. unfold ensured.
  destruct (bool_decide (sub_topic s ∈ topics b)); simpl;
    rewrite Hlive; by rewrite bool_decide_eq_true_2 by eauto.
Qed.

(** After a successful setup topic and subscription exist. *)
Lemma successful_setup_facts
    this_options (inst : PubSubExplorer.Instance T)
    (meta : PubSubExplorer.PubSubListenerOptions) (subs : list Subscription)
    (this : PubsubBaseListener.Listener T) b :
  (∀ subs', result_of (PubSubExplorer.setupHandler this_options inst meta subs b)
            = Normal subs' →
     provisioned_for (handle_of meta)
       (backend_of (PubSubExplorer.setupHandler this_options inst meta subs b))) ∧
  (result_of (PubsubBaseListener.onModuleInit this_options this b) = Normal tt →
     provisioned_for (base_handle this)
       (backend_of (PubsubBaseListener.onModuleInit this_options this b))).
Proof.
  pose proof (setupHandler_outcome this_options inst meta subs b) as He.
  pose proof (base_onModuleInit_outcome this_options this b) as Hb.
  simpl in He, Hb. split.
  - intros subs' Hok.
    destruct (_ || _) in He; [|destruct He as (He & _); congruence].
    destruct He as (_ & -> & _). apply ensured_provisioned.
  - intros Hok.
    destruct (_ || _) in Hb; [|destruct Hb as (Hb & _); congruence].
    destruct Hb as (_ & -> & _). apply ensured_provisioned.
Qed.

(** X7. A missing subscription is created whether or not auto-creation is
    enabled: the [autoCreateTopics] flag governs topics only.  With the
    topic existing and the subscription missing, listener setup succeeds
    for every value of the flag, issues exactly one create call, and the
    subscription then exists with the merged options, in both variants. *)
Theorem missing_subscription_is_always_created
    this_options (inst : PubSubExplorer.Instance T)
    (meta : PubSubExplorer.PubSubListenerOptions) (subs : list Subscription)
    (this : PubsubBaseListener.Listener T) b :
  PubSubExplorer.topicName meta ∈ topics b →
  subscriptions b !! sub_key (handle_of meta) = None →
  base_handle this = handle_of meta →
  let explorer := PubSubExplorer.setupHandler this_options inst meta subs b in
  let base := PubsubBaseListener.onModuleInit this_options this b in
  (result_of explorer = Normal (subs ++ [handle_of meta]) ∧
   count is_subscription_create (events_of explorer) = 1%nat ∧
   count is_topic_create (events_of explorer) = 0%nat ∧
   subscriptions (backend_of explorer) !! sub_key (handle_of meta)
     = Some (PubSubExplorer.mergedOptions meta)) ∧
  (result_of base = Normal tt ∧
   count is_subscription_create (events_of base) = 1%nat ∧
   count is_topic_create (events_of base) = 0%nat ∧
   subscriptions (backend_of base) !! sub_key (handle_of meta)
     = Some (PubsubBaseListener.getMergedSubscriptionOptions this)).
Proof.
  intros Hin Hnone Hsame explorer base. subst explorer base.
  pose proof (setupHandler_outcome this_options inst meta subs b) as He.
  pose proof (base_onModuleInit_outcome this_options this b) as Hb.
  cbv zeta in He, Hb. rewrite Hsame in Hb.
  change (PubSubExplorer.topicName meta) with (sub_topic (handle_of meta)) in Hin.
  rewrite (bool_decide_eq_true_2 _ Hin) in He, Hb. cbn [orb] in He, Hb.
  rewrite Hnone in He, Hb.
  rewrite bool_decide_eq_false_2 in He, Hb by (by intros [? ?]).
  destruct He as (-> & -> & _ & _ & _ & _ & -> & ->).
  destruct Hb as (-> & -> & _ & _ & _ & _ & -> & ->).
  by rewrite !ensured_options.
Qed.


(** X9. What a successful setup leaves behind.  In the explorer the new
    subscription handle is appended to the recorded ones, topic and
    subscription exist, and exactly one listener is attached, for
    ["message"]: the explorer attaches none for ["error"].  The base
    listener attaches one for each. *)
Theorem successful_setup_postcondition
    this_options (inst : PubSubExplorer.Instance T)
    (meta : PubSubExplorer.PubSubListenerOptions) (subs subs' : list Subscription)
    (this : PubsubBaseListener.Listener T) b :
  let explorer := PubSubExplorer.setupHandler this_options inst meta subs b in
  let base := PubsubBaseListener.onModuleInit this_options this b in
  (result_of explorer = Normal subs' →
     subs' = subs ++ [handle_of meta] ∧
     provisioned_for (handle_of meta) (backend_of explorer) ∧
     count (is_listen "message") (events_of explorer) = 1%nat ∧
     count (is_listen "error") (events_of explorer) = 0%nat) ∧
  (result_of base = Normal tt →
     provisioned_for (base_handle this) (backend_of base) ∧
     count (is_listen "message") (events_of base) = 1%nat ∧
     count (is_listen "error") (events_of base) = 1%nat).
Proof.
  intros explorer base. subst explorer base.
  pose proof (setupHandler_outcome this_options inst meta subs b) as He.
  pose proof (base_onModuleInit_outcome this_options this b) as Hb.
  simpl in He, Hb. split.
  - intros Hok.
    destruct (_ || _) in He; [|destruct He as (He & _); congruence].
    destruct He as (He & -> & -> & -> & _). rewrite He in Hok.
    injection Hok as <-. split; [done|]. split; [apply ensured_provisioned|done].
  - intros Hok.
    destruct (_ || _) in Hb; [|destruct Hb as (Hb & _); congruence].
    destruct Hb as (_ & -> & -> & -> & _).
    split; [apply ensured_provisioned|done].
Qed.

(** X10. Setup is idempotent on the backend: once a setup has succeeded,
    setting the same listener up again makes no create call and leaves the
    backend as it is, in both variants. *)
Theorem setup_twice_creates_nothing
    this_options (inst : PubSubExplorer.Instance T)
    (meta : PubSubExplorer.PubSubListenerOptions) (subs subs' : list Subscription)
    (this : PubsubBaseListener.Listener T) b :
  let explorer := PubSubExplorer.setupHandler this_options inst meta subs b in
  let base := PubsubBaseListener.onModuleInit this_options this b in
  (result_of explorer = Normal subs' →
     let again :=
       PubSubExplorer.setupHandler this_options inst meta subs' (backend_of explorer) in
     result_of again = Normal (subs' ++ [handle_of meta]) ∧
     backend_of again = backend_of explorer ∧
     count is_topic_create (events_of again) = 0%nat ∧
     count is_subscription_create (events_of again) = 0%nat) ∧
  (result_of base = Normal tt →
     let again :=
       PubsubBaseListener.onModuleInit this_options this (backend_of base) in
     result_of again = Normal tt ∧
     backend_of again = backend_of base ∧
     count is_topic_create (events_of again) = 0%nat ∧
     count is_subscription_create (events_of again) = 0%nat).
Proof.
  intros explorer base.
  destruct (successful_setup_facts this_options inst meta subs this b)
    as [He Hb].
  fold explorer base in He, Hb. split.
  - intros Hok again. specialize (He subs' Hok) as [Hin Hlive].
    pose proof (setupHandler_outcome this_options inst meta subs' (backend_of explorer))
      as Ha.
    simpl in Ha. fold again in Ha.
    unfold subscription_live in Hlive.
    rewrite (bool_decide_eq_true_2 _ Hin), (bool_decide_eq_true_2 _ Hlive) in Ha.
    simpl in Ha. destruct Ha as (-> & -> & _ & _ & _ & _ & -> & ->).
    by rewrite ensured_fixpoint.
  - intros Hok again. specialize (Hb Hok) as [Hin Hlive].
    pose proof (base_onModuleInit_outcome this_options this (backend_of base)) as Ha.
    simpl in Ha. fold again in Ha.
    unfold subscription_live in Hlive.
    rewrite (bool_decide_eq_true_2 _ Hin), (bool_decide_eq_true_2 _ Hlive) in Ha.
    simpl in Ha. destruct Ha as (-> & -> & _ & _ & _ & _ & -> & ->).
    by rewrite ensured_fixpoint.
Qed.

End ProvisioningFurther.

Section Lifecycle.
Context {T : Type} `{!Runtime T}.

Implicit Types (b : Backend) (this_options : obj) (subs : list Subscription)
  (providers : list (PubSubExplorer.InstanceWrapper T)).

Lemma bind_run_Normal {A B} (m : M T A) (k : A → M T B) b (a : A) b1
    (ev1 : list (Event T)) :
  m b = (Normal a, b1, ev1) →
  (m ≫= k) b = (result_of (k a b1), backend_of (k a b1), ev1 ++ events_of (k a b1)).
Proof.
  intros Hm. unfold mbind, M_bind, bind. rewrite Hm.
  by destruct (k a b1) as [[? ?] ?].
Qed.

Lemma bind_run_Throw {A B} (m : M T A) (k : A → M T B) b (e : thrown) b1
    (ev1 : list (Event T)) :
  m b = (Throw e, b1, ev1) → (m ≫= k) b = (Throw e, b1, ev1).
Proof. intros Hm. unfold mbind, M_bind, bind. by rewrite Hm. Qed.

Lemma run_eta {A} (r : completion A * Backend * list (Event T)) :
  r = (result_of r, backend_of r, events_of r).
Proof. by destruct r as [[? ?] ?]. Qed.

Lemma onModuleInit_undecorated this_options
    (w : PubSubExplorer.InstanceWrapper T) providers subs b :
  decorated w = None →
  PubSubExplorer.onModuleInit this_options (w :: providers) subs b =
  PubSubExplorer.onModuleInit this_options providers subs b.
Proof.
  unfold decorated. simpl.
  by destruct (PubSubExplorer.instance w), (PubSubExplorer.metadata w).
Qed.

Lemma onModuleInit_decorated this_options
    (w : PubSubExplorer.InstanceWrapper T) inst meta providers subs b :
  PubSubExplorer.instance w = Some inst →
  PubSubExplorer.metadata w = Some meta →
  PubSubExplorer.onModuleInit this_options (w :: providers) subs b =
  (PubSubExplorer.setupHandler this_options inst meta subs ≫=
     λ subs', PubSubExplorer.onModuleInit this_options providers subs') b.
Proof. intros Hi Hm. simpl. by rewrite Hi, Hm. Qed.

(** X11. Providers without an instance, or whose class carries no listener
    metadata, are passed over: a discovery pass over such providers alone
    makes no call at all and records no subscription. *)
Theorem undecorated_providers_are_skipped this_options providers subs b :
  Forall (λ w, decorated w = None) providers →
  PubSubExplorer.onModuleInit this_options providers subs b = (Normal subs, b, []).
Proof.
  induction 1 as [|w providers Hw _ IH]; [done|].
  by rewrite onModuleInit_undecorated.
Qed.

Lemma onModuleInit_skip_prefix this_options (pre : list (PubSubExplorer.InstanceWrapper T))
    providers subs b :
  Forall (λ w, decorated w = None) pre →
  PubSubExplorer.onModuleInit this_options (pre ++ providers) subs b =
  PubSubExplorer.onModuleInit this_options providers subs b.
Proof.
  induction 1 as [|w pre Hw _ IH]; [done|].
  simpl app. by rewrite onModuleInit_undecorated.
Qed.

(** X12. Startup is fail-fast: when the setup of the first decorated
    provider throws, [onModuleInit] throws that same error and stops
    there; the providers after it are never looked at, whatever they
    are. *)
Theorem startup_is_fail_fast this_options
    (pre rest : list (PubSubExplorer.InstanceWrapper T))
    (w : PubSubExplorer.InstanceWrapper T) inst meta subs b (e : thrown) :
  Forall (λ w, decorated w = None) pre →
  PubSubExplorer.instance w = Some inst →
  PubSubExplorer.metadata w = Some meta →
  result_of (PubSubExplorer.setupHandler this_options inst meta subs b) = Throw e →
  PubSubExplorer.onModuleInit this_options (pre ++ w :: rest) subs b =
  PubSubExplorer.setupHandler this_options inst meta subs b.
Proof.
  intros Hpre Hi Hm Hthrow.
  rewrite (onModuleInit_skip_prefix _ _ _ _ _ Hpre).
  rewrite (onModuleInit_decorated _ _ _ _ _ _ _ Hi Hm).
  destruct (PubSubExplorer.setupHandler this_options inst meta subs b)
    as [[res b1] ev1] eqn:Hrun.
  unfold result_of in Hthrow. simpl in Hthrow. subst res.
  by apply bind_run_Throw.
Qed.

(** Ensuring one listener's infrastructure keeps another's. *)
Lemma ensured_preserves (s s' : Subscription) (options : obj) b :
  provisioned_for s b → provisioned_for s (ensured s' options b).
Proof.
  intros [Hin Hlive]. unfold provisioned_for, subscription_live, ensured in *.
  destruct (bool_decide (sub_topic s' ∈ topics b)); simpl;
    destruct (bool_decide_reflect (is_Some (subscriptions b !! sub_key s')))
      as [Hs | Hs]; simpl; (split; [set_solver|]); try done.
  - destruct (decide (sub_key s' = sub_key s)) as [Heq | Hne].
    + rewrite Heq in Hs. done.
    + by rewrite lookup_insert_ne.
  - destruct (decide (sub_key s' = sub_key s)) as [Heq | Hne].
    + rewrite Heq in Hs. done.
    + by rewrite lookup_insert_ne.
Qed.

Lemma count_cat (p : Event T → bool) (l1 l2 : list (Event T)) :
  count p (l1 ++ l2) = (count p l1 + count p l2)%nat.
Proof. unfold count. by rewrite filter_app, length_app. Qed.

(** X13. A startup that completes has set up every decorated provider, in
    discovery order: the recorded subscriptions are the initial ones
    followed by one handle per decorated provider, one ["message"] listener
    was attached per decorated provider, and the topic and subscription of
    each of them exist in the backend. *)
Theorem completed_startup_sets_up_every_listener this_options providers subs subs' b :
  let r := PubSubExplorer.onModuleInit this_options providers subs b in
  result_of r = Normal subs' →
  subs' = subs ++ decorated_handles providers ∧
  count (is_listen "message") (events_of r) = length (decorated_handles providers) ∧
  count (is_listen "error") (events_of r) = 0%nat ∧
  Forall (λ s, provisioned_for s (backend_of r)) (decorated_handles providers) ∧
  (∀ s, provisioned_for s b → provisioned_for s (backend_of r)).
Proof.
  revert subs subs' b.
  induction providers as [|w providers IH]; intros subs subs' b r Hok; subst r.
  - simpl in *. injection Hok as <-. by rewrite app_nil_r.
  - destruct (decorated w) as [meta|] eqn:Hdec.
    + unfold decorated in Hdec.
      destruct (PubSubExplorer.instance w) as [inst|] eqn:Hi; [|done].
      destruct (PubSubExplorer.metadata w) as [meta'|] eqn:Hm; [|done].
      injection Hdec as ->.
      assert (decorated_handles (w :: providers)
              = handle_of meta :: decorated_handles providers) as ->.
      { unfold decorated_handles. simpl. unfold decorated at 1. by rewrite Hi, Hm. }
      rewrite (onModuleInit_decorated _ _ _ _ _ _ _ Hi Hm) in *.
      pose proof (setupHandler_outcome this_options inst meta subs b) as Hs.
      cbv zeta in Hs.
      destruct (PubSubExplorer.setupHandler this_options inst meta subs b)
        as [[res b1] ev1] eqn:Hrun.
      unfold result_of, backend_of, events_of in Hs. simpl in Hs.
      destruct (_ || _) in Hs.
      * destruct Hs as (-> & -> & Hmsg & Herr & _).
        rewrite (bind_run_Normal _ _ _ _ _ _ Hrun) in *.
        change (result_of (PubSubExplorer.onModuleInit this_options providers
                  (subs ++ [handle_of meta])
                  (ensured (handle_of meta) (PubSubExplorer.mergedOptions meta) b))
                = Normal subs') in Hok.
        specialize (IH _ _ _ Hok) as (-> & Hcount & Hcount' & Hall & Hmono).
        set (r := PubSubExplorer.onModuleInit _ _ _ _) in *.
        change (events_of (result_of r, backend_of r, ev1 ++ events_of r))
          with (ev1 ++ events_of r).
        change (backend_of (result_of r, backend_of r, ev1 ++ events_of r))
          with (backend_of r).
        rewrite !count_cat, Hmsg, Herr, Hcount, Hcount'.
        rewrite <- (assoc_L (++)). simpl.
        split; [done|]. split; [done|]. split; [done|]. split.
        -- constructor; [|done]. apply Hmono. apply ensured_provisioned.
        -- intros s0 Hs0. apply Hmono. by apply ensured_preserves.
      * destruct Hs as (-> & _).
        rewrite (bind_run_Throw _ _ _ _ _ _ Hrun) in Hok. done.
    + assert (decorated_handles (w :: providers) = decorated_handles providers) as ->.
      { unfold decorated_handles. simpl. by rewrite Hdec. }
      rewrite onModuleInit_undecorated in * by done. by apply IH.
Qed.

(** [onModuleDestroy] closes the subscriptions it is given, one call each,
    in order, and does nothing else. *)
Lemma onModuleDestroy_run subs b :
  PubSubExplorer.onModuleDestroy (T := T) subs b =
  (Normal tt, b, map Call_subscription_close subs).
Proof.
  induction subs as [|s subs IH]; [done|].
  simpl. unfold mbind, M_bind, bind, subscription_close, emit.
  by rewrite IH.
Qed.

Lemma closed_map_close subs :
  closed (T := T) (map Call_subscription_close subs) = subs.
Proof.
  induction subs as [|s subs IH]; [done|].
  unfold closed in *. cbn [map omap list_omap]. by f_equal.
Qed.

(** X14. Shutdown closes every recorded subscription exactly once, in the
    order recorded, never fails, makes no other call and leaves the backend
    as it is. *)
Theorem shutdown_closes_each_subscription_once subs b :
  let r := PubSubExplorer.onModuleDestroy (T := T) subs b in
  result_of r = Normal tt ∧
  backend_of r = b ∧
  events_of r = map Call_subscription_close subs ∧
  closed (events_of r) = subs.
Proof.
  intros r. subst r. rewrite onModuleDestroy_run.
  unfold result_of, backend_of, events_of. simpl.
  by rewrite closed_map_close.
Qed.

End Lifecycle.

Section PublishingFurther.
Context {T : Type} `{!Runtime T}.

Implicit Types (b : Backend) (t : string) (this_options : obj) (data : T)
  (options : option PubsubPublisher.DispatchOptions).

Ltac unfold_backend :=
  unfold topic_exists, topic_create, subscription_exists, subscription_create,
    topic_publishMessage in *.

Ltac observe :=
  unfold count, result_of, backend_of, events_of, logged_payloads, publish_calls,
    add_published, add_topic; simpl.

(** A payload the serializer rejects ends [dispatchEvent] before its first
    statement after the encoding. *)
Lemma dispatchEvent_unencodable this_options t data options b (e : thrown) :
  PubsubPublisher.encode data = Throw e →
  PubsubPublisher.dispatchEvent this_options t data options b = (Throw e, b, []).
Proof.
  intros Henc. unfold PubsubPublisher.dispatchEvent. rewrite Henc. by unfold_M.
Qed.

(** How [dispatchEvent] runs once the payload is encoded, by what exists and
    how the backend answers. *)
Lemma dispatchEvent_run this_options t data body options b :
  PubsubPublisher.encode data = Normal body →
  let attrs := default ∅ (options ≫= PubsubPublisher.attributes) in
  let logObject := dispatch_logObject t data body options in
  let b1 := if bool_decide (t ∈ topics b) then b else add_topic t b in
  let provision :=
    if bool_decide (t ∈ topics b) then [Call_topic_exists t]
    else [Call_topic_exists t;
          Call_logger Warn ("Topic '" +:+ t +:+ "' does not exist. Auto-creating...")
            [Arg_string "PubsubPublisher"];
          Call_topic_create t;
          Call_logger Log ("Topic '" +:+ t +:+ "' created successfully.")
            [Arg_string "PubsubPublisher"]] in
  PubsubPublisher.dispatchEvent this_options t data options b =
  if bool_decide (t ∈ topics b) || truthy (get this_options "autoCreateTopics") then
    match publish_reply b t body attrs with
    | Normal mid =>
        (Normal mid, add_published t body attrs b1,
         Call_logger Log "Dispatching event..."
           [Arg_string "PubsubPublisher"; Arg_meta logObject]
         :: provision ++
         [Call_publishMessage t body attrs;
          Call_logger Log "Event dispatched successfully"
            [Arg_string "PubsubPublisher";
             Arg_meta {| lm_topicName := lm_topicName logObject;
                         lm_attributes := lm_attributes logObject;
                         lm_payloadSize := lm_payloadSize logObject;
                         lm_payload := lm_payload logObject;
                         lm_messageId := Some mid |}]])
    | Throw err =>
        (Throw err, b1,
         Call_logger Log "Dispatching event..."
           [Arg_string "PubsubPublisher"; Arg_meta logObject]
         :: provision ++
         [Call_publishMessage t body attrs;
          Call_logger Error "Failed to dispatch event"
            [Arg_stack (stack (normalizeError err)); Arg_string "PubsubPublisher";
             Arg_meta logObject]])
    end
  else
    (Throw (publisher_missing_topic t), b,
     [Call_logger Log "Dispatching event..."
        [Arg_string "PubsubPublisher"; Arg_meta logObject];
      Call_topic_exists t;
      Call_logger Error "Failed to dispatch event"
        [Arg_stack (stack (normalizeError (publisher_missing_topic t)));
         Arg_string "PubsubPublisher"; Arg_meta logObject]]).
Proof.
  intros Henc attrs logObject b1 provision. subst b1 provision.
  destruct (bool_decide_reflect (t ∈ topics b)) as [Hin | Hout]; cbn [orb].
  - destruct (publish_reply b t body attrs) as [mid | err] eqn:Hreply.
    + by rewrite (dispatchEvent_published this_options t data body options b mid
                    Henc Hin Hreply).
    + by rewrite (dispatchEvent_publish_failure this_options t data body options b err
                    Henc Hin Hreply).
  - destruct (truthy (get this_options "autoCreateTopics")) eqn:Hauto.
    + rewrite (dispatchEvent_encoded this_options t data body options b Henc).
      unfold mbind at 1, M_bind at 1, bind at 1, logger_log at 1, emit at 1.
      unfold try_catch. unfold mbind at 1, M_bind at 1, bind at 1.
      rewrite (publisher_missing_topic_created this_options t b Hout Hauto).
      unfold_M. unfold_backend. fold attrs.
      change (publish_reply (add_topic t b)) with (publish_reply b).
      by destruct (publish_reply b t body attrs).
    + by rewrite (publisher_dispatch_missing_topic_fatal this_options t data body
                    options b Henc Hout Hauto).
Qed.

(** X15. A payload that cannot be serialized makes [dispatchEvent] throw the
    serializer's error before anything else happens: no log line, no
    backend call, and the error is not routed through the failure log. *)
Theorem unserializable_payload_fails_before_any_effect
    this_options t data options b (e : thrown) :
  JSON_stringify data = Throw e →
  PubsubPublisher.dispatchEvent this_options t data options b = (Throw e, b, []).
Proof.
  intros Hs. apply dispatchEvent_unencodable.
  unfold PubsubPublisher.encode. by rewrite Hs.
Qed.

(** X16. Payload redaction: unless [logPayload] is exactly [true], no log
    line of [dispatchEvent] carries the payload, on any path; and a logged
    payload is never anything but the dispatched data. *)
Theorem payload_is_logged_only_on_request this_options t data options b :
  let r := PubsubPublisher.dispatchEvent this_options t data options b in
  (options ≫= PubsubPublisher.logPayload ≠ Some true →
     logged_payloads (events_of r) = []) ∧
  Forall (λ p, p = data) (logged_payloads (events_of r)).
Proof.
  intros r. subst r.
  destruct (PubsubPublisher.encode data) as [body | e] eqn:Henc.
  - rewrite (dispatchEvent_run this_options t data body options b Henc).
    cbv zeta. unfold dispatch_logObject.
    destruct (options ≫= PubsubPublisher.logPayload) as [[]|];
      destruct (bool_decide (t ∈ topics b));
      destruct (truthy (get this_options "autoCreateTopics"));
      destruct (publish_reply b t body _); observe;
      unfold Arg_stack; try destruct (stack (normalizeError _)); cbn;
      (split; [intros Hne; done || by destruct Hne | repeat constructor]).
  - rewrite (dispatchEvent_unencodable this_options t data options b e Henc).
    observe. by split.
Qed.

(** X17. Once the payload is encoded, [dispatchEvent] either returns the
    id the backend answered, with exactly that one message appended to what
    has been published and no error line logged; or it throws, with nothing
    published and exactly one error line logged, and the error is the
    backend's own or the missing-topic error. *)
Theorem dispatch_publishes_iff_it_returns this_options t data body options b :
  PubsubPublisher.encode data = Normal body →
  let attrs := default ∅ (options ≫= PubsubPublisher.attributes) in
  let r := PubsubPublisher.dispatchEvent this_options t data options b in
  match result_of r with
  | Normal mid =>
      publish_reply b t body attrs = Normal mid ∧
      published (backend_of r) = published b ++ [(t, body, attrs)] ∧
      count is_error_log (events_of r) = 0%nat
  | Throw e =>
      published (backend_of r) = published b ∧
      count is_error_log (events_of r) = 1%nat ∧
      (publish_reply b t body attrs = Throw e ∨
       (e = publisher_missing_topic t ∧ (t ∉ topics b) ∧
        publish_calls (events_of r) = []))
  end.
Proof.
  intros Henc attrs r. subst r.
  rewrite (dispatchEvent_run this_options t data body options b Henc).
  cbv zeta. fold attrs.
  destruct (bool_decide_reflect (t ∈ topics b)) as [Hin | Hout];
    destruct (truthy (get this_options "autoCreateTopics"));
    cbn [orb];
    try (destruct (publish_reply b t body attrs) as [mid | err] eqn:Hreply);
    observe; repeat split; auto.
Qed.

(** X18. Publishing to a missing topic with auto-creation on creates the
    topic with one create call and then publishes once; the topic stays
    created even when the publish request fails, so that a second dispatch
    creates nothing. *)
Theorem dispatch_auto_creates_topic_once this_options t data body options b :
  PubsubPublisher.encode data = Normal body →
  t ∉ topics b →
  truthy (get this_options "autoCreateTopics") = true →
  let attrs := default ∅ (options ≫= PubsubPublisher.attributes) in
  let r := PubsubPublisher.dispatchEvent this_options t data options b in
  let r' := PubsubPublisher.dispatchEvent this_options t data options (backend_of r) in
  count is_topic_create (events_of r) = 1%nat ∧
  publish_calls (events_of r) = [(t, body, attrs)] ∧
  topics (backend_of r) = {[ t ]} ∪ topics b ∧
  count is_topic_create (events_of r') = 0%nat ∧
  publish_calls (events_of r') = [(t, body, attrs)].
Proof.
  intros Henc Hout Hauto attrs r r'.
  pose proof (dispatchEvent_run this_options t data body options b Henc) as Hrun.
  cbv zeta in Hrun. fold attrs in Hrun.
  rewrite (bool_decide_eq_false_2 _ Hout), Hauto in Hrun. cbn [orb] in Hrun.
  assert (∀ b', t ∈ topics b' → publish_reply b' = publish_reply b →
            count is_topic_create (events_of
              (PubsubPublisher.dispatchEvent this_options t data options b')) = 0%nat ∧
            publish_calls (events_of
              (PubsubPublisher.dispatchEvent this_options t data options b'))
              = [(t, body, attrs)]) as Hagain.
  { intros b' Hin Hsame.
    rewrite (dispatchEvent_run this_options t data body options b' Henc).
    cbv zeta. fold attrs. rewrite (bool_decide_eq_true_2 _ Hin). cbn [orb].
    by destruct (publish_reply b' t body attrs). }
  subst r' r.
  destruct (publish_reply b t body attrs) as [mid | err]; rewrite Hrun;
    (split; [done|]); (split; [done|]); (split; [done|]);
    (apply Hagain; [observe; by apply elem_of_union_l, elem_of_singleton | done]).
Qed.

(** X19. [dispatchEvent] never touches a subscription and never removes a
    topic; the only topic it can add is the one it publishes to, and with
    auto-creation off it adds none. *)
Theorem dispatch_leaves_infrastructure this_options t data options b :
  let r := PubsubPublisher.dispatchEvent this_options t data options b in
  subscriptions (backend_of r) = subscriptions b ∧
  count is_subscription_create (events_of r) = 0%nat ∧
  topics b ⊆ topics (backend_of r) ∧
  topics (backend_of r) ⊆ {[ t ]} ∪ topics b ∧
  (truthy (get this_options "autoCreateTopics") = false →
     topics (backend_of r) = topics b ∧ count is_topic_create (events_of r) = 0%nat).
Proof.
  intros r. subst r.
  destruct (PubsubPublisher.encode data) as [body | e] eqn:Henc.
  - rewrite (dispatchEvent_run this_options t data body options b Henc).
    cbv zeta.
    destruct (bool_decide_reflect (t ∈ topics b)) as [Hin | Hout];
      destruct (truthy (get this_options "autoCreateTopics"));
      cbn [orb];
      try (destruct (publish_reply b t body _) as [mid | err]);
      observe; (repeat split; [set_solver ..]).
  - rewrite (dispatchEvent_unencodable this_options t data options b e Henc).
    observe. repeat split; set_solver.
Qed.

End PublishingFurther.

Section DispatchFurther.
Context {T : Type} `{!Runtime T}.

Implicit Types (msg : Message) (b : Backend) (payload : T) (e : thrown).

Lemma count_ack_events (p : Event T → bool) msg (l : list AckOp) :
  (∀ o, p (ack_event msg o) = false) →
  count p (map (ack_event msg) l) = 0%nat.
Proof.
  intros Hp. induction l as [|o l IH]; [done|].
  unfold count in *. cbn [map]. rewrite filter_cons_False; [done|].
  by rewrite Hp.
Qed.

Lemma count_cons (p : Event T → bool) (x : Event T) (l : list (Event T)) :
  count p (x :: l) = ((if p x then 1 else 0) + count p l)%nat.
Proof.
  unfold count. destruct (p x) eqn:Hx.
  - by rewrite filter_cons_True.
  - rewrite filter_cons_False; [done|]. by rewrite Hx.
Qed.

(** The events of a callback after a successful parse are contained. *)
Lemma dispatch_contained msg payload (run : HandlerRun) (text : thrown → string)
    (params : thrown → list (LogArg T)) b :
  contained b
    (Normal tt, b,
     Call_handler payload msg :: map (ack_event msg) (ops run) ++
     match outcome run with
     | Normal _ => []
     | Throw e => [Call_logger Error (text e) (params e); Call_nack ByCore msg]
     end).
Proof.
  unfold contained, result_of, backend_of, events_of. cbn [fst snd].
  match goal with
  | |- context [handler_calls (Call_handler payload msg :: ?l)] =>
      change (handler_calls (Call_handler payload msg :: l))
        with ((payload, msg) :: handler_calls l)
  end.
  rewrite !count_cons, !count_cat, !handler_calls_app.
  rewrite !count_ack_events by (by intros []).
  rewrite handler_calls_ack_event.
  destruct (outcome run); rewrite ?count_cons; cbn; repeat split; lia.
Qed.

(** X20. Whatever the message and whatever the handler does, the message
    callback of either variant completes normally and leaves the backend
    alone; the library itself never calls [ack()], calls [nack()] at most
    once, logs an error exactly when it does, and runs the handler at most
    once. *)
Theorem message_callbacks_are_contained
    (this : PubsubBaseListener.Listener T) (inst : PubSubExplorer.Instance T) msg b :
  contained b (PubsubBaseListener.message_callback this msg b) ∧
  contained b (PubSubExplorer.message_callback inst msg b).
Proof.
  destruct (JSON_parse (Buffer_toString (data msg))) as [payload | e] eqn:Hparse.
  - split.
    + rewrite base_message_callback_onMessage.
      rewrite (base_onMessage_parsed this msg payload b Hparse). cbv zeta.
      apply (dispatch_contained msg payload _ (λ e, _) (λ e, _) b).
    + destruct (PubSubExplorer.handle inst) as [h|] eqn:Hh.
      * rewrite (explorer_callback_parsed inst h msg payload b Hparse Hh). cbv zeta.
        apply (dispatch_contained msg payload _ (λ e, _) (λ e, _) b).
      * unfold PubSubExplorer.message_callback, PubSubExplorer.call_handle. unfold_M.
        rewrite Hparse, Hh. unfold contained, count. simpl. repeat split; lia.
  - split.
    + rewrite base_message_callback_onMessage.
      rewrite (base_onMessage_parse_failure this msg e b Hparse).
      unfold contained, count. simpl. repeat split; lia.
    + rewrite (explorer_callback_parse_failure inst msg e b Hparse).
      unfold contained, count. simpl. repeat split; lia.
Qed.

(** X21. A decorated provider whose instance has no [handle] method: for a
    message that parses, no user code runs, the failed call is logged once
    and the message is rejected once. *)
Theorem missing_handle_method_is_nacked (inst : PubSubExplorer.Instance T)
    msg payload b :
  JSON_parse (Buffer_toString (data msg)) = Normal payload →
  PubSubExplorer.handle inst = None →
  let r := PubSubExplorer.message_callback inst msg b in
  result_of r = Normal tt ∧
  handler_calls (events_of r) = [] ∧
  ack_calls (events_of r) = [(ByCore, Nack)] ∧
  count is_error_log (events_of r) = 1%nat.
Proof.
  intros Hparse Hh r. subst r.
  unfold PubSubExplorer.message_callback, PubSubExplorer.call_handle. unfold_M.
  by rewrite Hparse, Hh.
Qed.

(** X22. The two variants treat a message alike: given the same handler,
    for every message (parsing or not, handler failing or not) the
    callbacks invoke the handler with the same arguments and make the same
    calls on the message handle, in the same order. *)
Theorem variants_treat_messages_alike
    (this : PubsubBaseListener.Listener T) (inst : PubSubExplorer.Instance T)
    (h : T → Message → HandlerRun) msg b :
  PubsubBaseListener.handlePayload this = h →
  PubSubExplorer.handle inst = Some h →
  let base := PubsubBaseListener.message_callback this msg b in
  let explorer := PubSubExplorer.message_callback inst msg b in
  handler_calls (events_of base) = handler_calls (events_of explorer) ∧
  ack_calls (events_of base) = ack_calls (events_of explorer) ∧
  result_of base = result_of explorer ∧
  backend_of base = backend_of explorer.
Proof.
  intros Hbase Hexp base explorer. subst base explorer.
  destruct (JSON_parse (Buffer_toString (data msg))) as [payload | e] eqn:Hparse.
  - pose proof (dispatch_after_parse this inst h msg payload b Hparse Hbase Hexp)
      as Hboth.
    destruct (Hboth _ (or_introl eq_refl)) as (-> & -> & -> & -> & _).
    by destruct (Hboth _ (or_intror eq_refl)) as (-> & -> & -> & -> & _).
  - rewrite base_message_callback_onMessage.
    rewrite (base_onMessage_parse_failure this msg e b Hparse).
    by rewrite (explorer_callback_parse_failure inst msg e b Hparse).
Qed.

End DispatchFurther.

Section ConfigurationFurther.
Context {T : Type} `{!Runtime T}.

Implicit Types (options config : obj) (b : Backend).

Lemma merged_flag options :
  truthy (get (PubsubModule_explorer.mergeDefaultOptions options) "autoCreateTopics")
  = truthy (get options "autoCreateTopics").
Proof.
  unfold get. rewrite mergeDefaultOptions_lookup.
  by destruct (options !! "autoCreateTopics").
Qed.

Lemma base_merged_flag options :
  truthy (get (PubsubModule_base.mergedOptions options) "autoCreateTopics")
  = truthy (get options "autoCreateTopics").
Proof.
  rewrite <- (merged_flag options). unfold get. by rewrite base_mergedOptions_lookup.
Qed.

Lemma base_merged_emulatorMode options :
  truthy (get (PubsubModule_base.mergedOptions options) "emulatorMode")
  = truthy (get options "emulatorMode").
Proof.
  rewrite <- (mergeDefaultOptions_emulatorMode options). unfold get.
  by rewrite base_mergedOptions_lookup.
Qed.

Lemma merged_other options (k : string) :
  k ≠ "emulatorMode" → k ≠ "autoCreateTopics" →
  PubsubModule_explorer.mergeDefaultOptions options !! k = options !! k.
Proof.
  intros ? ?. rewrite mergeDefaultOptions_lookup.
  destruct (options !! k); [done|].
  by rewrite lookup_insert_ne, lookup_singleton_ne.
Qed.

Lemma base_merged_other options (k : string) :
  k ≠ "logger" → k ≠ "emulatorMode" → k ≠ "autoCreateTopics" →
  PubsubModule_base.mergedOptions options !! k = options !! k.
Proof.
  intros ? ? ?. rewrite base_mergedOptions_lookup by done. by apply merged_other.
Qed.

Lemma merged_logger options :
  get (PubsubModule_explorer.mergeDefaultOptions options) "logger" = get options "logger".
Proof.
  unfold get. rewrite mergeDefaultOptions_lookup.
  by destruct (options !! "logger").
Qed.

(** X23. In emulator mode neither variant hands key material to the client:
    whatever the caller configured, the client's configuration has no
    [keyFilename] and no [credentials]. *)
Theorem emulator_client_carries_no_credentials options (c : PubSub) :
  truthy (get options "emulatorMode") = true →
  PUBSUB_CLIENT (PubsubModule_explorer.register options) = Normal c ∨
  PUBSUB_CLIENT (PubsubModule_base.register options) = Normal c →
  client_config c !! "keyFilename" = None ∧
  client_config c !! "credentials" = None.
Proof.
  intros Hemu [Hc | Hc].
  - unfold PubsubModule_explorer.register, PubsubModule_explorer.createClient in Hc.
    simpl in Hc. rewrite mergeDefaultOptions_emulatorMode, Hemu in Hc.
    destruct (negb _); [done|].
    destruct (String_of _); [|done].
    by injection Hc as <-.
  - unfold PubsubModule_base.register, PubsubModule_base.pubSubClientProvider in Hc.
    simpl in Hc.
    rewrite base_merged_emulatorMode, Hemu in Hc. by injection Hc as <-.
Qed.

(** X24. Outside emulator mode the base-class module hands the client at
    most one kind of key material: [keyFilename] when the caller gave a
    truthy one, else [credentials] when that is truthy, never both; the
    discovery module passes both properties on as they are. *)
Theorem cloud_client_key_material options :
  truthy (get options "emulatorMode") = false →
  (∃ c, PUBSUB_CLIENT (PubsubModule_base.register options) = Normal c ∧
        client_config c !! "keyFilename" =
          (if truthy (get options "keyFilename")
           then Some (get options "keyFilename") else None) ∧
        client_config c !! "credentials" =
          (if negb (truthy (get options "keyFilename")) &&
              truthy (get options "credentials")
           then Some (get options "credentials") else None)) ∧
  (∃ c, PUBSUB_CLIENT (PubsubModule_explorer.register options) = Normal c ∧
        client_config c !! "keyFilename" = Some (get options "keyFilename") ∧
        client_config c !! "credentials" = Some (get options "credentials") ∧
        client_config c !! "apiEndpoint" = None).
Proof.
  intros Hemu. split.
  - unfold PubsubModule_base.register, PubsubModule_base.pubSubClientProvider. simpl.
    rewrite base_merged_emulatorMode, Hemu.
    unfold has, get. rewrite !base_merged_other by done.
    destruct (options !! "keyFilename") as [kf|];
      destruct (options !! "credentials") as [cr|]; simpl;
      repeat case_bool_decide; simpl;
      try (exfalso; by eauto using is_Some_None);
      try destruct (truthy kf); try destruct (truthy cr); simpl;
      eexists; (split; [reflexivity|]); done.
  - unfold PubsubModule_explorer.register, PubsubModule_explorer.createClient. simpl.
    rewrite mergeDefaultOptions_emulatorMode, Hemu.
    eexists. split; [reflexivity|]. simpl.
    unfold get. by rewrite !merged_other.
Qed.

(** X25. The logger bound to [PUBSUB_LOGGER] is the same in both module
    variants: the caller's logger when it is truthy, and a new
    [Logger("PubsubModule")] otherwise; it is never falsy. *)
Theorem logger_resolves_alike options :
  PUBSUB_LOGGER (PubsubModule_base.register options) =
  PUBSUB_LOGGER (PubsubModule_explorer.register options) ∧
  PUBSUB_LOGGER (PubsubModule_explorer.register options) =
    (if truthy (get options "logger") then get options "logger"
     else new_Logger "PubsubModule") ∧
  truthy (PUBSUB_LOGGER (PubsubModule_explorer.register options)) = true.
Proof.
  unfold PubsubModule_base.register, PubsubModule_explorer.register,
    PubsubModule_explorer.createLoggerProvider. simpl.
  rewrite merged_logger.
  unfold PubsubModule_base.mergedOptions, get at 1. rewrite lookup_insert_eq. simpl.
  unfold js_or. split; [done|]. split; [done|].
  by destruct (truthy (get options "logger")) eqn:Hl.
Qed.

(** X26. Merging the module defaults is idempotent in both variants, and
    the caller's value always wins: every property the caller gave is in
    the merged options unchanged (in the base-class variant, every property
    but [logger]). *)
Theorem module_defaults_merge_once options :
  PubsubModule_explorer.mergeDefaultOptions
    (PubsubModule_explorer.mergeDefaultOptions options)
  = PubsubModule_explorer.mergeDefaultOptions options ∧
  PubsubModule_base.mergedOptions (PubsubModule_base.mergedOptions options)
  = PubsubModule_base.mergedOptions options ∧
  (∀ (k : string) v, options !! k = Some v →
     PubsubModule_explorer.mergeDefaultOptions options !! k = Some v ∧
     (k ≠ "logger" → PubsubModule_base.mergedOptions options !! k = Some v)).
Proof.
  assert (∀ o, PubsubModule_explorer.mergeDefaultOptions
                 (PubsubModule_explorer.mergeDefaultOptions o)
               = PubsubModule_explorer.mergeDefaultOptions o) as Hidem.
  { intros o. apply map_eq. intros k. rewrite !mergeDefaultOptions_lookup.
    destruct (o !! k); [done|]. by destruct (_ !! k). }
  split; [apply Hidem|]. split.
  - apply map_eq. intros k.
    destruct (decide (k = "logger")) as [-> | Hk].
    + unfold PubsubModule_base.mergedOptions. rewrite !lookup_insert_eq.
      unfold get at 1. rewrite lookup_insert_eq. simpl. unfold js_or.
      by destruct (truthy (get options "logger")) eqn:Hl; rewrite ?Hl.
    + rewrite !base_mergedOptions_lookup by done.
      rewrite mergeDefaultOptions_lookup.
      rewrite !base_mergedOptions_lookup by done.
      rewrite mergeDefaultOptions_lookup.
      destruct (options !! k); [done|]. by destruct (_ !! k).
  - intros k v Hk. split.
    + by rewrite mergeDefaultOptions_lookup, Hk.
    + intros Hne. by rewrite base_mergedOptions_lookup, mergeDefaultOptions_lookup, Hk.
Qed.

(** X27. From registration to startup: when the caller leaves
    [autoCreateTopics] out, the options either module variant hands to its
    listeners and publisher make a missing topic fatal: the explorer's
    setup, the base listener's startup and the publisher's dispatch all
    throw, and create nothing. *)
Theorem omitted_flag_makes_missing_topic_fatal options
    (inst : PubSubExplorer.Instance T) (meta : PubSubExplorer.PubSubListenerOptions)
    (this : PubsubBaseListener.Listener T) (subs : list Subscription)
    (t : string) (data : T) (body : Buffer)
    (dispatch : option PubsubPublisher.DispatchOptions) b :
  options !! "autoCreateTopics" = None →
  t ∉ topics b →
  PubSubExplorer.topicName meta = t →
  PubsubBaseListener.topicName this = t →
  PubsubPublisher.encode data = Normal body →
  let explorer := PUBSUB_MERGED_OPTIONS (PubsubModule_explorer.register options) in
  let base := PUBSUB_MERGED_OPTIONS (PubsubModule_base.register options) in
  let r1 := PubSubExplorer.setupHandler explorer inst meta subs b in
  let r2 := PubsubBaseListener.onModuleInit base this b in
  let r3 := PubsubPublisher.dispatchEvent explorer t data dispatch b in
  let r4 := PubsubPublisher.dispatchEvent base t data dispatch b in
  (result_of r1 = Throw (listener_missing_topic t) ∧ backend_of r1 = b) ∧
  (result_of r2 = Throw (listener_missing_topic t) ∧ backend_of r2 = b) ∧
  (result_of r3 = Throw (publisher_missing_topic t) ∧ backend_of r3 = b) ∧
  (result_of r4 = Throw (publisher_missing_topic t) ∧ backend_of r4 = b).
Proof.
  intros Homitted Hout Hmeta Hthis Henc explorer base r1 r2 r3 r4.
  assert (truthy (get explorer "autoCreateTopics") = false) as Hexp.
  { subst explorer. unfold PubsubModule_explorer.register. simpl.
    rewrite merged_flag. unfold get. by rewrite Homitted. }
  assert (truthy (get base "autoCreateTopics") = false) as Hbase.
  { subst base. unfold PubsubModule_base.register. simpl.
    rewrite base_merged_flag. unfold get. by rewrite Homitted. }
  split; [|split; [|split]].
  - pose proof (setupHandler_outcome explorer inst meta subs b) as Hs.
    cbv zeta in Hs. change (sub_topic (handle_of meta)) with (PubSubExplorer.topicName meta) in Hs.
    rewrite Hmeta, (bool_decide_eq_false_2 _ Hout), Hexp in Hs.
    by destruct Hs as (? & ? & _).
  - pose proof (base_onModuleInit_outcome base this b) as Hs.
    cbv zeta in Hs.
    change (sub_topic (base_handle this)) with (PubsubBaseListener.topicName this) in Hs.
    rewrite Hthis, (bool_decide_eq_false_2 _ Hout), Hbase in Hs.
    by destruct Hs as (? & ? & _).
  - subst r3.
    by rewrite (publisher_dispatch_missing_topic_fatal explorer t data body dispatch b
                  Henc Hout Hexp).
  - subst r4.
    by rewrite (publisher_dispatch_missing_topic_fatal base t data body dispatch b
                  Henc Hout Hbase).
Qed.

Implicit Types (async : PubsubModule_async.PubsubModuleAsyncOptions).

(** X28. [registerAsync] rejects a configuration exactly when it names none
    of [useFactory], [useClass] and [useExisting]; it then throws the
    invalid-configuration error, synchronously. *)
Theorem registerAsync_requires_a_source async :
  (is_throw (PubsubModule_async.registerAsync async) = true ↔
   PubsubModule_async.useFactory async = None ∧
   PubsubModule_async.useClass async = None ∧
   PubsubModule_async.useExisting async = None) ∧
  (is_throw (PubsubModule_async.registerAsync async) = true →
   PubsubModule_async.registerAsync async =
   Throw (new_Error
     "PubsubModule: Invalid configuration. Provide useFactory, useClass, or useExisting")).
Proof.
  unfold PubsubModule_async.registerAsync, PubsubModule_async.createAsyncProviders.
  destruct (PubsubModule_async.useFactory async),
    (PubsubModule_async.useClass async),
    (PubsubModule_async.useExisting async); simpl; split; try done;
    split; try done; intros (? & ? & ?); done.
Qed.

(** X29. [useFactory] takes precedence: when it is given, [useClass] and
    [useExisting] are ignored, no class provider is registered, and the
    options factory injects [inject], nothing when that is left out.
    Without it, the factory injects [useClass], else [useExisting], and a
    class provider is registered exactly for [useClass]. *)
Theorem registerAsync_source_precedence async (m : PubsubModule_async.AsyncModule) :
  PubsubModule_async.registerAsync async = Normal m →
  let ps := PubsubModule_async.providers m in
  match PubsubModule_async.useFactory async with
  | Some _ =>
      class_providers ps = [] ∧
      options_inject ps = Some (default [] (PubsubModule_async.inject async))
  | None =>
      class_providers ps = option_list (PubsubModule_async.useClass async) ∧
      options_inject ps =
        Some (option_list
                (match PubsubModule_async.useClass async with
                 | Some c => Some c
                 | None => PubsubModule_async.useExisting async
                 end))
  end.
Proof.
  unfold PubsubModule_async.registerAsync, PubsubModule_async.createAsyncProviders.
  destruct (PubsubModule_async.useFactory async),
    (PubsubModule_async.useClass async),
    (PubsubModule_async.useExisting async); simpl; intros Hm;
    try discriminate; by injection Hm as <-.
Qed.

(** X30. Asynchronous registration binds what [register] binds: whatever
    the configured source (the [useFactory] function, or the injected
    options factory of [useClass] / [useExisting]) yields, the three tokens
    resolve to the bindings of [register] applied to the configuration it
    returns, and a failure of the source fails the resolution with the
    same error. *)
Theorem registerAsync_resolves_like_register async
    (args : list PubsubModule_async.Injected) (created : completion obj) :
  source_of async args = Some created →
  ∃ m, PubsubModule_async.registerAsync async = Normal m ∧
       resolved m args =
       Some (PubsubModule_async.await created (λ config,
             Normal (PubsubModule_explorer.register config))).
Proof.
  unfold source_of, PubsubModule_async.registerAsync,
    PubsubModule_async.createAsyncProviders.
  destruct (PubsubModule_async.useFactory async) as [f|].
  - intros [= <-]. simpl. eexists. split; [reflexivity|].
    unfold resolved. simpl. by destruct (f args).
  - destruct (PubsubModule_async.useClass async) as [c|].
    + destruct args as [|[v | c'] rest]; intros [= Heq]; subst c'. simpl.
      eexists. split; [reflexivity|]. unfold resolved. simpl. by destruct created.
    + destruct (PubsubModule_async.useExisting async) as [c|]; [|done].
      destruct args as [|[v | c'] rest]; intros [= Heq]; subst c'. simpl.
      eexists. split; [reflexivity|]. unfold resolved. simpl. by destruct created.
Qed.

End ConfigurationFurther.


(* ===================================================================== *)
(** ** The JSON instance: parsing undoes serialization                    *)
(* ===================================================================== *)

Module MiniJSON_facts.
Import MiniJSON.

#[local] Arguments String.append !_ _ / : simpl nomatch.

(** **** Text *)

Lemma append_assoc (a b c : string) : (a +:+ b) +:+ c = a +:+ (b +:+ c).
Proof. induction a as [|x a IH]; simpl; [done | by rewrite IH]. Qed.

Lemma append_nil_r (a : string) : a +:+ EmptyString = a.
Proof. induction a as [|x a IH]; simpl; [done | by rewrite IH]. Qed.

Lemma length_append (a b : string) :
  String.length (a +:+ b) = (String.length a + String.length b)%nat.
Proof. induction a as [|x a IH]; simpl; [done | by rewrite IH]. Qed.

Lemma delimiter_facts (c : ascii) :
  delimiter c = true →
  is_digit c = false ∧ is_ws c = false ∧
  (Ascii.eqb c "." || Ascii.eqb c "e" || Ascii.eqb c "E") = false.
Proof.
  unfold delimiter. intros H.
  apply orb_true_iff in H as [H | H]; [apply orb_true_iff in H as [H | H]|];
    apply Ascii.eqb_eq in H; subst c; done.
Qed.

(** **** Numbers *)

Lemma span_digits_uint (u : Decimal.uint) (rest : string) :
  match rest with EmptyString => True | String c _ => is_digit c = false end →
  span_digits (NilEmpty.string_of_uint u +:+ rest) = (NilEmpty.string_of_uint u, rest).
Proof.
  intros Hrest. induction u as [|u IH|u IH|u IH|u IH|u IH|u IH|u IH|u IH|u IH|u IH];
    simpl; try (rewrite IH; done).
  destruct rest as [|c r]; simpl; [done | by rewrite Hrest].
Qed.

Lemma to_uint_normal (p : positive) : Decimal.unorm (Pos.to_uint p) = Pos.to_uint p.
Proof.
  rewrite <- (DecimalPos.Unsigned.to_of (Pos.to_uint p)).
  by rewrite DecimalPos.Unsigned.of_to.
Qed.

Lemma to_uint_no_leading_zero (p : positive) (u : Decimal.uint) :
  Pos.to_uint p ≠ Decimal.D0 u.
Proof.
  intros Hp. pose proof (to_uint_normal p) as Hn. rewrite Hp in Hn.
  destruct u as [|u|u|u|u|u|u|u|u|u|u];
    try (by apply (DecimalPos.Unsigned.to_uint_nonzero p)).
  all: rewrite DecimalFacts.unorm_D0 in Hn.
  all: match type of Hn with
       | Decimal.unorm ?x = _ =>
           assert (x ≠ Decimal.Nil) as Hx by done;
           pose proof (DecimalFacts.nb_digits_unorm x Hx) as Hle;
           rewrite Hn in Hle; simpl in Hle; lia
       end.
Qed.

Lemma parse_nat_positive (p : positive) (rest : string) :
  delimited rest →
  parse_nat (NilEmpty.string_of_uint (Pos.to_uint p) +:+ rest) = Some (N.pos p, rest).
Proof.
  intros Hrest. unfold parse_nat.
  rewrite span_digits_uint.
  2: { destruct rest as [|c r]; [done|]. by apply delimiter_facts. }
  pose proof (to_uint_no_leading_zero p) as Hlead.
  pose proof (DecimalPos.Unsigned.to_uint_nonnil p) as Hnil.
  pose proof (NilEmpty.usu (Pos.to_uint p)) as Husu.
  pose proof (DecimalPos.Unsigned.of_to p) as Hof.
  assert (starts_fraction rest = false) as Hfrac.
  { destruct rest as [|c r]; [done|]. by apply delimiter_facts. }
  destruct (Pos.to_uint p) as [|u|u|u|u|u|u|u|u|u|u] eqn:Hu;
    try done; try (by destruct (Hlead u));
    simpl in *; rewrite Hfrac; simpl in *; rewrite Husu; simpl;
    unfold N.of_uint; by rewrite Hof.
Qed.

Lemma parse_number_print (n : Z) (rest : string) :
  delimited rest →
  parse_number (print_number n +:+ rest) = Some (n, rest).
Proof.
  intros Hrest. destruct n as [|p|p]; simpl.
  - unfold parse_nat. simpl.
    assert (is_digit_rest : span_digits rest = (EmptyString, rest)).
    { destruct rest as [|c r]; [done|]. simpl.
      by destruct (delimiter_facts c Hrest) as (-> & _). }
    rewrite is_digit_rest. simpl.
    assert (starts_fraction rest = false) as ->.
    { destruct rest as [|c r]; [done|]. by apply delimiter_facts. }
    done.
  - pose proof (parse_nat_positive p rest Hrest) as Hp.
    unfold parse_number.
    destruct (NilEmpty.string_of_uint (Pos.to_uint p) +:+ rest) as [|c r] eqn:Hs.
    + by rewrite Hp.
    + destruct (Ascii.eqb c "-") eqn:Hc.
      * apply Ascii.eqb_eq in Hc. subst c. exfalso.
        pose proof (DecimalPos.Unsigned.to_uint_nonnil p).
        unfold parse_nat in Hp. simpl in Hp. done.
      * assert (c ≠ "-"%char) as Hne by (by apply Ascii.eqb_neq).
        rewrite Hp.
        destruct c as [[] [] [] [] [] [] [] []]; simpl; try done.
  - by rewrite (parse_nat_positive p rest Hrest).
Qed.

(** **** Strings *)

Lemma parse_chars_escape_char (c : ascii) (tail : string) :
  parse_chars (escape_char c +:+ tail) =
  '(str, rest) ← parse_chars tail; Some (String c str, rest).
Proof. destruct c as [[] [] [] [] [] [] [] []]; reflexivity. Qed.

Lemma parse_chars_escape (s rest : string) :
  parse_chars (escape s +:+ String dquote rest) = Some (s, rest).
Proof.
  induction s as [|c s IH]; [done|].
  simpl escape. rewrite append_assoc, parse_chars_escape_char, IH. done.
Qed.

Lemma quote_append (s rest : string) :
  quote s +:+ rest = String dquote (escape s +:+ String dquote rest).
Proof. unfold quote. simpl. by rewrite append_assoc. Qed.

(** **** Values *)

Lemma uint_opens (p : positive) (rest : string) :
  ∃ c r, NilEmpty.string_of_uint (Pos.to_uint p) +:+ rest = String c r ∧
         is_digit c = true.
Proof.
  pose proof (DecimalPos.Unsigned.to_uint_nonnil p) as Hnil.
  destruct (Pos.to_uint p); [done|..]; simpl; eauto.
Qed.

Lemma number_opens (n : Z) (rest : string) :
  ∃ c r, print_number n +:+ rest = String c r ∧
         (is_digit c = true ∨ c = "-"%char).
Proof.
  destruct n as [|p|p]; simpl; [eauto| |eauto].
  destruct (uint_opens p rest) as (c & r & -> & Hc). eauto.
Qed.

(** How the parser dispatches on a digit or a minus sign. *)
Lemma number_dispatch (c : ascii) :
  is_digit c = true ∨ c = "-"%char →
  is_ws c = false ∧ Ascii.eqb c "n" = false ∧ Ascii.eqb c "t" = false ∧
  Ascii.eqb c "f" = false ∧ Ascii.eqb c "[" = false ∧ Ascii.eqb c "{" = false ∧
  Ascii.eqb c dquote = false ∧ Ascii.eqb c "]" = false ∧ Ascii.eqb c "}" = false.
Proof.
  intros [Hd | ->]; [|done].
  destruct c as [[] [] [] [] [] [] [] []]; try discriminate Hd; done.
Qed.

Lemma stringify_opens (v : json) (rest : string) :
  opens_value (stringify v +:+ rest).
Proof.
  unfold opens_value. destruct v as [|[]|n|s|items|members]; simpl; eauto 10.
  destruct (number_opens n rest) as (c & r & -> & Hc).
  destruct (number_dispatch c Hc) as (? & _ & _ & _ & _ & _ & _ & ? & ?). eauto 10.
Qed.

Lemma skip_ws_here (c : ascii) (r : string) :
  is_ws c = false → skip_ws (String c r) = String c r.
Proof. intros Hc. simpl. by rewrite Hc. Qed.

Lemma peek_is_here (c : ascii) (r : string) :
  is_ws c = false → peek_is c (String c r) = Some r.
Proof. intros Hc. unfold peek_is. simpl. by rewrite Hc, Ascii.eqb_refl. Qed.

Lemma peek_is_other (c c' : ascii) (r : string) :
  is_ws c' = false → Ascii.eqb c' c = false → peek_is c (String c' r) = None.
Proof. intros Hws Hc. unfold peek_is. simpl. by rewrite Hws, Hc. Qed.

Lemma peek_close_value (v : json) (rest : string) :
  peek_is "]" (stringify v +:+ rest) = None ∧
  peek_is "}" (stringify v +:+ rest) = None.
Proof.
  destruct (stringify_opens v rest) as (c & r & -> & Hws & H1 & H2).
  split; by apply peek_is_other.
Qed.

Lemma join_cons2 (sep x y : string) (l : list string) :
  join sep (x :: y :: l) = x +:+ sep +:+ join sep (y :: l).
Proof. reflexivity. Qed.

Lemma parse_items_S (fuel : nat) (s : string) :
  parse_items (S fuel) s =
  '(v, rest) ← parse_value fuel s;
  match peek_is "," rest with
  | Some rest => '(items, rest) ← parse_items fuel rest; Some (v :: items, rest)
  | None => rest ← peek_is "]" rest; Some ([v], rest)
  end.
Proof. reflexivity. Qed.

Lemma parse_members_S (fuel : nat) (s : string) :
  parse_members (S fuel) s =
  r ← peek_is dquote s;
  '(key, rest) ← parse_chars r;
  rest ← peek_is ":" rest;
  '(v, rest) ← parse_value fuel rest;
  match peek_is "," rest with
  | Some rest =>
      '(members, rest) ← parse_members fuel rest; Some ((key, v) :: members, rest)
  | None => rest ← peek_is "}" rest; Some ([(key, v)], rest)
  end.
Proof. reflexivity. Qed.

Lemma parse_items_join (items : list json) :
  Forall parses_back items → items ≠ [] →
  ∀ fuel rest, (items_size items ≤ fuel)%nat →
    parse_items fuel (join "," (map stringify items) +:+ String "]" rest)
    = Some (items, rest).
Proof.
  induction 1 as [|x r Hx Hr IH]; [done|]. intros _ fuel rest Hfuel.
  unfold items_size in Hfuel. simpl in Hfuel.
  destruct fuel as [|fuel]; [lia|]. rewrite parse_items_S.
  destruct r as [|y r'].
  - change (join "," (map stringify [x])) with (stringify x).
    rewrite Hx; [|simpl in *; lia|done]. simpl.
    by rewrite ?peek_is_other, ?peek_is_here.
  - change (map stringify (x :: y :: r'))
      with (stringify x :: stringify y :: map stringify r').
    rewrite join_cons2, !append_assoc.
    change ("," +:+ ?t) with (String "," t).
    rewrite Hx; [|lia|done]. simpl.
    rewrite ?peek_is_here by done.
    change (stringify y :: map stringify r') with (map stringify (y :: r')).
    rewrite IH; [done|done|]. unfold items_size. simpl in *. lia.
Qed.

Lemma parse_members_join (members : list (string * json)) :
  Forall (λ kv, parses_back kv.2) members → members ≠ [] →
  ∀ fuel rest, (members_size members ≤ fuel)%nat →
    parse_members fuel (join "," (map member_text members) +:+ String "}" rest)
    = Some (members, rest).
Proof.
  induction 1 as [|[k x] r Hx Hr IH]; [done|]. intros _ fuel rest Hfuel.
  unfold members_size in Hfuel. simpl in Hfuel, Hx.
  destruct fuel as [|fuel]; [lia|]. rewrite parse_members_S.
  destruct r as [|y r'].
  - change (join "," (map member_text [(k, x)]))
      with (quote k +:+ ":" +:+ stringify x).
    rewrite !append_assoc, quote_append.
    rewrite ?peek_is_here by done. simpl.
    rewrite parse_chars_escape. simpl.
    change (":" +:+ ?t) with (String ":" t).
    rewrite ?peek_is_here by done. simpl.
    rewrite Hx; [|simpl in *; lia|done]. simpl.
    by rewrite ?peek_is_other, ?peek_is_here.
  - change (map member_text ((k, x) :: y :: r'))
      with ((quote k +:+ ":" +:+ stringify x) :: member_text y :: map member_text r').
    rewrite join_cons2, !append_assoc, quote_append.
    rewrite ?peek_is_here by done. simpl.
    rewrite parse_chars_escape. simpl.
    change (":" +:+ ?t) with (String ":" t).
    rewrite ?peek_is_here by done. simpl.
    change ("," +:+ ?t) with (String "," t).
    rewrite Hx; [|lia|done]. simpl.
    rewrite ?peek_is_here by done.
    change (member_text y :: map member_text r') with (map member_text (y :: r')).
    rewrite IH; [done|done|]. unfold members_size. simpl in *. lia.
Qed.

Lemma parse_value_S (fuel : nat) (s : string) :
  parse_value (S fuel) s =
  match skip_ws s with
  | EmptyString => None
  | String c r =>
      if Ascii.eqb c "n" then rest ← expect "ull" r; Some (J_null, rest)
      else if Ascii.eqb c "t" then rest ← expect "rue" r; Some (J_bool true, rest)
      else if Ascii.eqb c "f" then rest ← expect "alse" r; Some (J_bool false, rest)
      else if Ascii.eqb c "[" then
        match peek_is "]" r with
        | Some rest => Some (J_array [], rest)
        | None => '(items, rest) ← parse_items fuel r; Some (J_array items, rest)
        end
      else if Ascii.eqb c "{" then
        match peek_is "}" r with
        | Some rest => Some (J_object [], rest)
        | None =>
            '(members, rest) ← parse_members fuel r; Some (J_object members, rest)
        end
      else if Ascii.eqb c dquote then
        '(str, rest) ← parse_chars r; Some (J_string str, rest)
      else '(n, rest) ← parse_number (String c r); Some (J_number n, rest)
  end.
Proof. reflexivity. Qed.

Lemma stringify_array (items : list json) :
  stringify (J_array items) = "[" +:+ join "," (map stringify items) +:+ "]".
Proof. reflexivity. Qed.

Lemma stringify_object (members : list (string * json)) :
  stringify (J_object members) = "{" +:+ join "," (map member_text members) +:+ "}".
Proof. reflexivity. Qed.

(** Decides the comparisons of the dispatch on a known first character. *)
Ltac dispatch_on_char :=
  repeat match goal with
         | |- context [Ascii.eqb ?a ?b] =>
             let v := eval vm_compute in (Ascii.eqb a b) in
             change (Ascii.eqb a b) with v
         end;
  cbv iota.

Lemma parse_value_stringify (v : json) : parses_back v.
Proof.
  induction v as [|b|n|s|items IH|members IH] using json_induction;
    intros fuel rest Hfuel Hrest; (destruct fuel as [|fuel]; [simpl in Hfuel; lia|]);
    rewrite parse_value_S.
  - done.
  - by destruct b.
  - simpl stringify. pose proof (parse_number_print n rest Hrest) as Hn.
    destruct (number_opens n rest) as (c & r & Hs & Hc). rewrite Hs in *.
    destruct (number_dispatch c Hc) as (Hws & H1 & H2 & H3 & H4 & H5 & H6 & _).
    rewrite (skip_ws_here c r Hws), H1, H2, H3, H4, H5, H6, Hn. done.
  - simpl stringify. rewrite quote_append. simpl.
    by rewrite parse_chars_escape.
  - rewrite stringify_array, !append_assoc. simpl in Hfuel.
    change ("[" +:+ ?t) with (String "[" t). change ("]" +:+ ?t) with (String "]" t).
    simpl skip_ws. dispatch_on_char.
    destruct items as [|x r].
    + change (join "," (map _ [])) with EmptyString. simpl String.append.
      by rewrite peek_is_here.
    + assert (peek_is "]" (join "," (map stringify (x :: r)) +:+ String "]" rest) = None)
        as ->.
      { destruct r.
        - apply peek_close_value.
        - change (map stringify (x :: j :: r))
            with (stringify x :: stringify j :: map stringify r).
          rewrite join_cons2, !append_assoc. apply peek_close_value. }
      rewrite parse_items_join; [done|done|done|]. unfold items_size. lia.
  - rewrite stringify_object, !append_assoc. simpl in Hfuel.
    change ("{" +:+ ?t) with (String "{" t). change ("}" +:+ ?t) with (String "}" t).
    simpl skip_ws. dispatch_on_char.
    destruct members as [|[k x] r].
    + change (join "," (map _ [])) with EmptyString. simpl String.append.
      by rewrite peek_is_here.
    + assert (peek_is "}" (join "," (map member_text ((k, x) :: r)) +:+ String "}" rest)
              = None) as ->.
      { destruct r.
        - change (join "," (map member_text [(k, x)]))
            with (quote k +:+ ":" +:+ stringify x).
          rewrite !append_assoc, quote_append. by apply peek_is_other.
        - change (map member_text ((k, x) :: p :: r))
            with ((quote k +:+ ":" +:+ stringify x) :: member_text p
                  :: map member_text r).
          rewrite join_cons2, !append_assoc, quote_append. by apply peek_is_other. }
      rewrite parse_members_join; [done|done|done|]. unfold members_size. lia.
Qed.

(** **** Fuel *)

Lemma print_number_nonempty (n : Z) : (1 ≤ String.length (print_number n))%nat.
Proof.
  destruct (number_opens n EmptyString) as (c & r & Hs & _).
  rewrite append_nil_r in Hs. rewrite Hs. simpl. lia.
Qed.

Lemma join_length_items (items : list json) :
  Forall (λ x, (size x ≤ String.length (stringify x))%nat) items →
  (items_size items ≤ S (String.length (join "," (map stringify items))))%nat.
Proof.
  unfold items_size. induction 1 as [|x r Hx Hr IH]; [simpl; lia|].
  destruct r as [|y r'].
  - change (join "," (map stringify [x])) with (stringify x). simpl. lia.
  - change (map stringify (x :: y :: r'))
      with (stringify x :: stringify y :: map stringify r').
    rewrite join_cons2, !length_append.
    change (stringify y :: map stringify r') with (map stringify (y :: r')).
    simpl in *. lia.
Qed.

Lemma join_length_members (members : list (string * json)) :
  Forall (λ kv, (size kv.2 ≤ String.length (stringify kv.2))%nat) members →
  (members_size members ≤ S (String.length (join "," (map member_text members))))%nat.
Proof.
  unfold members_size. induction 1 as [|[k x] r Hx Hr IH]; [simpl; lia|].
  simpl in Hx. destruct r as [|y r'].
  - change (join "," (map member_text [(k, x)]))
      with (quote k +:+ ":" +:+ stringify x).
    rewrite !length_append. simpl. lia.
  - change (map member_text ((k, x) :: y :: r'))
      with ((quote k +:+ ":" +:+ stringify x) :: member_text y :: map member_text r').
    rewrite join_cons2, !length_append.
    change (member_text y :: map member_text r') with (map member_text (y :: r')).
    simpl in *. lia.
Qed.

Lemma size_le_length (v : json) : (size v ≤ String.length (stringify v))%nat.
Proof.
  induction v as [|b|n|s|items IH|members IH] using json_induction.
  - simpl. lia.
  - destruct b; simpl; lia.
  - apply print_number_nonempty.
  - unfold stringify, quote. simpl. lia.
  - rewrite stringify_array, !length_append.
    pose proof (join_length_items items IH) as Hle.
    unfold items_size in Hle. simpl in *. lia.
  - rewrite stringify_object, !length_append.
    pose proof (join_length_members members IH) as Hle.
    unfold members_size in Hle. simpl in *. lia.
Qed.

(** Parsing undoes serialization, for every value. *)
Theorem parse_stringify (v : json) : parse (stringify v) = Some v.
Proof.
  unfold parse.
  pose proof (parse_value_stringify v (S (String.length (stringify v))) EmptyString)
    as Hv.
  rewrite append_nil_r in Hv. rewrite Hv; [done| |done].
  pose proof (size_le_length v). lia.
Qed.

(** Every value of the instance is JSON-representable. *)
Theorem every_value_is_representable (P : json) : JSON_representable P.
Proof.
  exists (stringify P). split; [done|]. split.
  - apply String.string_of_list_byte_of_string.
  - simpl. by rewrite parse_stringify.
Qed.

(** On the instance, whatever the publisher encodes reaches the handler
    unchanged, in both listener variants. *)
Corollary every_published_value_reaches_handler
    (this : PubsubBaseListener.Listener json) (inst : PubSubExplorer.Instance json)
    (h : json → Message → HandlerRun) (P : json) (msg : Message) (b : Backend) :
  PubsubPublisher.encode P = Normal (data msg) →
  PubsubBaseListener.handlePayload this = h →
  PubSubExplorer.handle inst = Some h →
  ∀ r, r = PubsubBaseListener.message_callback this msg b ∨
       r = PubSubExplorer.message_callback inst msg b →
  handler_calls (events_of r) = [(P, msg)].
Proof.
  intros Henc Hbase Hexp r Hr.
  pose proof (decode_encode P (data msg) (every_value_is_representable P) Henc)
    as Hparse.
  by apply (dispatch_after_parse this inst h msg P b Hparse Hbase Hexp r Hr).
Qed.

End MiniJSON_facts.

(* ===================================================================== *)
(** * The properties on the fixtures                                      *)
(* ===================================================================== *)

Section OnFixtures.
Import MiniJSON Fixtures.

(** The malformed message of the listener test is nacked once, in the base
    listener, and its handler is not called. *)
Lemma malformed_payload_is_nacked_once_on_test_message :
  parse ("{ " +:+ in_quotes "this is not valid json" +:+ " }") = None ∧
  handler_calls (events_of
    (PubsubBaseListener.message_callback (TestListener acking None) malformed
       (backend ∅ ∅))) = [] ∧
  ack_calls (events_of
    (PubsubBaseListener.message_callback (TestListener acking None) malformed
       (backend ∅ ∅))) = [(ByCore, Nack)].
Proof.
  split; [by vm_compute|].
  destruct (malformed_payload_is_nacked_once
              (TestListener acking None) (test_instance acking) malformed
              (syntax_error (Buffer_toString (data malformed))) (backend ∅ ∅))
    as [(_ & Hcalls & Hacks) _]; [by vm_compute|].
  by split.
Defined.

(** The message of the listener test whose handler rejects: one [nack()]
    by the library, nothing thrown. *)
Lemma handler_failure_is_nacked_once_on_test_message :
  parse (Buffer_toString (data hello)) = Some hello_world ∧
  outcome (rejecting hello_world hello) = Throw businessError ∧
  result_of (PubsubBaseListener.message_callback (TestListener rejecting None) hello
               (backend ∅ ∅)) = Normal tt ∧
  ack_calls (events_of
    (PubsubBaseListener.message_callback (TestListener rejecting None) hello
       (backend ∅ ∅))) = [(ByCore, Nack)].
Proof.
  assert (JSON_parse (Buffer_toString (data hello)) = Normal hello_world) as Hparse
    by (by vm_compute).
  split; [by vm_compute|]. split; [done|].
  destruct (handler_failure_is_nacked_once
              (TestListener rejecting None) (test_instance rejecting) rejecting
              hello hello_world businessError (backend ∅ ∅)
              Hparse eq_refl eq_refl eq_refl
              (PubsubBaseListener.message_callback (TestListener rejecting None) hello
                 (backend ∅ ∅))
              (or_introl eq_refl))
    as (Hres & _ & Hacks & _).
  by split.
Defined.

(** The message of the listener test whose handler acknowledges: the only
    call on the message is the handler's [ack()]. *)
Lemma handler_success_no_implicit_ack_on_test_message :
  parse (Buffer_toString (data hello)) = Some hello_world ∧
  outcome (acking hello_world hello) = Normal tt ∧
  ack_calls (events_of
    (PubSubExplorer.message_callback (test_instance acking) hello (backend ∅ ∅)))
    = [(ByHandler, Ack)] ∧
  count is_core_nack (events_of
    (PubSubExplorer.message_callback (test_instance acking) hello (backend ∅ ∅)))
    = 0%nat.
Proof.
  assert (JSON_parse (Buffer_toString (data hello)) = Normal hello_world) as Hparse
    by (by vm_compute).
  split; [by vm_compute|]. split; [done|].
  destruct (handler_success_no_implicit_ack
              (TestListener acking None) (test_instance acking) acking
              hello hello_world (backend ∅ ∅)
              Hparse eq_refl eq_refl eq_refl
              (PubSubExplorer.message_callback (test_instance acking) hello
                 (backend ∅ ∅))
              (or_intror eq_refl))
    as (_ & _ & Hacks & _ & Hnack).
  by split.
Defined.

(** [{ hello: 'world' }], encoded by the publisher and delivered to the
    listeners of the tests. *)
Lemma published_payload_reaches_handler_on_test_message :
  JSON_representable hello_world ∧
  PubsubPublisher.encode hello_world = Normal (data hello) ∧
  handler_calls (events_of
    (PubsubBaseListener.message_callback (TestListener acking None) hello
       (backend ∅ ∅))) = [(hello_world, hello)] ∧
  handler_calls (events_of
    (PubSubExplorer.message_callback (test_instance acking) hello (backend ∅ ∅)))
    = [(hello_world, hello)].
Proof.
  assert (JSON_representable hello_world) as Hrep.
  { exists (stringify hello_world). by vm_compute. }
  split; [done|]. split; [done|].
  by apply (published_payload_reaches_handler
              (TestListener acking None) (test_instance acking) acking
              hello_world hello (backend ∅ ∅) Hrep).
Defined.

(** The scenario of the spec: the subscription exists with an ack deadline
    of 30, the listener asks for 300; nothing is created and the live
    subscription keeps 30. *)
Lemma existing_subscription_is_never_recreated_on_scenario :
  subscriptions provisioned !! ("test-topic", "test-sub") = Some live_options ∧
  count is_subscription_create (events_of
    (PubSubExplorer.getOrCreateSubscription (T := json) "test-topic"
       (test_meta "test-topic" (Some wanted_options)) provisioned)) = 0%nat ∧
  backend_of
    (PubSubExplorer.getOrCreateSubscription (T := json) "test-topic"
       (test_meta "test-topic" (Some wanted_options)) provisioned) = provisioned ∧
  subscriptions (backend_of
    (PubsubBaseListener.onModuleInit (auto_create true)
       (TestListener acking (Some wanted_options)) provisioned))
    !! ("test-topic", "test-sub") = Some live_options.
Proof.
  split; [done|].
  destruct (existing_subscription_is_never_recreated
              (auto_create true) "test-topic" "test-sub" provisioned live_options
              (test_meta "test-topic" (Some wanted_options))
              (TestListener acking (Some wanted_options)))
    as [(_ & Hcount & Hbackend & _) (_ & Hlive & _)]; done.
Defined.

(** The scenario of the spec: topic ["user.created"] is absent. *)
Lemma missing_topic_is_created_or_fatal_on_scenario :
  ("user.created" ∉ topics (backend ∅ ∅)) ∧
  topic_created
    (PubSubExplorer.getOrCreateTopic (T := json) (auto_create true)
       (test_meta "user.created" None) (backend ∅ ∅))
    "user.created" "user.created" ∧
  fatal_unretried
    (PubsubPublisher.dispatchEvent (auto_create false) "user.created" order None
       (backend ∅ ∅))
    (publisher_missing_topic "user.created") (backend ∅ ∅) ∧
  fatal_unretried
    (PubSubExplorer.setupHandler (auto_create false) (test_instance acking)
       (test_meta "user.created" None) [] (backend ∅ ∅))
    (listener_missing_topic "user.created") (backend ∅ ∅).
Proof.
  assert ("user.created" ∉ topics (backend ∅ ∅)) as Hout by set_solver.
  assert (PubsubPublisher.encode order = Normal (Buffer_from (stringify order)))
    as Henc by reflexivity.
  split; [done|].
  destruct (missing_topic_is_created_or_fatal
              (auto_create true) "user.created" (backend ∅ ∅)
              (test_meta "user.created" None) (test_instance acking) []
              UserCreatedListener order (Buffer_from (stringify order)) None
              Hout eq_refl eq_refl Henc) as [Hcreate _].
  destruct (missing_topic_is_created_or_fatal
              (auto_create false) "user.created" (backend ∅ ∅)
              (test_meta "user.created" None) (test_instance acking) []
              UserCreatedListener order (Buffer_from (stringify order)) None
              Hout eq_refl eq_refl Henc) as [_ Hfatal].
  destruct (Hcreate eq_refl) as (Hexplorer & _).
  destruct (Hfatal eq_refl) as [(e1 & _ & Htopic1 & Hsetup & _) (e2 & _ & Htopic2 & Hdispatch)].
  split; [done|].
  rewrite (explorer_missing_topic_fatal (T := json) (auto_create false)
             (test_meta "user.created" None) (backend ∅ ∅) Hout eq_refl) in Htopic1.
  rewrite (publisher_missing_topic_fatal (T := json) (auto_create false)
             "user.created" (backend ∅ ∅) Hout eq_refl) in Htopic2.
  injection Htopic1 as <-. injection Htopic2 as <-. done.
Defined.

(** The scenario of the spec: [dispatchEvent("orders", {id: 1})] with the
    topic existing. *)
Lemma dispatchEvent_publishes_once_on_scenario :
  ("orders" ∈ topics (backend {[ "orders" ]} ∅)) ∧
  JSON_stringify order = Normal (stringify order) ∧
  publish_calls (events_of
    (PubsubPublisher.dispatchEvent (auto_create false) "orders" order None
       (backend {[ "orders" ]} ∅)))
    = [("orders", Buffer_from (stringify order), ∅)] ∧
  result_of
    (PubsubPublisher.dispatchEvent (auto_create false) "orders" order None
       (backend {[ "orders" ]} ∅)) = Normal "message-123" ∧
  result_of
    (PubsubPublisher.dispatchEvent (auto_create false) "orders" order None
       (failing_backend {[ "orders" ]})) = Throw publishing_failed.
Proof.
  assert ("orders" ∈ topics (backend {[ "orders" ]} ∅)) as Hin by set_solver.
  assert ("orders" ∈ topics (failing_backend {[ "orders" ]})) as Hin' by set_solver.
  assert (JSON_stringify order = Normal (stringify order)) as Htext by reflexivity.
  split; [done|]. split; [done|].
  destruct (dispatchEvent_publishes_once (auto_create false) "orders" order
              (stringify order) None (backend {[ "orders" ]} ∅) Hin Htext)
    as (Hcalls & _ & Hok & _).
  destruct (dispatchEvent_publishes_once (auto_create false) "orders" order
              (stringify order) None (failing_backend {[ "orders" ]}) Hin' Htext)
    as (_ & _ & _ & Hfail).
  split; [done|]. split.
  - by apply Hok.
  - by apply Hfail.
Defined.

(** The merge laws on the override of the spec. *)
Lemma subscription_options_merge_laws_on_scenario :
  PubsubBaseListener.getMergedSubscriptionOptions (TestListener acking (Some ∅))
    = default_subscription_options ∧
  retry_min (PubsubBaseListener.getMergedSubscriptionOptions
               (TestListener acking (Some min_backoff_5)))
    = JObj {[ "seconds" := JNum 5 ]} ∧
  retry_max (PubsubBaseListener.getMergedSubscriptionOptions
               (TestListener acking (Some min_backoff_5)))
    = JObj {[ "seconds" := JNum 600 ]} ∧
  retry_max (PubSubExplorer.mergedOptions (test_meta "test-topic" (Some min_backoff_5)))
    = JObj {[ "seconds" := JNum 600 ]}.
Proof.
  destruct (subscription_options_merge_laws (TestListener acking (Some ∅))
              (test_meta "test-topic" (Some ∅))) as (Hempty & _ & _).
  destruct (subscription_options_merge_laws (TestListener acking (Some min_backoff_5))
              (test_meta "test-topic" (Some min_backoff_5))) as (_ & _ & Hmin).
  destruct (Hmin min_backoff_5
              {[ "minimumBackoff" := JObj {[ "seconds" := JNum 5 ]} ]}
              (JObj {[ "seconds" := JNum 5 ]}) eq_refl eq_refl eq_refl)
    as [Hbase Hexplorer].
  destruct (Hbase eq_refl) as (Hb1 & _ & Hb2).
  destruct (Hexplorer eq_refl) as (_ & _ & He2).
  split; [by apply Hempty|]. done.
Defined.

(** **** Module options *)

(** C8 as stated does not hold on the code: a configuration without
    [projectId] is accepted by both module variants. *)
Lemma configuration_without_projectId_is_accepted :
  projectId_absent no_options = true ∧
  rejected (PubsubModule_explorer.register (T := json) no_options) = false ∧
  rejected (PubsubModule_base.register no_options) = false.
Proof. repeat split; by vm_compute. Qed.

(** The discovery variant on a configuration without [projectId], and on
    emulator mode without a port. *)
Lemma configuration_rejected_only_for_emulator_port_on_inputs :
  rejected (PubsubModule_explorer.register (T := json) no_options) = false ∧
  rejected (PubsubModule_explorer.register (T := json) emulator_only) = true ∧
  PUBSUB_CLIENT (PubsubModule_explorer.register (T := json) emulator_only) =
    Throw (new_Error "PubsubModule: Emulator mode requires a port.").
Proof.
  destruct (configuration_rejected_only_for_emulator_port (T := json) no_options)
    as (H1 & _).
  destruct (configuration_rejected_only_for_emulator_port (T := json) emulator_only)
    as (H2 & H3 & _).
  rewrite H1, H2. split; [by vm_compute|]. split; [by vm_compute|].
  by apply H3.
Defined.

(** C10 as stated does not hold on the code: with [autoCreateTopics]
    omitted the two mergers resolve it to the same value, [false]. *)
Lemma autoCreateTopics_defaults_do_not_differ :
  project_only !! "autoCreateTopics" = None ∧
  get (PubsubModule_base.mergedOptions project_only) "autoCreateTopics" = JBool false ∧
  get (PubsubModule_explorer.mergeDefaultOptions project_only) "autoCreateTopics"
    = JBool false.
Proof. repeat split; by vm_compute. Qed.

Lemma autoCreateTopics_defaults_agree_on_input :
  project_only !! "autoCreateTopics" = None ∧
  get (PubsubModule_base.mergedOptions project_only) "autoCreateTopics" =
  get (PubsubModule_explorer.mergeDefaultOptions project_only) "autoCreateTopics".
Proof.
  split; [done|].
  destruct (autoCreateTopics_defaults_agree project_only eq_refl) as (-> & -> & _).
  done.
Defined.

End OnFixtures.

(** *** The further properties on concrete inputs *)

Section OnScenarios.
Import MiniJSON Fixtures Scenarios.

(** **** Subscription options *)

Lemma merge_variants_agree_on_min_backoff :
  PubsubBaseListener.subscriptionOptions (TestListener acking (Some min_backoff_5)) =
  PubSubExplorer.subscriptionOptions (test_meta "test-topic" (Some min_backoff_5)) ∧
  PubsubBaseListener.getMergedSubscriptionOptions (TestListener acking (Some min_backoff_5))
  = PubSubExplorer.mergedOptions (test_meta "test-topic" (Some min_backoff_5)).
Proof.
  split; [done|].
  by apply (merge_variants_agree (TestListener acking (Some min_backoff_5))
              (test_meta "test-topic" (Some min_backoff_5))).
Defined.


Lemma merge_nullish_retryPolicy_keeps_default_on_ack_deadline :
  merged_by json (Some wanted_options)
    (PubsubBaseListener.getMergedSubscriptionOptions
       (TestListener acking (Some wanted_options))) ∧
  nullish (opt_get (opt_obj (Some wanted_options)) "retryPolicy") = true ∧
  get (PubsubBaseListener.getMergedSubscriptionOptions
         (TestListener acking (Some wanted_options))) "retryPolicy"
  = get default_subscription_options "retryPolicy".
Proof.
  assert (merged_by json (Some wanted_options)
            (PubsubBaseListener.getMergedSubscriptionOptions
               (TestListener acking (Some wanted_options)))) as Hm.
  { left. exists (TestListener acking (Some wanted_options)). by split. }
  split; [done|]. split; [done|].
  by apply (merge_nullish_retryPolicy_keeps_default (Some wanted_options) _ Hm).
Defined.

Lemma merge_idempotent_on_min_backoff :
  merged_by json (Some min_backoff_5)
    (PubSubExplorer.mergedOptions (test_meta "test-topic" (Some min_backoff_5))) ∧
  PubSubExplorer.mergedOptions
    (test_meta "test-topic"
       (Some (PubSubExplorer.mergedOptions (test_meta "test-topic" (Some min_backoff_5)))))
  = PubSubExplorer.mergedOptions (test_meta "test-topic" (Some min_backoff_5)).
Proof.
  assert (merged_by json (Some min_backoff_5)
            (PubSubExplorer.mergedOptions (test_meta "test-topic" (Some min_backoff_5))))
    as Hm.
  { right. exists (test_meta "test-topic" (Some min_backoff_5)). by split. }
  split; [done|].
  apply (merge_idempotent (Some min_backoff_5) _ _ Hm).
  right.
  exists (test_meta "test-topic"
            (Some (PubSubExplorer.mergedOptions
                     (test_meta "test-topic" (Some min_backoff_5))))).
  by split.
Defined.

(** **** Setup *)

(** The topic exists, the subscription does not, auto-creation is off. *)
Lemma missing_subscription_is_always_created_on_scenario :
  ("test-topic" ∈ topics (backend {[ "test-topic" ]} ∅)) ∧
  subscriptions (backend {[ "test-topic" ]} ∅) !! ("test-topic", "test-sub") = None ∧
  truthy (get (auto_create false) "autoCreateTopics") = false ∧
  count is_subscription_create (events_of
    (PubSubExplorer.setupHandler (auto_create false) (test_instance acking)
       (test_meta "test-topic" (Some wanted_options)) []
       (backend {[ "test-topic" ]} ∅))) = 1%nat ∧
  result_of
    (PubsubBaseListener.onModuleInit (auto_create false)
       (TestListener acking (Some wanted_options)) (backend {[ "test-topic" ]} ∅))
  = Normal tt.
Proof.
  assert ("test-topic" ∈ topics (backend {[ "test-topic" ]} ∅)) as Hin by set_solver.
  destruct (missing_subscription_is_always_created
              (auto_create false) (test_instance acking)
              (test_meta "test-topic" (Some wanted_options)) []
              (TestListener acking (Some wanted_options))
              (backend {[ "test-topic" ]} ∅) Hin eq_refl eq_refl)
    as [(_ & Hcreate & _) (Hbase & _)].
  split; [done|]. split; [done|]. split; [done|]. by split.
Defined.

(** A service and a provider that is not instantiated. *)
Lemma undecorated_providers_are_skipped_on_scenario :
  Forall (λ w, decorated w = None) [plain_service; pending_provider] ∧
  PubSubExplorer.onModuleInit (auto_create false) [plain_service; pending_provider] []
    (backend ∅ ∅)
  = (Normal [], backend ∅ ∅, []).
Proof.
  assert (Forall (λ w, decorated w = None) [plain_service; pending_provider]) as Hall
    by (by repeat constructor).
  split; [done|].
  by apply (undecorated_providers_are_skipped (auto_create false) _ [] (backend ∅ ∅) Hall).
Defined.

(** The first listener's topic is missing, the second listener's exists:
    startup ends with the first, and the second topic is never asked for. *)
Lemma startup_is_fail_fast_on_scenario :
  result_of
    (PubSubExplorer.setupHandler (auto_create false) (test_instance acking)
       (test_meta "user.created" None) [] (backend {[ "orders" ]} ∅))
  = Throw (listener_missing_topic "user.created") ∧
  PubSubExplorer.onModuleInit (auto_create false)
    ([plain_service] ++ listener_on "user.created" :: [listener_on "orders"]) []
    (backend {[ "orders" ]} ∅)
  = PubSubExplorer.setupHandler (auto_create false) (test_instance acking)
      (test_meta "user.created" None) [] (backend {[ "orders" ]} ∅).
Proof.
  assert (result_of
            (PubSubExplorer.setupHandler (auto_create false) (test_instance acking)
               (test_meta "user.created" None) [] (backend {[ "orders" ]} ∅))
          = Throw (listener_missing_topic "user.created")) as Hthrow
    by (by vm_compute).
  assert (Forall (λ w, decorated w = None) [plain_service]) as Hpre
    by (by repeat constructor).
  split; [done|].
  by apply (startup_is_fail_fast (auto_create false) [plain_service]
              [listener_on "orders"] (listener_on "user.created")
              (test_instance acking) (test_meta "user.created" None) []
              (backend {[ "orders" ]} ∅) (listener_missing_topic "user.created")
              Hpre eq_refl eq_refl Hthrow).
Defined.

(** Two listeners and a service, with auto-creation on. *)
Lemma completed_startup_sets_up_every_listener_on_scenario :
  result_of
    (PubSubExplorer.onModuleInit (auto_create true)
       [plain_service; listener_on "orders"; listener_on "user.created"] []
       (backend {[ "orders" ]} ∅))
  = Normal [ {| sub_topic := "orders"; sub_name := "test-sub" |};
             {| sub_topic := "user.created"; sub_name := "test-sub" |} ] ∧
  count (is_listen "message") (events_of
    (PubSubExplorer.onModuleInit (auto_create true)
       [plain_service; listener_on "orders"; listener_on "user.created"] []
       (backend {[ "orders" ]} ∅))) = 2%nat.
Proof.
  assert (result_of
            (PubSubExplorer.onModuleInit (auto_create true)
               [plain_service; listener_on "orders"; listener_on "user.created"] []
               (backend {[ "orders" ]} ∅))
          = Normal [ {| sub_topic := "orders"; sub_name := "test-sub" |};
                     {| sub_topic := "user.created"; sub_name := "test-sub" |} ])
    as Hok by (by vm_compute).
  split; [done|].
  by destruct (completed_startup_sets_up_every_listener (auto_create true)
                 [plain_service; listener_on "orders"; listener_on "user.created"] []
                 _ (backend {[ "orders" ]} ∅) Hok) as (_ & Hcount & _).
Defined.

(** **** Publishing *)

Lemma unserializable_payload_fails_before_any_effect_on_cycle :
  JSON_stringify Circular = Throw circular_structure ∧
  PubsubPublisher.dispatchEvent (auto_create true) "orders" Circular None
    (backend {[ "orders" ]} ∅)
  = (Throw circular_structure, backend {[ "orders" ]} ∅, []).
Proof.
  split; [done|].
  by apply (unserializable_payload_fails_before_any_effect (auto_create true) "orders"
              Circular None (backend {[ "orders" ]} ∅) circular_structure).
Defined.

Lemma dispatch_publishes_iff_it_returns_on_failure :
  PubsubPublisher.encode order = Normal (Buffer_from (stringify order)) ∧
  result_of
    (PubsubPublisher.dispatchEvent (auto_create false) "orders" order None
       (failing_backend {[ "orders" ]}))
  = Throw publishing_failed ∧
  published (backend_of
    (PubsubPublisher.dispatchEvent (auto_create false) "orders" order None
       (failing_backend {[ "orders" ]}))) = [] ∧
  count is_error_log (events_of
    (PubsubPublisher.dispatchEvent (auto_create false) "orders" order None
       (failing_backend {[ "orders" ]}))) = 1%nat.
Proof.
  assert (PubsubPublisher.encode order = Normal (Buffer_from (stringify order)))
    as Henc by reflexivity.
  assert (result_of
            (PubsubPublisher.dispatchEvent (auto_create false) "orders" order None
               (failing_backend {[ "orders" ]}))
          = Throw publishing_failed) as Hres by (by vm_compute).
  pose proof (dispatch_publishes_iff_it_returns (auto_create false) "orders" order
                (Buffer_from (stringify order)) None (failing_backend {[ "orders" ]})
                Henc) as H.
  cbv zeta in H. rewrite Hres in H. destruct H as (Hpub & Hlog & _).
  split; [done|]. split; [done|]. by split.
Defined.

Lemma dispatch_auto_creates_topic_once_on_scenario :
  PubsubPublisher.encode order = Normal (Buffer_from (stringify order)) ∧
  ("user.created" ∉ topics (backend ∅ ∅)) ∧
  truthy (get (auto_create true) "autoCreateTopics") = true ∧
  count is_topic_create (events_of
    (PubsubPublisher.dispatchEvent (auto_create true) "user.created" order None
       (backend ∅ ∅))) = 1%nat ∧
  count is_topic_create (events_of
    (PubsubPublisher.dispatchEvent (auto_create true) "user.created" order None
       (backend_of
          (PubsubPublisher.dispatchEvent (auto_create true) "user.created" order None
             (backend ∅ ∅))))) = 0%nat.
Proof.
  assert (PubsubPublisher.encode order = Normal (Buffer_from (stringify order)))
    as Henc by reflexivity.
  assert ("user.created" ∉ topics (backend ∅ ∅)) as Hout by set_solver.
  destruct (dispatch_auto_creates_topic_once (auto_create true) "user.created" order
              (Buffer_from (stringify order)) None (backend ∅ ∅) Henc Hout eq_refl)
    as (Hfirst & _ & _ & Hsecond & _).
  split; [done|]. split; [done|]. split; [done|]. by split.
Defined.

(** **** Message callbacks *)

Lemma missing_handle_method_is_nacked_on_test_message :
  JSON_parse (Buffer_toString (data hello)) = Normal hello_world ∧
  PubSubExplorer.handle bare_instance = None ∧
  ack_calls (events_of
    (PubSubExplorer.message_callback bare_instance hello (backend ∅ ∅)))
  = [(ByCore, Nack)].
Proof.
  assert (JSON_parse (Buffer_toString (data hello)) = Normal hello_world) as Hparse
    by (by vm_compute).
  split; [done|]. split; [done|].
  by destruct (missing_handle_method_is_nacked bare_instance hello hello_world
                 (backend ∅ ∅) Hparse eq_refl) as (_ & _ & Hacks & _).
Defined.

Lemma variants_treat_messages_alike_on_test_message :
  PubsubBaseListener.handlePayload (TestListener rejecting None) = rejecting ∧
  PubSubExplorer.handle (test_instance rejecting) = Some rejecting ∧
  ack_calls (events_of
    (PubsubBaseListener.message_callback (TestListener rejecting None) hello
       (backend ∅ ∅)))
  = ack_calls (events_of
      (PubSubExplorer.message_callback (test_instance rejecting) hello (backend ∅ ∅))).
Proof.
  split; [done|]. split; [done|].
  by destruct (variants_treat_messages_alike (TestListener rejecting None)
                 (test_instance rejecting) rejecting hello (backend ∅ ∅)
                 eq_refl eq_refl) as (_ & Hacks & _).
Defined.

(** **** Module options *)

Lemma emulator_client_carries_no_credentials_on_input :
  truthy (get emulator_with_key "emulatorMode") = true ∧
  PUBSUB_CLIENT (PubsubModule_base.register emulator_with_key) =
    Normal (new_PubSub {[ "emulatorMode" := JBool true; "port" := JNum 8085;
                          "projectId" := JStr "my-project-id" ]}) ∧
  client_config (new_PubSub {[ "emulatorMode" := JBool true; "port" := JNum 8085;
                               "projectId" := JStr "my-project-id" ]})
    !! "keyFilename" = None.
Proof.
  assert (PUBSUB_CLIENT (PubsubModule_base.register emulator_with_key) =
          Normal (new_PubSub {[ "emulatorMode" := JBool true; "port" := JNum 8085;
                                "projectId" := JStr "my-project-id" ]})) as Hc
    by (by vm_compute).
  split; [done|]. split; [done|].
  by destruct (emulator_client_carries_no_credentials (T := json) emulator_with_key _
                 eq_refl (or_intror Hc)) as (Hkey & _).
Defined.

Lemma cloud_client_key_material_on_input :
  truthy (get cloud_with_both "emulatorMode") = false ∧
  ∃ c, PUBSUB_CLIENT (PubsubModule_base.register cloud_with_both) = Normal c ∧
       client_config c !! "keyFilename" = Some (JStr "key.json") ∧
       client_config c !! "credentials" = None.
Proof.
  split; [done|].
  destruct (cloud_client_key_material (T := json) cloud_with_both eq_refl)
    as [(c & Hc & Hkey & Hcred) _].
  exists c. split; [done|]. split; [exact Hkey | exact Hcred].
Defined.

Lemma omitted_flag_makes_missing_topic_fatal_on_scenario :
  project_only !! "autoCreateTopics" = None ∧
  ("user.created" ∉ topics (backend ∅ ∅)) ∧
  result_of
    (PubSubExplorer.setupHandler
       (PUBSUB_MERGED_OPTIONS (PubsubModule_explorer.register (T := json) project_only))
       (test_instance acking) (test_meta "user.created" None) [] (backend ∅ ∅))
  = Throw (listener_missing_topic "user.created") ∧
  result_of
    (PubsubBaseListener.onModuleInit
       (PUBSUB_MERGED_OPTIONS (PubsubModule_base.register project_only))
       UserCreatedListener (backend ∅ ∅))
  = Throw (listener_missing_topic "user.created").
Proof.
  assert ("user.created" ∉ topics (backend ∅ ∅)) as Hout by set_solver.
  assert (PubsubPublisher.encode order = Normal (Buffer_from (stringify order)))
    as Henc by reflexivity.
  destruct (omitted_flag_makes_missing_topic_fatal project_only (test_instance acking)
              (test_meta "user.created" None) UserCreatedListener [] "user.created"
              order (Buffer_from (stringify order)) None (backend ∅ ∅)
              eq_refl Hout eq_refl eq_refl Henc)
    as ((H1 & _) & (H2 & _) & _).
  split; [done|]. split; [done|]. by split.
Defined.

Lemma registerAsync_source_precedence_on_factory :
  ∃ m, PubsubModule_async.registerAsync (T := json) factory_options = Normal m ∧
       class_providers (PubsubModule_async.providers m) = [] ∧
       options_inject (PubsubModule_async.providers m) = Some ["ConfigService"].
Proof.
  eexists. split; [reflexivity|].
  exact (registerAsync_source_precedence (T := json) factory_options _ eq_refl).
Defined.

Lemma registerAsync_resolves_like_register_on_class :
  source_of class_options [PubsubModule_async.OptionsFactory (Normal project_only)]
  = Some (Normal project_only) ∧
  ∃ m, PubsubModule_async.registerAsync (T := json) class_options = Normal m ∧
       resolved m [PubsubModule_async.OptionsFactory (Normal project_only)]
       = Some (Normal (PubsubModule_explorer.register project_only)).
Proof.
  split; [done|].
  exact (registerAsync_resolves_like_register (T := json) class_options
           [PubsubModule_async.OptionsFactory (Normal project_only)]
           (Normal project_only) eq_refl).
Defined.

End OnScenarios.
